(** * The ODBC backend of the SMS daemon (smsd/services/odbc.c)

    A shallow embedding of the adapter that maps the generic SQL backend
    interface of the daemon onto the ODBC call-level API, and the
    properties of its operations.

    The adapter is straight-line glue around calls of two external
    collaborators: the ODBC driver manager and the C library.  Both are
    interfaces here ([ODBC], [Libc]); every operation of the adapter is a
    computation in a small monad that threads the state of the process,
    records what the operation emits (log lines, API calls with their
    status, accesses to the return-string array) and can end in undefined
    behaviour. *)

From stdpp Require Import gmap strings list.
From Stdlib Require Import ZArith Lia.

Local Open Scope Z_scope.

(** ** Values of the call-level API (sql.h, sqlext.h) *)

Definition SQLRETURN := Z.
Definition SQLHANDLE := Z.
Definition SQLLEN := Z.

Definition SQL_SUCCESS : SQLRETURN := 0.
Definition SQL_SUCCESS_WITH_INFO : SQLRETURN := 1.
Definition SQL_NO_DATA : SQLRETURN := 100.
Definition SQL_ERROR : SQLRETURN := -1.
Definition SQL_INVALID_HANDLE : SQLRETURN := -2.

Definition SQL_NULL_HANDLE : SQLHANDLE := 0.
Definition SQL_ATTR_ODBC_VERSION : Z := 200.
Definition SQL_OV_ODBC3 : Z := 3.
Definition SQL_NULL_DATA : SQLLEN := -1.
Definition SQL_NO_TOTAL : SQLLEN := -4.

(** [#define SQL_SUCCEEDED(rc) (((rc)&(~1))==0)] *)
Definition SQL_SUCCEEDED (rc : SQLRETURN) : bool :=
  Z.land rc (Z.lnot 1) =? 0.

Inductive HandleType := SQL_HANDLE_ENV | SQL_HANDLE_DBC | SQL_HANDLE_STMT.

Inductive CType := SQL_C_SLONG | SQL_C_TYPE_TIMESTAMP | SQL_C_CHAR.

Record SQL_TIMESTAMP_STRUCT := {
  year : Z; month : Z; day : Z;
  hour : Z; minute : Z; second : Z;
  fraction : Z
}.

(** One answer of [SQLGetDiagRec]: its status and the record it fills in. *)
Record DiagRec := {
  diag_ret : SQLRETURN;
  diag_state : list Z;
  diag_native : Z;
  diag_text : list Z
}.

(** The calls the adapter issues, with the arguments that matter to the
    caller.  A [CGetData] carries the target type, whether a target buffer
    was passed, and the buffer length. *)
Inductive Call :=
| CAllocHandle (ty : HandleType) (parent : SQLHANDLE)
| CSetEnvAttr (env : SQLHANDLE) (attribute value : Z)
| CConnect (dbc : SQLHANDLE) (host user password : string)
| CDisconnect (dbc : SQLHANDLE)
| CFreeHandle (ty : HandleType) (h : SQLHANDLE)
| CExecDirect (stmt : SQLHANDLE) (text : string)
| CFetch (stmt : SQLHANDLE)
| CRowCount (stmt : SQLHANDLE)
| CGetData (stmt : SQLHANDLE) (col : Z) (ty : CType) (target : bool) (buflen : Z)
| CGetDiagRec (ty : HandleType) (h : SQLHANDLE) (recno : Z).

(** The driver manager.  Each function takes the state of the driver and
    returns the status, the values it stores through its output pointers,
    and the next state.

    [SQLGetDiagRec] gives the answers to record numbers 1, 2, ... of a
    handle as a finite list; a record number past the list is answered
    with [SQL_NO_DATA], as the API documents for a record number greater
    than the number of records. Retrieving diagnostics does not change the
    driver. *)
Class ODBC (D : Type) := {
  SQLAllocHandle : HandleType -> SQLHANDLE -> D -> SQLRETURN * SQLHANDLE * D;
  SQLSetEnvAttr : SQLHANDLE -> Z -> Z -> D -> SQLRETURN * unit * D;
  SQLConnect : SQLHANDLE -> string -> string -> string -> D -> SQLRETURN * unit * D;
  SQLDisconnect : SQLHANDLE -> D -> SQLRETURN * unit * D;
  SQLFreeHandle : HandleType -> SQLHANDLE -> D -> SQLRETURN * unit * D;
  SQLExecDirect : SQLHANDLE -> string -> D -> SQLRETURN * unit * D;
  SQLFetch : SQLHANDLE -> D -> SQLRETURN * unit * D;
  SQLRowCount : SQLHANDLE -> D -> SQLRETURN * SQLLEN * D;
  SQLGetData_SLONG : SQLHANDLE -> Z -> D -> SQLRETURN * Z * D;
  SQLGetData_TIMESTAMP : SQLHANDLE -> Z -> D -> SQLRETURN * SQL_TIMESTAMP_STRUCT * D;
  SQLGetData_CHAR : SQLHANDLE -> Z -> bool -> Z -> D -> SQLRETURN * (list Z * SQLLEN) * D;
  SQLGetDiagRec : HandleType -> SQLHANDLE -> D -> list DiagRec
}.

(** ** The C library *)

Record tm := {
  tm_sec : Z; tm_min : Z; tm_hour : Z;
  tm_mday : Z; tm_mon : Z; tm_year : Z;
  tm_isdst : Z
}.

(** [malloc] and [realloc] answer NULL ([None]) or succeed; on success they
    give the unspecified bytes the new storage holds, and [realloc] also
    says whether the block moved.  [mktime] and [daylight] read the time
    zone of the process. *)
Class Libc (L : Type) := {
  malloc : Z -> L -> option (list Z) * L;
  realloc : Z -> L -> option (bool * list Z) * L;
  tzset : L -> L;
  daylight : L -> Z;
  mktime : tm -> L -> Z
}.

(** Machine integers: the value of a [w]-bit signed object holding [z],
    and the conversion to [size_t] and [unsigned long long]. *)
Definition sint (w : Z) (z : Z) : Z := (z + 2 ^ (w - 1)) mod 2 ^ w - 2 ^ (w - 1).
Definition uint64 (z : Z) : Z := z mod 2 ^ 64.

(** The string a [char *] refers to: the bytes before the first NUL. *)
Fixpoint c_str (b : list Z) : list Z :=
  match b with
  | [] => []
  | c :: r => if c =? 0 then [] else c :: c_str r
  end.

(** [strlen]; reading past the storage without meeting a NUL is undefined. *)
Fixpoint strlen (b : list Z) : option nat :=
  match b with
  | [] => None
  | c :: r => if c =? 0 then Some O else S <$> strlen r
  end.

(** Storage of [n] bytes whose first bytes are [init]. *)
Definition block (n : nat) (init : list Z) : list Z := take n (init ++ replicate n 0).

(** Bytes stored at the start of a buffer. *)
Definition overwrite (new old : list Z) : list Z := new ++ drop (length new) old.

Definition dquote : Z := 34.
Definition backslash : Z := 92.

(** ** The daemon's side (core.h, sql.h, sql-core.h) *)

Inductive SMSD_DebugLevel := DEBUG_ERROR | DEBUG_INFO.

Inductive LogArg :=
| ArgInt (n : Z)
| ArgStr (s : string)
| ArgBytes (b : list Z).

Definition ptr := positive.

(** [Config->host], [->user], [->password] and [Config->conn.odbc]. *)
Record GSM_SMSDConfig := {
  host : string;
  user : string;
  password : string;
  env : SQLHANDLE;
  dbc : SQLHANDLE;
  retstr : list (option ptr)
}.

Record SQL_result := { odbc : SQLHANDLE }.

Inductive SQL_Error := SQL_OK | SQL_FAIL.

Definition gboolean := Z.
Definition TRUE : gboolean := 1.
Definition FALSE : gboolean := 0.

(** What an operation emits, in order. *)
Inductive Event :=
| EvLog (lvl : SMSD_DebugLevel) (fmt : string) (args : list LogArg)
| EvCall (c : Call) (rc : SQLRETURN)
| EvLoad (slot : Z)
| EvStore (slot : Z) (v : option ptr)
| EvMalloc (size : Z) (p : option ptr)
| EvRealloc (old : ptr) (size : Z) (p : option ptr)
| EvFree (p : ptr).

#[global] Instance HandleType_eq_dec : EqDecision HandleType.
Proof. solve_decision. Defined.
#[global] Instance CType_eq_dec : EqDecision CType.
Proof. solve_decision. Defined.
#[global] Instance SMSD_DebugLevel_eq_dec : EqDecision SMSD_DebugLevel.
Proof. solve_decision. Defined.
#[global] Instance LogArg_eq_dec : EqDecision LogArg.
Proof. solve_decision. Defined.
#[global] Instance Call_eq_dec : EqDecision Call.
Proof. solve_decision. Defined.
#[global] Instance Event_eq_dec : EqDecision Event.
Proof. solve_decision. Defined.

Definition is_log (lvl : SMSD_DebugLevel) (e : Event) : bool :=
  match e with
  | EvLog l _ _ => bool_decide (l = lvl)
  | _ => false
  end.

Definition is_any_log (e : Event) : bool :=
  match e with EvLog _ _ _ => true | _ => false end.

Definition is_slot_access (e : Event) : bool :=
  match e with EvLoad _ | EvStore _ _ => true | _ => false end.

Definition is_call (e : Event) : bool :=
  match e with EvCall _ _ => true | _ => false end.

(** The lines an emitted trace adds to the log. *)
Definition log_of (t : list Event) : list Event := filter (fun e => is_any_log e = true) t.

(** The state of the process an operation runs in: the driver manager,
    the C library, the heap and the configuration of the daemon. *)
Record World (D L : Type) := {
  driver : D;
  libc : L;
  heap : gmap ptr (list Z);
  config : GSM_SMSDConfig
}.
Arguments Build_World {D L} driver libc heap config.
Arguments driver {D L} w.
Arguments libc {D L} w.
Arguments heap {D L} w.
Arguments config {D L} w.

(** ** A driver and a C library that replay a script

    Concrete collaborators for running the adapter: the driver answers
    each call with the next reply of its script (and with [SQL_ERROR] once
    the script is over) and reports a fixed list of diagnostic records;
    the C library answers each allocation with the next entry of its
    script and keeps time in UTC, without daylight saving. *)

Module Scripted.

Record Reply := {
  r_ret : SQLRETURN;
  r_handle : SQLHANDLE;
  r_long : Z;
  r_time : SQL_TIMESTAMP_STRUCT;
  r_bytes : list Z;
  r_len : SQLLEN
}.

Definition no_time : SQL_TIMESTAMP_STRUCT :=
  {| year := 0; month := 0; day := 0; hour := 0; minute := 0; second := 0; fraction := 0 |}.

Definition status (rc : SQLRETURN) : Reply :=
  {| r_ret := rc; r_handle := 0; r_long := 0; r_time := no_time; r_bytes := []; r_len := 0 |}.
Definition handle (h : SQLHANDLE) : Reply :=
  {| r_ret := SQL_SUCCESS; r_handle := h; r_long := 0; r_time := no_time; r_bytes := []; r_len := 0 |}.
Definition long (v : Z) : Reply :=
  {| r_ret := SQL_SUCCESS; r_handle := 0; r_long := v; r_time := no_time; r_bytes := []; r_len := 0 |}.
Definition time (t : SQL_TIMESTAMP_STRUCT) : Reply :=
  {| r_ret := SQL_SUCCESS; r_handle := 0; r_long := 0; r_time := t; r_bytes := []; r_len := 0 |}.
Definition chars (rc : SQLRETURN) (b : list Z) (n : SQLLEN) : Reply :=
  {| r_ret := rc; r_handle := 0; r_long := 0; r_time := no_time; r_bytes := b; r_len := n |}.

Record Driver := { script : list Reply; diags : list DiagRec }.

Definition next (d : Driver) : Reply * Driver :=
  match script d with
  | [] => (status SQL_ERROR, d)
  | r :: rest => (r, {| script := rest; diags := diags d |})
  end.

#[global] Instance Driver_ODBC : ODBC Driver := {|
  SQLAllocHandle _ _ d := let (r, d') := next d in (r_ret r, r_handle r, d');
  SQLSetEnvAttr _ _ _ d := let (r, d') := next d in (r_ret r, tt, d');
  SQLConnect _ _ _ _ d := let (r, d') := next d in (r_ret r, tt, d');
  SQLDisconnect _ d := let (r, d') := next d in (r_ret r, tt, d');
  SQLFreeHandle _ _ d := let (r, d') := next d in (r_ret r, tt, d');
  SQLExecDirect _ _ d := let (r, d') := next d in (r_ret r, tt, d');
  SQLFetch _ d := let (r, d') := next d in (r_ret r, tt, d');
  SQLRowCount _ d := let (r, d') := next d in (r_ret r, r_len r, d');
  SQLGetData_SLONG _ _ d := let (r, d') := next d in (r_ret r, r_long r, d');
  SQLGetData_TIMESTAMP _ _ d := let (r, d') := next d in (r_ret r, r_time r, d');
  SQLGetData_CHAR _ _ _ _ d := let (r, d') := next d in (r_ret r, (r_bytes r, r_len r), d');
  SQLGetDiagRec _ _ d := diags d
|}.

(** Days from 1970-01-01 to a date of the proleptic Gregorian calendar. *)
Definition days_from_civil (y m d : Z) : Z :=
  let y' := if m <=? 2 then y - 1 else y in
  let era := y' / 400 in
  let yoe := y' - era * 400 in
  let doy := (153 * (if m >? 2 then m - 3 else m + 9) + 2) / 5 + d - 1 in
  let doe := yoe * 365 + yoe / 4 - yoe / 100 + doy in
  era * 146097 + doe - 719468.

(** [mktime] in UTC: [tm_year] counts from 1900 and [tm_mon] from 0, and
    fields out of their range are carried over. *)
Definition mktime_utc (t : tm) : Z :=
  let y := tm_year t + 1900 + tm_mon t / 12 in
  let m := tm_mon t mod 12 + 1 in
  days_from_civil y m (tm_mday t) * 86400
  + tm_hour t * 3600 + tm_min t * 60 + tm_sec t.

Record Clib := { allocs : list (option (list Z)) }.

#[global] Instance Clib_Libc : Libc Clib := {|
  malloc _ l :=
    match allocs l with
    | [] => (None, l)
    | a :: rest => (a, {| allocs := rest |})
    end;
  realloc _ l :=
    match allocs l with
    | [] => (None, l)
    | a :: rest => (pair false <$> a, {| allocs := rest |})
    end;
  tzset l := l;
  daylight _ := 0;
  mktime t _ := mktime_utc t
|}.

(** Modelled from the spec: the generic boolean parser is outside this
    file; the specification describes it as mapping tokens in the style of
    "1" and "true" to true.  This one accepts exactly those two. *)
Definition one_or_true (s : option (list Z)) : gboolean :=
  match s with
  | Some [49] => TRUE
  | Some [116; 114; 117; 101] => TRUE
  | _ => FALSE
  end.

(** A process with the given script, diagnostic records, allocation
    script, slots and heap. *)
Definition world (replies : list Reply) (records : list DiagRec)
    (allocations : list (option (list Z))) (slots : list (option ptr))
    (blocks : gmap ptr (list Z)) : World Driver Clib :=
  {| driver := {| script := replies; diags := records |};
     libc := {| allocs := allocations |};
     heap := blocks;
     config := {| host := "host1"; user := "user1"; password := "pw1";
                  env := 0; dbc := 0; retstr := slots |} |}.

Definition timestamp (y mo d h mi s : Z) : SQL_TIMESTAMP_STRUCT :=
  {| year := y; month := mo; day := d; hour := h; minute := mi; second := s;
     fraction := 0 |}.

End Scripted.

Section Adapter.

Context {D L : Type} `{!ODBC D} `{!Libc L}.

(** Defined in core.h, which is not among the sources at hand: the bound
    on the field index of a returned string.  The declaration of
    [Config->conn.odbc.retstr] is there too; the specification gives that
    array this many slots, and the properties that depend on its size say
    so with a hypothesis on the length of [retstr]. *)
Variable SMSD_ODBC_MAX_RETURN_STRINGS : Z.

(** From the daemon's build configuration. *)
Variable HAVE_DAYLIGHT : bool.

(** The generic boolean parser of the library; its argument is the string
    a pointer refers to, [None] for a null pointer. *)
Variable GSM_StringToBool : option (list Z) -> gboolean.

Definition with_driver (w : World D L) (d : D) : World D L :=
  {| driver := d; libc := libc w; heap := heap w; config := config w |}.
Definition with_libc (w : World D L) (l : L) : World D L :=
  {| driver := driver w; libc := l; heap := heap w; config := config w |}.
Definition with_heap (w : World D L) (h : gmap ptr (list Z)) : World D L :=
  {| driver := driver w; libc := libc w; heap := h; config := config w |}.
Definition with_config (w : World D L) (c : GSM_SMSDConfig) : World D L :=
  {| driver := driver w; libc := libc w; heap := heap w; config := c |}.

Definition set_env (c : GSM_SMSDConfig) (h : SQLHANDLE) : GSM_SMSDConfig :=
  {| host := host c; user := user c; password := password c;
     env := h; dbc := dbc c; retstr := retstr c |}.
Definition set_dbc (c : GSM_SMSDConfig) (h : SQLHANDLE) : GSM_SMSDConfig :=
  {| host := host c; user := user c; password := password c;
     env := env c; dbc := h; retstr := retstr c |}.
Definition set_retstr (c : GSM_SMSDConfig) (r : list (option ptr)) : GSM_SMSDConfig :=
  {| host := host c; user := user c; password := password c;
     env := env c; dbc := dbc c; retstr := r |}.

(** ** The monad of operations *)

Inductive Outcome (A : Type) :=
| Ret (a : A) (w : World D L)
| Undefined.
Arguments Ret {A} a w.
Arguments Undefined {A}.

Definition M (A : Type) : Type := World D L -> list Event * Outcome A.

Definition ret {A} (a : A) : M A := fun w => ([], Ret a w).

Definition bind {A B} (m : M A) (k : A -> M B) : M B := fun w =>
  match m w with
  | (t, Ret a w') => let (t', o) := k a w' in (t ++ t', o)
  | (t, Undefined) => (t, Undefined)
  end.

Notation "'do' x <- m ; k" := (bind m (fun x => k))
  (at level 10, x pattern, m at level 100, k at level 200).
Notation "'do_' m ; k" := (bind m (fun _ => k))
  (at level 10, m at level 100, k at level 200).

Definition emit (e : Event) : M unit := fun w => ([e], Ret tt w).

Definition get_config : M GSM_SMSDConfig := fun w => ([], Ret (config w) w).

Definition SMSD_Log (lvl : SMSD_DebugLevel) (fmt : string) (args : list LogArg) : M unit :=
  emit (EvLog lvl fmt args).

(** An API call: run the driver, record the call with its status. *)
Definition api {A} (c : Call) (f : D -> SQLRETURN * A * D) : M (SQLRETURN * A) := fun w =>
  let '(rc, a, d) := f (driver w) in
  ([EvCall c rc], Ret (rc, a) (with_driver w d)).

(** ** SMSDODBC_LogError *)

(** The format of a diagnostic record; it ends with a newline. *)
Definition fmt_diag_record : string :=
  "%s:%ld:%ld:%s" +:+ String (Ascii.ascii_of_nat 10) "".

(** The do-while loop over the diagnostic records: [recno] is the value of
    [++i], [answers] what the driver gives from that record number on. *)
Fixpoint diag_loop (ty : HandleType) (h : SQLHANDLE) (recno : Z)
    (answers : list DiagRec) : list Event :=
  match answers with
  | [] => [EvCall (CGetDiagRec ty h recno) SQL_NO_DATA]
  | r :: rest =>
      EvCall (CGetDiagRec ty h recno) (diag_ret r) ::
      (if SQL_SUCCEEDED (diag_ret r)
       then [EvLog DEBUG_ERROR fmt_diag_record
               [ArgBytes (diag_state r); ArgInt recno;
                ArgInt (diag_native r); ArgBytes (diag_text r)]]
       else []) ++
      (if diag_ret r =? SQL_SUCCESS then diag_loop ty h (recno + 1) rest else [])
  end.

Definition SMSDODBC_LogError (ty : HandleType) (h : SQLHANDLE) (message : string) : M unit :=
  do_ SMSD_Log DEBUG_ERROR "%s, ODBC diagnostics:" [ArgStr message];
  fun w => (diag_loop ty h 1 (SQLGetDiagRec ty h (driver w)), Ret tt w).

(** [field + 1] is computed in [unsigned int] and passed as the 16-bit
    column number. *)
Definition column (field : Z) : Z := ((field + 1) mod 2 ^ 32) mod 2 ^ 16.

(** ** SMSDODBC_GetNumber *)

Definition SMSDODBC_GetNumber (res : SQL_result) (field : Z) : M Z :=
  do (rc, value) <- api (CGetData (odbc res) (column field) SQL_C_SLONG true 0)
                        (SQLGetData_SLONG (odbc res) (column field));
  if negb (SQL_SUCCEEDED rc) then
    do_ SMSDODBC_LogError SQL_HANDLE_STMT (odbc res) "SQLGetData(long) failed";
    ret (-1)
  else ret (sint 32 value).

(** ** SMSDODBC_NextRow *)

Definition SMSDODBC_NextRow (res : SQL_result) : M Z :=
  do (rc, _) <- api (CFetch (odbc res)) (SQLFetch (odbc res));
  if negb (SQL_SUCCEEDED rc) then
    do_ (if negb (rc =? SQL_NO_DATA) then
           SMSDODBC_LogError SQL_HANDLE_STMT (odbc res) "SQLFetch failed"
         else ret tt);
    ret 0
  else ret 1.


(** ** SMSDODBC_GetDate *)

(** Under [HAVE_STRUCT_TM_TM_ZONE] the source also sets [tm_gmtoff] and
    [tm_zone]; [mktime] does not read them and [tm] leaves them out. *)

Definition SMSDODBC_GetDate (res : SQL_result) (field : Z) : M Z :=
  do (rc, sqltime) <- api (CGetData (odbc res) (column field) SQL_C_TYPE_TIMESTAMP true 0)
                          (SQLGetData_TIMESTAMP (odbc res) (column field));
  if negb (SQL_SUCCEEDED rc) then
    do_ SMSDODBC_LogError SQL_HANDLE_STMT (odbc res) "SQLGetData(timestamp) failed";
    ret (-1)
  else
    fun w =>
      let l := tzset (libc w) in
      let timestruct :=
        {| tm_isdst := if HAVE_DAYLIGHT then daylight l else -1;
           tm_year := year sqltime;
           tm_mon := month sqltime;
           tm_mday := day sqltime;
           tm_hour := hour sqltime;
           tm_min := minute sqltime;
           tm_sec := second sqltime |} in
      ([], Ret (mktime timestruct l) (with_libc w l)).

(** ** The return-string array and the heap *)

(** [Config->conn.odbc.retstr[field]] as an rvalue and as an lvalue; an
    index outside the array is undefined behaviour. *)
Definition load_retstr (field : Z) : M (option ptr) := fun w =>
  if (0 <=? field) && (field <? Z.of_nat (length (retstr (config w)))) then
    match retstr (config w) !! Z.to_nat field with
    | Some v => ([EvLoad field], Ret v w)
    | None => ([EvLoad field], Undefined)
    end
  else ([EvLoad field], Undefined).

Definition store_retstr (field : Z) (v : option ptr) : M unit := fun w =>
  if (0 <=? field) && (field <? Z.of_nat (length (retstr (config w)))) then
    ([EvStore field v],
     Ret tt (with_config w (set_retstr (config w) (<[Z.to_nat field := v]> (retstr (config w))))))
  else ([EvStore field v], Undefined).

Definition do_malloc (size : Z) : M (option ptr) := fun w =>
  let (r, l) := malloc (uint64 size) (libc w) in
  match r with
  | None => ([EvMalloc (uint64 size) None], Ret None (with_libc w l))
  | Some init =>
      let p := fresh (dom (heap w)) in
      ([EvMalloc (uint64 size) (Some p)],
       Ret (Some p)
         (with_heap (with_libc w l)
            (<[p := block (Z.to_nat (uint64 size)) init]> (heap w))))
  end.

Definition do_realloc (old : ptr) (size : Z) : M (option ptr) := fun w =>
  match heap w !! old with
  | None => ([], Undefined)
  | Some content =>
      let (r, l) := realloc (uint64 size) (libc w) in
      match r with
      | None => ([EvRealloc old (uint64 size) None], Ret None (with_libc w l))
      | Some (moved, init) =>
          let p := if moved : bool then fresh (dom (heap w)) else old in
          ([EvRealloc old (uint64 size) (Some p)],
           Ret (Some p)
             (with_heap (with_libc w l)
                (<[p := block (Z.to_nat (uint64 size)) (content ++ init)]>
                   (delete old (heap w)))))
      end
  end.

(** [free] of a null pointer does nothing; of a pointer that is not a
    live block it is undefined. *)
Definition do_free (p : option ptr) : M unit := fun w =>
  match p with
  | None => ([], Ret tt w)
  | Some q =>
      match heap w !! q with
      | None => ([], Undefined)
      | Some _ => ([EvFree q], Ret tt (with_heap w (delete q (heap w))))
      end
  end.

(** [realloc] of a null pointer is [malloc]. *)
Definition realloc_ptr (old : option ptr) (size : Z) : M (option ptr) :=
  match old with
  | None => do_malloc size
  | Some q => do_realloc q size
  end.

Definition is_target (p : option ptr) : bool :=
  match p with Some _ => true | None => false end.

(** [SQLGetData] into a character buffer.  During the call the driver
    stores at most [buflen] bytes through the target pointer, and nothing
    through a null one; a target that is not a live block is undefined. *)
Definition get_chars (stmt : SQLHANDLE) (col : Z) (target : option ptr) (buflen : Z)
    : M (SQLRETURN * SQLLEN) := fun w =>
  let '(rc, (bytes, len), d) :=
    SQLGetData_CHAR stmt col (is_target target) buflen (driver w) in
  let call := EvCall (CGetData stmt col SQL_C_CHAR (is_target target) buflen) rc in
  match target with
  | None => ([call], Ret (rc, len) (with_driver w d))
  | Some p =>
      match heap w !! p with
      | None => ([], Undefined)
      | Some old =>
          ([call],
           Ret (rc, len)
             (with_heap (with_driver w d)
                (<[p := overwrite (take (Z.to_nat buflen) bytes) old]> (heap w))))
      end
  end.

(** The string behind a pointer, for the callees that read it. *)
Definition deref (w : World D L) (p : option ptr) : option (list Z) :=
  q ← p; c_str <$> (heap w !! q).

Definition read_string (p : option ptr) : M (list Z) := fun w =>
  match deref w p with
  | Some s => ([], Ret s w)
  | None => ([], Undefined)
  end.

(** [for (field = 0; field < n; field++) body] *)
Fixpoint for_loop (n : nat) (field : Z) (body : Z -> M unit) : M unit :=
  match n with
  | O => ret tt
  | S n' => do_ body field; for_loop n' (field + 1) body
  end.

(** ** SMSDODBC_GetString *)

(** The format of the trace line of a returned string; the two characters
    built from their code are the double quotes around [%s]. *)
Definition fmt_returning_string : string :=
  "Field %d returning string "
  +:+ String (Ascii.ascii_of_nat 34) ("%s" +:+ String (Ascii.ascii_of_nat 34) "").

Definition SMSDODBC_GetString (res : SQL_result) (field : Z) : M (option ptr) :=
  if field >? SMSD_ODBC_MAX_RETURN_STRINGS then
    do_ SMSD_Log DEBUG_ERROR "Field %d returning NULL, too many fields!" [ArgInt field];
    ret None
  else
    do (rc, size) <- get_chars (odbc res) (column field) None 0;
    if negb (SQL_SUCCEEDED rc) then
      do_ SMSDODBC_LogError SQL_HANDLE_STMT (odbc res) "SQLGetData(string,NULL) failed";
      ret None
    else if size =? SQL_NULL_DATA then
      do_ SMSD_Log DEBUG_INFO "Field %d returning NULL" [ArgInt field];
      ret None
    else
      do old <- load_retstr field;
      do new <- match old with
                | None => do_malloc (size + 1)
                | Some _ => do arg <- load_retstr field; realloc_ptr arg (size + 1)
                end;
      do_ store_retstr field new;
      do cur <- load_retstr field;
      match cur with
      | None =>
          do_ SMSD_Log DEBUG_ERROR
                "Field %d returning NULL, failed to allocate %ld bytes of memory"
                [ArgInt field; ArgInt (size + 1)];
          ret None
      | Some _ =>
          do target <- load_retstr field;
          do (rc', _) <- get_chars (odbc res) (column field) target (size + 1);
          if negb (SQL_SUCCEEDED rc') then
            do_ SMSDODBC_LogError SQL_HANDLE_STMT (odbc res) "SQLGetData(string) failed";
            ret None
          else
            do shown <- load_retstr field;
            do s <- read_string shown;
            do_ SMSD_Log DEBUG_INFO fmt_returning_string [ArgInt field; ArgBytes s];
            load_retstr field
      end.

(** ** SMSDODBC_GetBool *)

Definition SMSDODBC_GetBool (res : SQL_result) (field : Z) : M gboolean :=
  do intval <- SMSDODBC_GetNumber res field;
  if intval =? -1 then
    do charval <- SMSDODBC_GetString res field;
    fun w => ([], Ret (GSM_StringToBool (deref w charval)) w)
  else ret (if intval =? 0 then FALSE else TRUE).

(** ** SMSDODBC_Free *)

(** The body of the loop over the slots. *)
Definition free_slot (field : Z) : M unit :=
  do p <- load_retstr field;
  match p with
  | Some _ =>
      do q <- load_retstr field;
      do_ do_free q;
      store_retstr field None
  | None => ret tt
  end.

Definition SMSDODBC_Free : M unit :=
  do c <- get_config;
  do _ <- api (CDisconnect (dbc c)) (SQLDisconnect (dbc c));
  do c <- get_config;
  do _ <- api (CFreeHandle SQL_HANDLE_ENV (env c)) (SQLFreeHandle SQL_HANDLE_ENV (env c));
  for_loop (Z.to_nat SMSD_ODBC_MAX_RETURN_STRINGS) 0 free_slot.

(** ** SMSDODBC_Connect *)

Definition put_env (h : SQLHANDLE) : M unit := fun w =>
  ([], Ret tt (with_config w (set_env (config w) h))).
Definition put_dbc (h : SQLHANDLE) : M unit := fun w =>
  ([], Ret tt (with_config w (set_dbc (config w) h))).

Definition SMSDODBC_Connect : M SQL_Error :=
  do_ for_loop (Z.to_nat SMSD_ODBC_MAX_RETURN_STRINGS) 0 (fun field =>
        store_retstr field None);
  do (rc, h) <- api (CAllocHandle SQL_HANDLE_ENV SQL_NULL_HANDLE)
                    (SQLAllocHandle SQL_HANDLE_ENV SQL_NULL_HANDLE);
  do_ put_env h;
  do c <- get_config;
  if negb (SQL_SUCCEEDED rc) then
    do_ SMSDODBC_LogError SQL_HANDLE_ENV (env c) "SQLAllocHandle(ENV) failed";
    ret SQL_FAIL
  else
  do (rc, _) <- api (CSetEnvAttr (env c) SQL_ATTR_ODBC_VERSION SQL_OV_ODBC3)
                    (SQLSetEnvAttr (env c) SQL_ATTR_ODBC_VERSION SQL_OV_ODBC3);
  if negb (SQL_SUCCEEDED rc) then
    do_ SMSDODBC_LogError SQL_HANDLE_ENV (env c) "SQLSetEnvAttr failed";
    ret SQL_FAIL
  else
  do (rc, h) <- api (CAllocHandle SQL_HANDLE_DBC (env c))
                    (SQLAllocHandle SQL_HANDLE_DBC (env c));
  do_ put_dbc h;
  do c <- get_config;
  if negb (SQL_SUCCEEDED rc) then
    do_ SMSDODBC_LogError SQL_HANDLE_ENV (env c) "SQLAllocHandle(DBC) failed";
    ret SQL_FAIL
  else
  do (rc, _) <- api (CConnect (dbc c) (host c) (user c) (password c))
                    (SQLConnect (dbc c) (host c) (user c) (password c));
  if negb (SQL_SUCCEEDED rc) then
    do_ SMSDODBC_LogError SQL_HANDLE_DBC (dbc c) "SQLConnect failed";
    ret SQL_FAIL
  else ret SQL_OK.

(** ** SMSDODBC_Query *)

(** The result structure is an output: the driver stores the statement
    handle in [res->odbc]. *)
Definition SMSDODBC_Query (query : string) : M (SQL_Error * SQL_result) :=
  do c <- get_config;
  do (rc, h) <- api (CAllocHandle SQL_HANDLE_STMT (dbc c))
                    (SQLAllocHandle SQL_HANDLE_STMT (dbc c));
  let res := {| odbc := h |} in
  if negb (SQL_SUCCEEDED rc) then ret (SQL_FAIL, res)
  else
  do (rc, _) <- api (CExecDirect (odbc res) query) (SQLExecDirect (odbc res) query);
  if SQL_SUCCEEDED rc then ret (SQL_OK, res)
  else
    do_ SMSDODBC_LogError SQL_HANDLE_STMT (odbc res) "SQLExecDirect failed";
    ret (SQL_FAIL, res).

(** ** SMSDODBC_FreeResult *)

Definition SMSDODBC_FreeResult (res : SQL_result) : M unit :=
  do _ <- api (CFreeHandle SQL_HANDLE_STMT (odbc res))
              (SQLFreeHandle SQL_HANDLE_STMT (odbc res));
  ret tt.

(** ** SMSDODBC_QuoteString *)

(** [buf[pos] = c]; a store outside the storage is undefined. *)
Definition poke (buf : list Z) (pos : nat) (c : Z) : option (list Z) :=
  if decide (pos < length buf)%nat then Some (<[pos := c]> buf) else None.

(** The for loop, with [n] iterations left. *)
Fixpoint quote_loop (n i pos : nat) (string buf : list Z) : option (nat * list Z) :=
  match n with
  | O => Some (pos, buf)
  | S n' =>
      c ← string !! i;
      '(pos, buf) ← (if (c =? dquote) || (c =? backslash)
                     then buf' ← poke buf pos backslash; Some (S pos, buf')
                     else Some (pos, buf));
      buf' ← poke buf pos c;
      quote_loop n' (S i) (S pos) string buf'
  end.

Definition quote_fill (len : nat) (string buf : list Z) : option (list Z) :=
  buf ← poke buf 0 dquote;
  '(pos, buf) ← quote_loop len 0 1 string buf;
  buf ← poke buf pos dquote;
  poke buf (S pos) 0.

Definition undefined {A} : M A := fun _ => ([], Undefined).

Definition SMSDODBC_QuoteString (string : list Z) : M ptr :=
  match strlen string with
  | None => undefined
  | Some len =>
      do encoded_text <- do_malloc (Z.of_nat len * 2 + 3);
      match encoded_text with
      | None => undefined
      | Some p => fun w =>
          match heap w !! p ≫= quote_fill len string with
          | Some buf => ([], Ret p (with_heap w (<[p := buf]> (heap w))))
          | None => ([], Undefined)
          end
      end
  end.

(** ** SMSDODBC_SeqID *)

Definition SMSDODBC_SeqID (id : string) : M Z :=
  do c <- get_config;
  do (rc, stmt) <- api (CAllocHandle SQL_HANDLE_STMT (dbc c))
                       (SQLAllocHandle SQL_HANDLE_STMT (dbc c));
  if negb (SQL_SUCCEEDED rc) then ret 0
  else
  do (rc, _) <- api (CExecDirect stmt "SELECT @@IDENTITY")
                    (SQLExecDirect stmt "SELECT @@IDENTITY");
  if negb (SQL_SUCCEEDED rc) then
    do _ <- api (CFreeHandle SQL_HANDLE_STMT stmt) (SQLFreeHandle SQL_HANDLE_STMT stmt);
    ret 0
  else
  do (rc, _) <- api (CFetch stmt) (SQLFetch stmt);
  if negb (SQL_SUCCEEDED rc) then
    do _ <- api (CFreeHandle SQL_HANDLE_STMT stmt) (SQLFreeHandle SQL_HANDLE_STMT stmt);
    ret 0
  else
  do (rc, value) <- api (CGetData stmt 1 SQL_C_SLONG true 0) (SQLGetData_SLONG stmt 1);
  if negb (SQL_SUCCEEDED rc) then
    do _ <- api (CFreeHandle SQL_HANDLE_STMT stmt) (SQLFreeHandle SQL_HANDLE_STMT stmt);
    ret 0
  else
  do _ <- api (CFreeHandle SQL_HANDLE_STMT stmt) (SQLFreeHandle SQL_HANDLE_STMT stmt);
  ret (uint64 (sint 32 value)).

(** ** SMSDODBC_AffectedRows *)

Definition SMSDODBC_AffectedRows (res : SQL_result) : M Z :=
  do (rc, count) <- api (CRowCount (odbc res)) (SQLRowCount (odbc res));
  if negb (SQL_SUCCEEDED rc) then
    do c <- get_config;
    do_ SMSDODBC_LogError SQL_HANDLE_DBC (dbc c) "SQLRowCount failed";
    ret 0
  else ret (uint64 count).


(** ** One query of the dispatcher

    Connect, Query, NextRow and the accessors, FreeResult, Free: the data
    flow the dispatcher drives for a query with one row of a number and a
    string. *)
Definition session (query : string) : M (Z * list Z * Z) :=
  do _ <- SMSDODBC_Connect;
  do (_, res) <- SMSDODBC_Query query;
  do _ <- SMSDODBC_NextRow res;
  do id <- SMSDODBC_GetNumber res 0;
  do p <- SMSDODBC_GetString res 1;
  do name <- read_string p;
  do more <- SMSDODBC_NextRow res;
  do_ SMSDODBC_FreeResult res;
  do_ SMSDODBC_Free;
  ret (id, name, more).

(** ** Vocabulary of the properties *)

(** An emitted trace holds a line logged at error severity. *)
Definition error_logged (t : list Event) : Prop :=
  exists e, e ∈ t /\ is_log DEBUG_ERROR e = true.

(** The steps of SeqID whose status it tests: every call but the release
    of the statement handle. *)
Definition is_step (c : Call) : bool :=
  match c with CFreeHandle _ _ => false | _ => true end.

Definition is_free_handle (e : Event) : bool :=
  match e with EvCall (CFreeHandle _ _) _ => true | _ => false end.

(** The statement handle is released once, as the last thing done. *)
Definition freed_last (stmt : SQLHANDLE) (t : list Event) : Prop :=
  exists t0 rc,
    t = t0 ++ [EvCall (CFreeHandle SQL_HANDLE_STMT stmt) rc] /\
    Forall (fun e => is_free_handle e = false) t0.

Definition is_string_fetch (e : Event) : bool :=
  match e with EvCall (CGetData _ _ SQL_C_CHAR _ _) _ => true | _ => false end.

(** C3 as the specification states it: whenever the numeric fetch of the
    field succeeds, GetBool returns true iff the fetched value is not
    zero, and does not fetch the field as a string. *)
Definition GetBool_follows_fetch (res : SQL_result) (field : Z) (w : World D L) : Prop :=
  let ans := SQLGetData_SLONG (odbc res) (column field) (driver w) in
  SQL_SUCCEEDED ans.1.1 = true ->
  exists t r w',
    SMSDODBC_GetBool res field w = (t, Ret r w') /\
    (r = TRUE <-> sint 32 ans.1.2 <> 0) /\
    Forall (fun e => is_string_fetch e = false) t.


(** The quoted form, in the words of the specification: the input wrapped
    in double quotes, every double quote and backslash of it preceded by a
    backslash. *)
Fixpoint escape (s : list Z) : list Z :=
  match s with
  | [] => []
  | c :: r =>
      (if (c =? dquote) || (c =? backslash) then [backslash; c] else [c]) ++ escape r
  end.

Definition quoted (s : list Z) : list Z := dquote :: escape s ++ [dquote].

(** Unescaping, in the words of the specification: strip the surrounding
    quotes, collapse each backslash escape. *)
Fixpoint collapse (s : list Z) : list Z :=
  match s with
  | [] => []
  | c :: r =>
      if c =? backslash then
        match r with
        | [] => [c]
        | d :: r' => d :: collapse r'
        end
      else c :: collapse r
  end.

Definition strip_quotes (q : list Z) : option (list Z) :=
  match q with
  | [] => None
  | c :: r =>
      match reverse r with
      | [] => None
      | d :: m => if (c =? dquote) && (d =? dquote) then Some (reverse m) else None
      end
  end.

Definition unescape (q : list Z) : option (list Z) := collapse <$> strip_quotes q.


(** Every pointer held by a slot refers to a live block, and no two slots
    hold the same pointer. *)
Definition slots_live (w : World D L) : Prop :=
  NoDup (omap id (retstr (config w))) /\
  forall p, Some p ∈ retstr (config w) -> is_Some (heap w !! p).

Definition all_empty (slots : list (option ptr)) : Prop :=
  Forall (fun v => v = None) slots.


Definition is_diag_call (c : Call) (rc : SQLRETURN) : bool :=
  match c with CGetDiagRec _ _ _ => true | _ => false end.

(** The statuses the adapter does not report: those of the diagnostics
    retrieval itself, the no-more-data of a fetch, and those of the
    allocation of a statement handle. *)
Definition unreported (c : Call) (rc : SQLRETURN) : bool :=
  match c with
  | CGetDiagRec _ _ _ => true
  | CFetch _ => rc =? SQL_NO_DATA
  | CAllocHandle SQL_HANDLE_STMT _ => true
  | _ => false
  end.

(** What SMSDODBC_LogError emits: the error line that opens the
    diagnostics, then the loop over the records of a handle. *)
Definition opens_diagnostics (t : list Event) : Prop :=
  exists message ty h answers rest,
    t = EvLog DEBUG_ERROR "%s, ODBC diagnostics:" [ArgStr message]
        :: diag_loop ty h 1 answers ++ rest.

(** Every call of the trace whose status is a failure, and is not exempt,
    is followed at once by the diagnostics. *)
Fixpoint reported (exempt : Call -> SQLRETURN -> bool) (t : list Event) : Prop :=
  match t with
  | [] => True
  | EvCall c rc :: t' =>
      (SQL_SUCCEEDED rc = false -> exempt c rc = false -> opens_diagnostics t') /\
      reported exempt t'
  | _ :: t' => reported exempt t'
  end.

Definition failed (exempt : Call -> SQLRETURN -> bool) (t : list Event) : Prop :=
  exists c rc, EvCall c rc ∈ t /\ SQL_SUCCEEDED rc = false /\ exempt c rc = false.

(** An operation reports its failures and then returns its sentinel. *)
Definition reports_failures {A} (op : M A) (sentinel : A -> Prop) : Prop :=
  forall w,
    reported unreported (op w).1 /\
    forall t r w', op w = (t, Ret r w') -> failed unreported t -> sentinel r.

(** A computation that calls no API function. *)
Definition quiet {A} (m : M A) : Prop :=
  forall w, Forall (fun e => is_call e = false) (m w).1.

(** What follows a failed call that is reported: the diagnostics, then
    the sentinel. *)
Definition reports_and_fails {A} (m : M A) (sentinel : A -> Prop) : Prop :=
  forall w,
    opens_diagnostics (m w).1 /\
    reported unreported (m w).1 /\
    forall t r w', m w = (t, Ret r w') -> sentinel r.

(** C5 as the specification states it, for one operation: every failure
    status of a call, other than those of the diagnostics retrieval itself,
    is followed by the diagnostics. *)
Definition reports_every_failure {A} (op : M A) : Prop :=
  forall w, reported is_diag_call (op w).1.

(** The value the specification asks of GetDate: the local time of the
    calendar date and time of the timestamp.  [struct tm] counts years
    from 1900 and months from 0. *)
Definition local_time_of (ts : SQL_TIMESTAMP_STRUCT) (l : L) : Z :=
  mktime {| tm_isdst := if HAVE_DAYLIGHT then daylight l else -1;
            tm_year := year ts - 1900;
            tm_mon := month ts - 1;
            tm_mday := day ts;
            tm_hour := hour ts;
            tm_min := minute ts;
            tm_sec := second ts |} l.

(** C6 as the specification states it. *)
Definition GetDate_converts (res : SQL_result) (field : Z) (w : World D L) : Prop :=
  let ans := SQLGetData_TIMESTAMP (odbc res) (column field) (driver w) in
  exists t r w',
    SMSDODBC_GetDate res field w = (t, Ret r w') /\
    (SQL_SUCCEEDED ans.1.1 = true -> r = local_time_of ans.1.2 (tzset (libc w))) /\
    (SQL_SUCCEEDED ans.1.1 = false -> r = -1).

(** An operation that leaves the heap and the return-string array as they
    were. *)
Definition keeps_strings {A} (op : M A) : Prop :=
  forall w t r w',
    op w = (t, Ret r w') ->
    heap w' = heap w /\ retstr (config w') = retstr (config w).

(** What GetString does to one slot and to the heap when it goes as far as
    the allocation: [old] is what the slot held, [new] what it holds
    afterwards. *)
Definition slot_change (old new : option ptr) (h h' : gmap ptr (list Z)) : Prop :=
  match old, new with
  | None, None => h' = h
  | None, Some p => h !! p = None /\ exists c, h' = <[p := c]> h
  | Some q, None => h' = h /\ is_Some (h !! q)
  | Some q, Some p =>
      is_Some (h !! q) /\ (p = q \/ h !! p = None) /\
      exists c, h' = <[p := c]> (delete q h)
  end.

(** A run of GetString either leaves the slots and the heap alone and
    returns null, or replaces the content of the slot of its field. *)
Definition refreshes (field : Z) (r : option ptr) (w w' : World D L) : Prop :=
  (r = None /\ heap w' = heap w /\ retstr (config w') = retstr (config w)) \/
  exists old new,
    0 <= field /\
    retstr (config w) !! Z.to_nat field = Some old /\
    retstr (config w') = <[Z.to_nat field := new]> (retstr (config w)) /\
    slot_change old new (heap w) (heap w') /\
    (r = new \/ r = None).

(** An operation that keeps the slots holding distinct live blocks, and
    keeps their number. *)
Definition keeps_live {A} (op : M A) : Prop :=
  forall w t r w',
    slots_live w -> op w = (t, Ret r w') ->
    slots_live w' /\ length (retstr (config w')) = length (retstr (config w)).

(** The calls of a trace that reach the data source, with their statuses:
    every API call but the retrieval of diagnostic records. *)
Definition api_call (e : Event) : option (Call * SQLRETURN) :=
  match e with
  | EvCall (CGetDiagRec _ _ _) _ => None
  | EvCall c rc => Some (c, rc)
  | _ => None
  end.

Definition api_calls (t : list Event) : list (Call * SQLRETURN) := omap api_call t.



(** A call on the statement handle [stmt] that fetches column [col] or
    retrieves the diagnostics of that handle; events that are not calls
    qualify. *)
Definition addresses (stmt : SQLHANDLE) (col : Z) (e : Event) : Prop :=
  match e with
  | EvCall (CGetData s c _ _ _) _ => s = stmt /\ c = col
  | EvCall (CGetDiagRec ty h _) _ => ty = SQL_HANDLE_STMT /\ h = stmt
  | EvCall _ _ => False
  | _ => True
  end.

(** An operation all of whose calls, however the run ends, are of that
    kind. *)
Definition only_addresses {A} (stmt : SQLHANDLE) (col : Z) (m : M A) : Prop :=
  forall w, Forall (addresses stmt col) (m w).1.

(** C9 as the specification states it, for one operation: when the
    operation completes, every slot of the array is empty. *)
Definition leaves_every_slot_empty {A} (op : M A) (w : World D L) : Prop :=
  forall t r w', op w = (t, Ret r w') -> all_empty (retstr (config w')).

(** ** Properties *)

Ltac cases_in H :=
  repeat (apply elem_of_cons in H as [H | H]; [simplify_eq |]);
  try (apply elem_of_nil in H; contradiction).


Lemma SQL_SUCCEEDED_spec (rc : SQLRETURN) :
  SQL_SUCCEEDED rc = true <-> rc = SQL_SUCCESS \/ rc = SQL_SUCCESS_WITH_INFO.
Proof.
  unfold SQL_SUCCEEDED, SQL_SUCCESS, SQL_SUCCESS_WITH_INFO.
  rewrite Z.eqb_eq. split.
  - intros Hz.
    assert (Hrc : rc = Z.land rc 1).
    { rewrite <- (Z.lor_ldiff_and rc 1) at 1.
      rewrite Z.ldiff_land, Hz. apply Z.lor_0_l. }
    change 1 with (Z.ones 1) in Hrc. rewrite Z.land_ones in Hrc by lia.
    change (2 ^ 1) with 2 in Hrc.
    pose proof (Z.mod_pos_bound rc 2 ltac:(lia)). lia.
  - intros [-> | ->]; reflexivity.
Qed.

Lemma SQL_NO_DATA_not_succeeded : SQL_SUCCEEDED SQL_NO_DATA = false.
Proof. reflexivity. Qed.

Lemma LogError_run (ty : HandleType) (h : SQLHANDLE) (message : string) (w : World D L) :
  SMSDODBC_LogError ty h message w =
  (EvLog DEBUG_ERROR "%s, ODBC diagnostics:" [ArgStr message] ::
   diag_loop ty h 1 (SQLGetDiagRec ty h (driver w)), Ret tt w).
Proof. reflexivity. Qed.

(** No line of the diagnostics loop is logged below error severity. *)
Lemma diag_loop_log_level ty h recno answers e :
  e ∈ diag_loop ty h recno answers -> is_any_log e = true -> is_log DEBUG_ERROR e = true.
Proof.
  revert recno. induction answers as [| r rest IH]; intros recno; simpl.
  - intros ->%list_elem_of_singleton. discriminate.
  - rewrite elem_of_cons, elem_of_app.
    intros [-> | [He | He]]; [discriminate | |].
    + destruct (SQL_SUCCEEDED (diag_ret r)).
      * apply list_elem_of_singleton in He as ->. reflexivity.
      * by apply elem_of_nil in He.
    + destruct (diag_ret r =? SQL_SUCCESS); [eauto | by apply elem_of_nil in He].
Qed.


Lemma error_logged_intro (t1 : list Event) fmt args (t2 : list Event) :
  error_logged (t1 ++ EvLog DEBUG_ERROR fmt args :: t2).
Proof.
  exists (EvLog DEBUG_ERROR fmt args). split; [| reflexivity].
  apply elem_of_app. right. apply list_elem_of_here.
Qed.


(** C7. GetNumber returns the fetched value, which lies in the range of a
    signed 64-bit integer, when the fetch succeeds, and takes the failure
    path, which logs and returns -1, exactly when the fetch fails; so the
    result is -1 both for a failed fetch and for a fetched -1. *)
Theorem GetNumber_value_or_sentinel (res : SQL_result) (field : Z) (w : World D L) :
  let rc := (SQLGetData_SLONG (odbc res) (column field) (driver w)).1.1 in
  let value := sint 32 (SQLGetData_SLONG (odbc res) (column field) (driver w)).1.2 in
  exists t r w',
    SMSDODBC_GetNumber res field w = (t, Ret r w') /\
    - 2 ^ 63 <= r < 2 ^ 63 /\
    (SQL_SUCCEEDED rc = true -> r = value /\ log_of t = []) /\
    (SQL_SUCCEEDED rc = false -> r = -1 /\ error_logged t) /\
    (r = -1 <-> SQL_SUCCEEDED rc = false \/ value = -1).
Proof.
  unfold SMSDODBC_GetNumber, bind, api.
  destruct (SQLGetData_SLONG (odbc res) (column field) (driver w)) as [[rc v] d]. simpl.
  assert (Hrange : - 2 ^ 31 <= sint 32 v < 2 ^ 31).
  { unfold sint. pose proof (Z.mod_pos_bound (v + 2 ^ (32 - 1)) (2 ^ 32) ltac:(lia)). lia. }
  destruct (SQL_SUCCEEDED rc) eqn:Hok; simpl.
  - eexists _, _, _. split; [reflexivity |].
    split; [lia |]. split; [| split; [discriminate |]].
    + intros _. split; reflexivity.
    + split; [auto | intros [? | ?]; congruence].
  - eexists _, _, _. split; [reflexivity |].
    split; [lia |]. split; [discriminate | split].
    + intros _. split; [reflexivity |].
      apply (error_logged_intro [_]).
    + split; auto.
Qed.


(** Inversion of a run that returns. *)
Lemma bind_Ret_inv {A B} (m : M A) (k : A -> M B) w t b w' :
  bind m k w = (t, Ret b w') ->
  exists t1 a w1 t2, m w = (t1, Ret a w1) /\ k a w1 = (t2, Ret b w') /\ t = t1 ++ t2.
Proof.
  unfold bind. destruct (m w) as [t1 [a w1 |]]; [| discriminate].
  destruct (k a w1) as [t2 o] eqn:Hk. intros [= <- ->].
  eauto 10.
Qed.

Lemma load_retstr_inv field w t v w' :
  load_retstr field w = (t, Ret v w') ->
  w' = w /\ retstr (config w) !! Z.to_nat field = Some v.
Proof.
  unfold load_retstr.
  destruct (_ && _); [| discriminate].
  destruct (retstr (config w) !! Z.to_nat field) eqn:E; [| discriminate].
  intros [= _ <- <-]. auto.
Qed.

Lemma read_string_inv p w t s w' :
  read_string p w = (t, Ret s w') -> w' = w /\ deref w p = Some s.
Proof.
  unfold read_string. destruct (deref w p); [| discriminate].
  intros [= _ <- <-]. auto.
Qed.

Lemma SMSD_Log_inv lvl fmt args w t u w' :
  SMSD_Log lvl fmt args w = (t, Ret u w') -> w' = w /\ t = [EvLog lvl fmt args].
Proof. intros [= <- <-]. auto. Qed.

Lemma ret_inv {A} (a : A) w t b w' :
  ret a w = (t, Ret b w') -> b = a /\ w' = w /\ t = [].
Proof. intros [= <- <- <-]. auto. Qed.

Ltac inv_step :=
  match goal with
  | H : bind _ _ _ = (_, Ret _ _) |- _ =>
      apply bind_Ret_inv in H as (? & ? & ? & ? & ? & ? & ?)
  | H : load_retstr _ _ = (_, Ret _ _) |- _ => apply load_retstr_inv in H as [? ?]
  | H : read_string _ _ = (_, Ret _ _) |- _ => apply read_string_inv in H as [? ?]
  | H : SMSD_Log _ _ _ _ = (_, Ret _ _) |- _ => apply SMSD_Log_inv in H as [? ?]
  | H : ret _ _ = (_, Ret _ _) |- _ => apply ret_inv in H as (? & ? & ?)
  | H : (_, Undefined) = (_, Ret _ _) |- _ => discriminate H
  | H : (let '(_, _) := ?x in _) _ = (_, Ret _ _) |- _ => destruct x
  | H : (if ?b then _ else _) _ = (_, Ret _ _) |- _ => destruct b eqn:?
  | H : match ?x with _ => _ end _ = (_, Ret _ _) |- _ => destruct x eqn:?
  end.

(** A pointer GetString returns is the content of its slot and refers to
    a live block. *)
Lemma GetString_returns_slot res field w0 t p w :
  SMSDODBC_GetString res field w0 = (t, Ret (Some p) w) ->
  retstr (config w) !! Z.to_nat field = Some (Some p) /\ is_Some (heap w !! p).
Proof.
  unfold SMSDODBC_GetString. intros H.
  repeat inv_step; subst; try discriminate.
  all: match goal with
       | Hs : retstr ?c !! ?i = Some (Some ?q),
         Hx : retstr ?c !! ?i = Some ?x,
         Hd : deref _ ?x = Some _ |- retstr ?c !! ?i = Some (Some ?q) /\ _ =>
           rewrite Hs in Hx; injection Hx as <-; split; [exact Hs |];
           unfold deref in Hd; simpl in Hd;
           destruct (heap _ !! q); [eauto | discriminate]
       end.
Qed.

(** C1. For a field index beyond SMSD_ODBC_MAX_RETURN_STRINGS, GetString
    returns null and all it does is log the too-many-fields line at error
    severity: it leaves the process as it was and neither reads nor writes
    a slot of the return-string array. *)
Theorem GetString_too_many_fields (res : SQL_result) (field : Z) (w : World D L) :
  SMSD_ODBC_MAX_RETURN_STRINGS < field ->
  exists t,
    SMSDODBC_GetString res field w = (t, Ret None w) /\
    t = [EvLog DEBUG_ERROR "Field %d returning NULL, too many fields!" [ArgInt field]] /\
    Forall (fun e => is_slot_access e = false) t.
Proof.
  intros Hbeyond. unfold SMSDODBC_GetString.
  replace (field >? SMSD_ODBC_MAX_RETURN_STRINGS) with true by (symmetry; lia).
  eexists. split; [reflexivity |]. split; [reflexivity |].
  repeat constructor.
Qed.

(** C10. FreeResult only hands the statement handle of the result to the
    driver: the configuration, with every slot of the return-string array,
    the heap and the C library are as before.  A pointer that GetString
    returned is therefore still the content of its slot and still refers
    to the same live string after FreeResult. *)
Theorem FreeResult_keeps_returned_strings
    (res res' : SQL_result) (field : Z) (w0 w : World D L) (t0 : list Event) (p : ptr) :
  SMSDODBC_GetString res field w0 = (t0, Ret (Some p) w) ->
  exists rc w',
    SMSDODBC_FreeResult res' w =
      ([EvCall (CFreeHandle SQL_HANDLE_STMT (odbc res')) rc], Ret tt w') /\
    config w' = config w /\ heap w' = heap w /\ libc w' = libc w /\
    retstr (config w') !! Z.to_nat field = Some (Some p) /\
    is_Some (heap w' !! p) /\
    deref w' (Some p) = deref w (Some p).
Proof.
  intros Hget. apply GetString_returns_slot in Hget as [Hslot Hlive].
  unfold SMSDODBC_FreeResult, bind, api.
  destruct (SQLFreeHandle SQL_HANDLE_STMT (odbc res') (driver w)) as [[rc u] d].
  exists rc, (with_driver w d). simpl.
  repeat split; assumption.
Qed.

(** C8. SeqID always returns, does not depend on its hint argument, and
    its run is fixed by the statuses the driver gives.  It allocates a
    statement handle; if that succeeds it executes the fixed identity
    query on the handle, whatever the hint; if that succeeds it fetches;
    if that succeeds it retrieves column 1 as a signed 32-bit integer;
    and once the allocation has succeeded its last call, on every path,
    is the one release of the statement handle.  It makes no other call
    and emits nothing else.  The result is the retrieved value when all
    four steps succeeded and 0 as soon as one of them fails. *)
Theorem SeqID_fixed_query_zero_on_failure (id : string) (w : World D L) :
  let alloc := SQLAllocHandle SQL_HANDLE_STMT (dbc (config w)) (driver w) in
  let stmt := alloc.1.2 in
  let exec := SQLExecDirect stmt "SELECT @@IDENTITY" alloc.2 in
  let fetch := SQLFetch stmt exec.2 in
  let data := SQLGetData_SLONG stmt 1 fetch.2 in
  exists t r w',
    SMSDODBC_SeqID id w = (t, Ret r w') /\
    (forall id', SMSDODBC_SeqID id' w = (t, Ret r w')) /\
    (exists released,
       t = EvCall (CAllocHandle SQL_HANDLE_STMT (dbc (config w))) alloc.1.1 ::
           if SQL_SUCCEEDED alloc.1.1 then
             EvCall (CExecDirect stmt "SELECT @@IDENTITY") exec.1.1 ::
             (if SQL_SUCCEEDED exec.1.1 then
                EvCall (CFetch stmt) fetch.1.1 ::
                (if SQL_SUCCEEDED fetch.1.1 then
                   [EvCall (CGetData stmt 1 SQL_C_SLONG true 0) data.1.1]
                 else [])
              else []) ++
             [EvCall (CFreeHandle SQL_HANDLE_STMT stmt) released]
           else []) /\
    r = (if SQL_SUCCEEDED alloc.1.1 && SQL_SUCCEEDED exec.1.1 &&
            SQL_SUCCEEDED fetch.1.1 && SQL_SUCCEEDED data.1.1
         then uint64 (sint 32 data.1.2) else 0) /\
    (forall h text rc,
       EvCall (CExecDirect h text) rc ∈ t -> text = "SELECT @@IDENTITY"%string) /\
    (forall c rc,
       EvCall c rc ∈ t -> is_step c = true -> SQL_SUCCEEDED rc = false -> r = 0) /\
    (if SQL_SUCCEEDED alloc.1.1 then freed_last stmt t
     else t = [EvCall (CAllocHandle SQL_HANDLE_STMT (dbc (config w))) alloc.1.1]).
Proof.
  unfold SMSDODBC_SeqID, bind, api, get_config. simpl.
  destruct (SQLAllocHandle SQL_HANDLE_STMT (dbc (config w)) (driver w))
    as [[rc0 stmt] d0]. simpl.
  destruct (SQL_SUCCEEDED rc0) eqn:Hok0; simpl.
  2: { eexists _, _, _. split; [reflexivity |]. split; [reflexivity |].
       split; [exists SQL_SUCCESS; reflexivity |]. split; [reflexivity |].
       split; [| split; [| reflexivity]].
       - intros ? ? ? Hin. cases_in Hin.
       - reflexivity. }
  destruct (SQLExecDirect stmt "SELECT @@IDENTITY" d0) as [[rc1 u1] d1]. simpl.
  destruct (SQL_SUCCEEDED rc1) eqn:Hok1; simpl.
  2: { destruct (SQLFreeHandle SQL_HANDLE_STMT stmt d1) as [[rcf uf] df]. simpl.
       eexists _, _, _. split; [reflexivity |]. split; [reflexivity |].
       split; [exists rcf; reflexivity |]. split; [reflexivity |].
       split; [| split].
       - intros ? ? ? Hin. cases_in Hin. reflexivity.
       - reflexivity.
       - exists [EvCall (CAllocHandle SQL_HANDLE_STMT (dbc (config w))) rc0;
                 EvCall (CExecDirect stmt "SELECT @@IDENTITY") rc1], rcf.
         split; [reflexivity | repeat constructor]. }
  destruct (SQLFetch stmt d1) as [[rc2 u2] d2]. simpl.
  destruct (SQL_SUCCEEDED rc2) eqn:Hok2; simpl.
  2: { destruct (SQLFreeHandle SQL_HANDLE_STMT stmt d2) as [[rcf uf] df]. simpl.
       eexists _, _, _. split; [reflexivity |]. split; [reflexivity |].
       split; [exists rcf; reflexivity |]. split; [reflexivity |].
       split; [| split].
       - intros ? ? ? Hin. cases_in Hin. reflexivity.
       - reflexivity.
       - exists [EvCall (CAllocHandle SQL_HANDLE_STMT (dbc (config w))) rc0;
                 EvCall (CExecDirect stmt "SELECT @@IDENTITY") rc1;
                 EvCall (CFetch stmt) rc2], rcf.
         split; [reflexivity | repeat constructor]. }
  destruct (SQLGetData_SLONG stmt 1 d2) as [[rc3 value] d3]. simpl.
  destruct (SQL_SUCCEEDED rc3) eqn:Hok3; simpl.
  all: destruct (SQLFreeHandle SQL_HANDLE_STMT stmt d3) as [[rcf uf] df]; simpl.
  all: eexists _, _, _; (split; [reflexivity |]); (split; [reflexivity |]);
       (split; [exists rcf; reflexivity |]); (split; [reflexivity |]);
       (split; [| split]).
  all: try (intros ? ? ? Hin; cases_in Hin; reflexivity).
  all: try (exists [EvCall (CAllocHandle SQL_HANDLE_STMT (dbc (config w))) rc0;
                    EvCall (CExecDirect stmt "SELECT @@IDENTITY") rc1;
                    EvCall (CFetch stmt) rc2;
                    EvCall (CGetData stmt 1 SQL_C_SLONG true 0) rc3], rcf;
            split; [reflexivity | repeat constructor]).
  intros c rc Hin Hstep Hfail. cases_in Hin; simpl in *; congruence.
Qed.

(** C3, amended. GetBool returns true iff the number is not zero whenever
    GetNumber returns a number other than -1, and then fetches no string;
    it falls back to the string and the boolean parser exactly when
    GetNumber returns -1, which is the case when the numeric fetch fails
    and also when it succeeds with the value -1. *)
Theorem GetBool_by_sentinel (res : SQL_result) (field : Z) (w : World D L) :
  let ans := SQLGetData_SLONG (odbc res) (column field) (driver w) in
  exists t1 n w1,
    SMSDODBC_GetNumber res field w = (t1, Ret n w1) /\
    (n = -1 <-> SQL_SUCCEEDED ans.1.1 = false \/ sint 32 ans.1.2 = -1) /\
    (n <> -1 ->
       n = sint 32 ans.1.2 /\
       SMSDODBC_GetBool res field w = (t1, Ret (if n =? 0 then FALSE else TRUE) w1) /\
       Forall (fun e => is_string_fetch e = false) t1) /\
    (n = -1 ->
       SMSDODBC_GetBool res field w =
       let (t2, o) := SMSDODBC_GetString res field w1 in
       (t1 ++ t2,
        match o with
        | Ret charval w2 => Ret (GSM_StringToBool (deref w2 charval)) w2
        | Undefined => Undefined
        end)).
Proof.
  unfold SMSDODBC_GetBool, bind.
  unfold SMSDODBC_GetNumber, bind, api.
  destruct (SQLGetData_SLONG (odbc res) (column field) (driver w)) as [[rc v] d]. simpl.
  destruct (SQL_SUCCEEDED rc) eqn:Hok; simpl.
  - eexists _, _, _. split; [reflexivity |].
    split; [split; [auto | intros [? | ?]; congruence] |].
    split.
    + intros Hn. apply Z.eqb_neq in Hn. rewrite Hn. simpl.
      split; [reflexivity |]. split; [reflexivity |]. repeat constructor.
    + intros Hn. rewrite Hn. simpl.
      destruct (SMSDODBC_GetString res field (with_driver w d)) as [t2 [c w2 |]];
        simpl; rewrite ?app_nil_r; reflexivity.
  - eexists _, _, _. split; [reflexivity |].
    split; [split; auto |].
    split; [intros Hn; contradiction |].
    intros _. simpl.
    destruct (SMSDODBC_GetString res field (with_driver w d)) as [t2 [c w2 |]];
      simpl; rewrite ?app_nil_r; reflexivity.
Qed.

Lemma collapse_escape (s : list Z) : collapse (escape s) = s.
Proof.
  induction s as [| c r IH]; [reflexivity |].
  simpl. destruct ((c =? dquote) || (c =? backslash)) eqn:Hsp; simpl.
  - rewrite IH. reflexivity.
  - apply orb_false_iff in Hsp as [_ Hb]. rewrite Hb, IH. reflexivity.
Qed.

Lemma unescape_quoted (s : list Z) : unescape (quoted s) = Some s.
Proof.
  unfold unescape, quoted, strip_quotes.
  rewrite reverse_app. simpl.
  rewrite reverse_involutive, collapse_escape. reflexivity.
Qed.

Lemma strlen_c_str (b : list Z) (len : nat) :
  strlen b = Some len ->
  len = length (c_str b) /\ exists rest, b = c_str b ++ 0 :: rest.
Proof.
  revert len. induction b as [| c r IH]; intros len; simpl; [discriminate |].
  destruct (c =? 0) eqn:Hc.
  - intros [= <-]. apply Z.eqb_eq in Hc as ->. split; [reflexivity |]. by exists r.
  - destruct (strlen r) as [n |]; [| discriminate].
    intros [= <-]. destruct (IH n eq_refl) as [-> [rest Hrest]].
    split; [reflexivity |]. exists rest. simpl. congruence.
Qed.

Lemma c_str_no_nul (b : list Z) : Forall (fun c => c <> 0) (c_str b).
Proof.
  induction b as [| c r IH]; simpl; [constructor |].
  destruct (c =? 0) eqn:Hc; [constructor |].
  apply Z.eqb_neq in Hc. by constructor.
Qed.

Lemma escape_no_nul (s : list Z) :
  Forall (fun c => c <> 0) s -> Forall (fun c => c <> 0) (escape s).
Proof.
  induction 1 as [| c r Hc Hr IH]; simpl; [constructor |].
  destruct ((c =? dquote) || (c =? backslash)); simpl.
  - constructor; [unfold backslash; lia |]. by constructor.
  - by constructor.
Qed.

Lemma c_str_app_nul (s rest : list Z) :
  Forall (fun c => c <> 0) s -> c_str (s ++ 0 :: rest) = s.
Proof.
  induction 1 as [| c r Hc Hr IH]; simpl; [reflexivity |].
  apply Z.eqb_neq in Hc. rewrite Hc, IH. reflexivity.
Qed.

Lemma poke_app (done tail : list Z) (x c : Z) :
  poke (done ++ x :: tail) (length done) c = Some (done ++ c :: tail).
Proof.
  unfold poke. rewrite decide_True by (rewrite length_app; simpl; lia).
  f_equal. replace (length done) with (length done + 0)%nat by lia.
  rewrite insert_app_r. reflexivity.
Qed.

Lemma quote_loop_spec (string rest : list Z) :
  forall (i : nat) (done pad tail : list Z),
    (forall j c, rest !! j = Some c -> string !! (i + j)%nat = Some c) ->
    length pad = length (escape rest) ->
    quote_loop (length rest) i (length done) string (done ++ pad ++ tail) =
    Some ((length done + length pad)%nat, done ++ escape rest ++ tail).
Proof.
  induction rest as [| c r IH]; intros i done pad tail Hread Hpad; simpl in *.
  - destruct pad; [| discriminate]. simpl. f_equal. f_equal. lia.
  - pose proof (Hread 0%nat c eq_refl) as H0. rewrite Nat.add_0_r in H0.
    rewrite H0. simpl.
    assert (Hnext : forall j c', r !! j = Some c' -> string !! (S i + j)%nat = Some c').
    { intros j c' Hj. specialize (Hread (S j) c' Hj).
      by replace (S i + j)%nat with (i + S j)%nat by lia. }
    destruct ((c =? dquote) || (c =? backslash)); simpl in *.
    + destruct pad as [| x [| y pad]]; simpl in Hpad; try lia.
      simpl. rewrite poke_app. simpl.
      replace (done ++ backslash :: y :: pad ++ tail)
        with ((done ++ [backslash]) ++ y :: pad ++ tail) by (by rewrite <- app_assoc).
      replace (S (length done)) with (length (done ++ [backslash]))
        by (rewrite length_app; simpl; lia).
      rewrite poke_app. simpl.
      replace ((done ++ [backslash]) ++ c :: pad ++ tail)
        with ((done ++ [backslash; c]) ++ pad ++ tail)
        by (rewrite <- !app_assoc; reflexivity).
      replace (S (length (done ++ [backslash]))) with (length (done ++ [backslash; c]))
        by (rewrite !length_app; simpl; lia).
      rewrite (IH (S i) (done ++ [backslash; c]) pad tail Hnext) by lia.
      rewrite <- !app_assoc. simpl. f_equal. f_equal.
      rewrite length_app. simpl. lia.
    + destruct pad as [| x pad]; simpl in Hpad; try lia.
      simpl. rewrite poke_app. simpl.
      replace (done ++ c :: pad ++ tail) with ((done ++ [c]) ++ pad ++ tail)
        by (rewrite <- !app_assoc; reflexivity).
      replace (S (length done)) with (length (done ++ [c]))
        by (rewrite length_app; simpl; lia).
      rewrite (IH (S i) (done ++ [c]) pad tail Hnext) by lia.
      rewrite <- !app_assoc. simpl. f_equal. f_equal.
      rewrite length_app. simpl. lia.
Qed.

Lemma escape_length (s : list Z) : (length (escape s) <= 2 * length s)%nat.
Proof.
  induction s as [| c r IH]; simpl; [lia |].
  destruct ((c =? dquote) || (c =? backslash)); simpl; lia.
Qed.

Lemma quote_fill_spec (string buf : list Z) (len : nat) :
  strlen string = Some len ->
  (2 * len + 3 <= length buf)%nat ->
  exists buf' tail,
    quote_fill len string buf = Some buf' /\
    buf' = quoted (c_str string) ++ 0 :: tail /\
    length buf' = length buf.
Proof.
  intros Hlen Hsize.
  apply strlen_c_str in Hlen as [-> [rest Hstring]].
  set (s := c_str string) in *.
  pose proof (escape_length s) as Hesc.
  set (k := length (escape s)) in *.
  assert (Hsplit : exists b0 pad b1 b2 tail,
             buf = [b0] ++ pad ++ b1 :: b2 :: tail /\ length pad = k).
  { destruct buf as [| b0 buf]; simpl in Hsize; [lia |].
    exists b0, (take k buf).
    destruct (drop k buf) as [| b1 [| b2 tail]] eqn:Hdrop.
    1,2: apply (f_equal length) in Hdrop; rewrite length_drop in Hdrop; simpl in Hdrop; lia.
    exists b1, b2, tail. split.
    - simpl. f_equal. rewrite <- Hdrop. symmetry. apply take_drop.
    - rewrite length_take. lia. }
  destruct Hsplit as (b0 & pad & b1 & b2 & tail & -> & Hpad).
  exists (quoted s ++ 0 :: tail), tail.
  split; [| split; [reflexivity |]].
  - unfold quote_fill.
    change ([b0] ++ pad ++ b1 :: b2 :: tail) with ([] ++ b0 :: pad ++ b1 :: b2 :: tail).
    change 0%nat with (length (@nil Z)) at 1.
    rewrite poke_app. simpl.
    change (dquote :: pad ++ b1 :: b2 :: tail) with ([dquote] ++ pad ++ b1 :: b2 :: tail).
    change 1%nat with (length [dquote]).
    rewrite (quote_loop_spec string s 0 [dquote] pad (b1 :: b2 :: tail)).
    + simpl.
      replace (dquote :: escape s ++ b1 :: b2 :: tail)
        with ((dquote :: escape s) ++ b1 :: b2 :: tail) by reflexivity.
      replace (S (length pad)) with (length (dquote :: escape s)) by (simpl; lia).
      rewrite poke_app. simpl.
      replace (dquote :: escape s ++ dquote :: b2 :: tail)
        with ((dquote :: escape s ++ [dquote]) ++ b2 :: tail)
        by (simpl; rewrite <- app_assoc; reflexivity).
      replace (S (S (length (escape s)))) with (length (dquote :: escape s ++ [dquote]))
        by (simpl; rewrite length_app; simpl; lia).
      rewrite poke_app. reflexivity.
    + intros j c Hj. simpl. rewrite Hstring. by apply lookup_app_l_Some.
    + exact Hpad.
  - unfold quoted. simpl. rewrite !length_app. simpl. lia.
Qed.

Lemma block_length (n : nat) (init : list Z) : length (block n init) = n.
Proof.
  unfold block. rewrite length_take, length_app, length_replicate. lia.
Qed.

(** C4. For every NUL-terminated input, once the allocation has
    succeeded, QuoteString returns a block that was not allocated before
    and leaves every other block alone; the string in it is the input
    wrapped in double quotes with a backslash before every double quote
    and backslash of the input; and unescaping that string gives the input
    back. *)
Theorem QuoteString_roundtrip
    (string : list Z) (len : nat) (w : World D L) (init : list Z) (l' : L) :
  strlen string = Some len ->
  Z.of_nat len * 2 + 3 < 2 ^ 64 ->
  malloc (uint64 (Z.of_nat len * 2 + 3)) (libc w) = (Some init, l') ->
  exists t p w',
    SMSDODBC_QuoteString string w = (t, Ret p w') /\
    t = [EvMalloc (Z.of_nat len * 2 + 3) (Some p)] /\
    heap w !! p = None /\
    (forall q, q <> p -> heap w' !! q = heap w !! q) /\
    deref w' (Some p) = Some (quoted (c_str string)) /\
    unescape (quoted (c_str string)) = Some (c_str string).
Proof.
  intros Hlen Hfit Hmalloc.
  unfold SMSDODBC_QuoteString. rewrite Hlen.
  unfold bind, do_malloc. rewrite Hmalloc. simpl.
  rewrite lookup_insert_eq. simpl.
  assert (Hsize : uint64 (Z.of_nat len * 2 + 3) = Z.of_nat (2 * len + 3)).
  { unfold uint64. rewrite Z.mod_small by lia. lia. }
  destruct (quote_fill_spec string
              (block (Z.to_nat (uint64 (Z.of_nat len * 2 + 3))) init) len Hlen)
    as (buf' & tail & Hfill & Hbuf & _).
  { rewrite block_length, Hsize. lia. }
  rewrite Hfill.
  eexists _, _, _. split; [reflexivity |].
  split; [by rewrite Hsize, Z.mul_comm, Nat2Z.inj_add, Nat2Z.inj_mul |].
  split; [| split; [| split]].
  - apply not_elem_of_dom, is_fresh.
  - intros q Hq. simpl. rewrite !lookup_insert_ne by congruence. reflexivity.
  - unfold deref. simpl. rewrite lookup_insert_eq. simpl. f_equal.
    rewrite Hbuf. apply c_str_app_nul.
    unfold quoted. constructor; [unfold dquote; lia |].
    apply Forall_app. split.
    + apply escape_no_nul, c_str_no_nul.
    + repeat constructor. unfold dquote. lia.
  - apply unescape_quoted.
Qed.

Lemma in_range (done rest : list (option ptr)) (x : option ptr) :
  (0 <=? Z.of_nat (length done)) &&
  (Z.of_nat (length done) <? Z.of_nat (length (done ++ x :: rest))) = true.
Proof.
  rewrite length_app. simpl. apply andb_true_iff.
  split; [apply Z.leb_le | apply Z.ltb_lt]; lia.
Qed.

Lemma store_retstr_run (done rest : list (option ptr)) (x v : option ptr) (w : World D L) :
  retstr (config w) = done ++ x :: rest ->
  store_retstr (Z.of_nat (length done)) v w =
  ([EvStore (Z.of_nat (length done)) v],
   Ret tt (with_config w (set_retstr (config w) (done ++ v :: rest)))).
Proof.
  intros Hslots. unfold store_retstr. rewrite Hslots, in_range, Nat2Z.id.
  replace (length done) with (length done + 0)%nat at 2 by lia.
  rewrite insert_app_r. reflexivity.
Qed.

Lemma load_retstr_run (done rest : list (option ptr)) (x : option ptr) (w : World D L) :
  retstr (config w) = done ++ x :: rest ->
  load_retstr (Z.of_nat (length done)) w = ([EvLoad (Z.of_nat (length done))], Ret x w).
Proof.
  intros Hslots. unfold load_retstr. rewrite Hslots, in_range, Nat2Z.id.
  rewrite lookup_app_r by lia. rewrite Nat.sub_diag. reflexivity.
Qed.

Lemma init_loop_run (rest : list (option ptr)) :
  forall (done : list (option ptr)) (w : World D L),
    retstr (config w) = done ++ rest ->
    for_loop (length rest) (Z.of_nat (length done))
      (fun field => store_retstr field None) w =
    ((fun i => EvStore (Z.of_nat i) None) <$> seq (length done) (length rest),
     Ret tt (with_config w
               (set_retstr (config w) (done ++ replicate (length rest) None)))).
Proof.
  induction rest as [| x r IH]; intros done w Hslots; simpl.
  - unfold ret. rewrite <- Hslots. by destruct w as [? ? ? []].
  - unfold bind. rewrite (store_retstr_run done r x None w Hslots).
    replace (Z.of_nat (length done) + 1) with (Z.of_nat (length (done ++ [None])))
      by (rewrite length_app; simpl; lia).
    rewrite IH by (simpl; by rewrite <- app_assoc).
    simpl. rewrite <- app_assoc. simpl.
    replace (length (done ++ [None])) with (S (length done))
      by (rewrite length_app; simpl; lia).
    reflexivity.
Qed.

Lemma all_empty_replicate (n : nat) : all_empty (replicate n None).
Proof. apply Forall_replicate. reflexivity. Qed.

Lemma diag_loop_no_slot_access ty h recno answers :
  Forall (fun e => is_slot_access e = false) (diag_loop ty h recno answers).
Proof.
  revert recno. induction answers as [| r rest IH]; intros recno; simpl.
  - repeat constructor.
  - constructor; [reflexivity |]. apply Forall_app. split.
    + destruct (SQL_SUCCEEDED (diag_ret r)); repeat constructor.
    + destruct (diag_ret r =? SQL_SUCCESS); [apply IH | constructor].
Qed.

Ltac forward :=
  repeat (simpl;
    match goal with
    | |- context [match ?x with _ => _ end] =>
        match type of x with
        | (_ * _ * D)%type => destruct x as [[? ?] ?]
        end
    | |- context [if negb (SQL_SUCCEEDED ?r) then _ else _] =>
        destruct (SQL_SUCCEEDED r) eqn:?
    | |- context [if SQL_SUCCEEDED ?r then _ else _] =>
        destruct (SQL_SUCCEEDED r) eqn:?
    end).

Lemma Connect_empties_slots (w : World D L) :
  length (retstr (config w)) = Z.to_nat SMSD_ODBC_MAX_RETURN_STRINGS ->
  exists t r w',
    SMSDODBC_Connect w =
      (((fun i => EvStore (Z.of_nat i) None) <$> seq 0 (length (retstr (config w)))) ++ t,
       Ret r w') /\
    Forall (fun e => is_slot_access e = false) t /\
    retstr (config w') = replicate (length (retstr (config w))) None.
Proof.
  intros Hlen. unfold SMSDODBC_Connect.
  rewrite <- Hlen. unfold bind at 1.
  change 0 with (Z.of_nat (length (@nil (option ptr)))).
  rewrite (init_loop_run (retstr (config w)) [] w eq_refl). simpl.
  unfold bind, api, put_env, put_dbc, get_config, SMSDODBC_LogError, SMSD_Log, emit, ret.
  forward.
  all: eexists _, _, _; (split; [reflexivity |]); (split; [| reflexivity]).
  all: repeat first [ apply Forall_nil_2 | apply Forall_cons; split; [reflexivity |]
                    | apply Forall_app; split | apply diag_loop_no_slot_access ].
Qed.

Lemma free_loop_run (rest : list (option ptr)) :
  forall (done : list (option ptr)) (w : World D L),
    retstr (config w) = done ++ rest ->
    NoDup (omap id rest) ->
    (forall p, Some p ∈ rest -> is_Some (heap w !! p)) ->
    exists t w',
      for_loop (length rest) (Z.of_nat (length done)) free_slot w = (t, Ret tt w') /\
      retstr (config w') = done ++ replicate (length rest) None /\
      (forall p, Some p ∈ rest -> heap w' !! p = None /\ EvFree p ∈ t) /\
      (forall p, Some p ∉ rest -> heap w' !! p = heap w !! p) /\
      Forall (fun e => is_call e = false) t.
Proof.
  induction rest as [| x r IH]; intros done w Hslots Hdup Hlive.
  - exists [], w. simpl. rewrite app_nil_r in *.
    split; [reflexivity |]. split; [assumption |].
    split; [| split; [reflexivity | constructor]].
    intros p Hp. by apply elem_of_nil in Hp.
  - simpl. unfold bind at 1. unfold free_slot at 1. unfold bind at 1.
    rewrite (load_retstr_run done r x w Hslots).
    destruct x as [q |].
    + unfold bind at 1. rewrite (load_retstr_run done r (Some q) w Hslots).
      unfold bind at 1. unfold do_free at 1.
      destruct (Hlive q) as [content Hq]; [apply list_elem_of_here |].
      rewrite Hq.
      set (w1 := with_heap w (delete q (heap w))).
      rewrite (store_retstr_run done r (Some q) None w1 Hslots).
      simpl in Hdup. apply NoDup_cons in Hdup as [Hfresh Hdup].
      set (w2 := with_config w1 (set_retstr (config w1) (done ++ None :: r))).
      assert (Hne : forall p, Some p ∈ r -> p <> q).
      { intros p Hp ->. apply Hfresh. apply list_elem_of_omap. by exists (Some q). }
      destruct (IH (done ++ [None]) w2) as (t' & w' & Hrun & Hret & Hfreed & Hkept & Hcalls).
      { simpl. by rewrite <- app_assoc. }
      { assumption. }
      { intros p Hp. simpl. rewrite lookup_delete_ne by (specialize (Hne p Hp); congruence).
        apply Hlive. by apply elem_of_cons; right. }
      replace (Z.of_nat (length (done ++ [None]))) with (Z.of_nat (length done) + 1) in Hrun
        by (rewrite length_app; simpl; lia).
      rewrite Hrun. simpl.
      eexists _, w'. split; [reflexivity |].
      split; [by rewrite Hret, <- app_assoc |].
      split; [| split].
      * intros p Hp. apply elem_of_cons in Hp as [[= ->] | Hp].
        -- split.
           ++ rewrite Hkept.
              ** simpl. apply lookup_delete_eq.
              ** intros Hin. apply Hfresh. apply list_elem_of_omap. by exists (Some q).
           ++ rewrite !elem_of_cons. auto.
        -- destruct (Hfreed p Hp) as [Hnone Hev]. split; [assumption |].
           rewrite !elem_of_cons. auto.
      * intros p Hp. apply not_elem_of_cons in Hp as [Hpq Hp].
        rewrite (Hkept p Hp). simpl. apply lookup_delete_ne. congruence.
      * repeat (constructor; [reflexivity |]). exact Hcalls.
    + unfold ret at 1.
      simpl in Hdup.
      destruct (IH (done ++ [None]) w) as (t' & w' & Hrun & Hret & Hfreed & Hkept & Hcalls).
      { by rewrite <- app_assoc. }
      { assumption. }
      { intros p Hp. apply Hlive. by apply elem_of_cons; right. }
      replace (Z.of_nat (length (done ++ [None]))) with (Z.of_nat (length done) + 1) in Hrun
        by (rewrite length_app; simpl; lia).
      rewrite Hrun. simpl.
      eexists _, w'. split; [reflexivity |].
      split; [by rewrite Hret, <- app_assoc |].
      split; [| split].
      * intros p Hp. apply elem_of_cons in Hp as [[=] | Hp].
        destruct (Hfreed p Hp) as [Hnone Hev]. split; [assumption |].
        rewrite !elem_of_cons. auto.
      * intros p Hp. apply not_elem_of_cons in Hp as [Hpq Hp]. apply (Hkept p Hp).
      * repeat (constructor; [reflexivity |]). exact Hcalls.
Qed.

Lemma reported_cons_exempt exempt c rc t :
  exempt c rc = true -> reported exempt (EvCall c rc :: t) <-> reported exempt t.
Proof.
  intros Hex. simpl. split; [tauto |].
  intros Ht. split; [congruence | assumption].
Qed.

Lemma reported_diag_loop ty h recno answers rest :
  reported unreported (diag_loop ty h recno answers ++ rest) <-> reported unreported rest.
Proof.
  revert recno. induction answers as [| r more IH]; intros recno.
  - simpl app. by rewrite reported_cons_exempt.
  - simpl diag_loop. rewrite <- app_comm_cons, reported_cons_exempt by reflexivity.
    rewrite <- app_assoc.
    destruct (SQL_SUCCEEDED (diag_ret r)), (diag_ret r =? SQL_SUCCESS); simpl;
      first [apply IH | reflexivity].
Qed.

Lemma not_failed_diag_loop ty h recno answers c rc :
  EvCall c rc ∈ diag_loop ty h recno answers -> unreported c rc = true.
Proof.
  revert recno. induction answers as [| r more IH]; intros recno; simpl.
  - intros Hin. apply list_elem_of_singleton in Hin. by simplify_eq.
  - rewrite elem_of_cons, elem_of_app. intros [Hin | [Hin | Hin]].
    + by simplify_eq.
    + destruct (SQL_SUCCEEDED (diag_ret r)); [| by apply elem_of_nil in Hin].
      apply list_elem_of_singleton in Hin. discriminate.
    + destruct (diag_ret r =? SQL_SUCCESS); [eauto | by apply elem_of_nil in Hin].
Qed.

Lemma opens_diagnostics_intro message ty h answers rest :
  opens_diagnostics
    (EvLog DEBUG_ERROR "%s, ODBC diagnostics:" [ArgStr message]
     :: diag_loop ty h 1 answers ++ rest).
Proof. by exists message, ty, h, answers, rest. Qed.

Ltac unfold_ops :=
  unfold bind, api, put_env, put_dbc, get_config, SMSDODBC_LogError, SMSD_Log, emit, ret.

(** Closes [reported] on the trace of a run whose statuses are known. *)
Ltac solve_reported :=
  repeat first
    [ progress simpl
    | rewrite <- app_assoc
    | apply reported_diag_loop
    | match goal with
      | |- _ /\ _ => split
      | |- True => exact I
      | |- _ -> _ -> opens_diagnostics _ =>
          intros ? ?; first [ congruence | apply opens_diagnostics_intro ]
      end ].

Ltac solve_sentinel :=
  let Hrun := fresh "Hrun" in
  let Hin := fresh "Hin" in
  intros ? ? ? Hrun (? & ? & Hin & ? & ?);
  injection Hrun as <- <- <-;
  first [ reflexivity
        | exfalso; simpl in Hin; cases_in Hin; simpl in *; congruence ].

Lemma GetNumber_reports res field :
  reports_failures (SMSDODBC_GetNumber res field) (fun r => r = -1).
Proof.
  intros w. unfold SMSDODBC_GetNumber. unfold_ops. forward.
  all: split; [solve_reported | solve_sentinel].
Qed.

Lemma GetDate_reports res field :
  reports_failures (SMSDODBC_GetDate res field) (fun r => r = -1).
Proof.
  intros w. unfold SMSDODBC_GetDate. unfold_ops. forward.
  all: split; [solve_reported | solve_sentinel].
Qed.

Lemma AffectedRows_reports res :
  reports_failures (SMSDODBC_AffectedRows res) (fun r => r = 0).
Proof.
  intros w. unfold SMSDODBC_AffectedRows. unfold_ops. forward.
  all: split; [solve_reported | solve_sentinel].
Qed.

Lemma NextRow_reports res :
  reports_failures (SMSDODBC_NextRow res) (fun r => r = 0).
Proof.
  intros w. unfold SMSDODBC_NextRow. unfold_ops. forward.
  2: destruct (s =? SQL_NO_DATA) eqn:Hnd; simpl.
  all: split; [solve_reported | solve_sentinel].
Qed.

Lemma Query_reports query :
  reports_failures (SMSDODBC_Query query) (fun r => r.1 = SQL_FAIL).
Proof.
  intros w. unfold SMSDODBC_Query. unfold_ops. forward.
  all: split; [solve_reported | solve_sentinel].
Qed.

Lemma init_loop_quiet n : forall k w,
  Forall (fun e => is_call e = false)
    (for_loop n k (fun field => store_retstr field None) w).1.
Proof.
  induction n as [| n IH]; intros k w; simpl; [constructor |].
  unfold bind, store_retstr.
  destruct (_ && _); simpl; [| repeat constructor].
  specialize (IH (k + 1)
    (with_config w (set_retstr (config w) (<[Z.to_nat k:=None]> (retstr (config w)))))).
  destruct (for_loop n (k + 1) _ _) as [t o]. simpl in *.
  by constructor.
Qed.

Lemma reported_app_quiet exempt t1 t2 :
  Forall (fun e => is_call e = false) t1 ->
  reported exempt (t1 ++ t2) <-> reported exempt t2.
Proof.
  induction 1 as [| e t1 He Ht1 IH]; simpl; [reflexivity |].
  destruct e; try discriminate; exact IH.
Qed.

Lemma failed_app_quiet exempt t1 t2 :
  Forall (fun e => is_call e = false) t1 -> failed exempt (t1 ++ t2) -> failed exempt t2.
Proof.
  intros Hquiet (c & rc & Hin & Hfail & Hex).
  exists c, rc. split; [| by split].
  apply elem_of_app in Hin as [Hin | Hin]; [| assumption].
  rewrite Forall_forall in Hquiet. by specialize (Hquiet _ Hin).
Qed.

Lemma reports_failures_after_quiet {A B} (m : M A) (k : A -> M B) sentinel :
  quiet m ->
  (forall a, reports_failures (k a) sentinel) ->
  reports_failures (bind m k) sentinel.
Proof.
  intros Hquiet Hk w. unfold bind. specialize (Hquiet w).
  destruct (m w) as [t1 [a w1 |]]; simpl in Hquiet.
  - destruct (Hk a w1) as [Hrep Hsent].
    destruct (k a w1) as [t2 o]. simpl in *. split.
    + by apply reported_app_quiet.
    + intros t r w' [= <- ->] Hfailed.
      apply (Hsent t2 r w' eq_refl). by apply failed_app_quiet in Hfailed.
  - simpl. split; [| discriminate].
    rewrite <- (app_nil_r t1). by apply reported_app_quiet.
Qed.

Lemma Connect_reports :
  reports_failures SMSDODBC_Connect (fun r => r = SQL_FAIL).
Proof.
  unfold SMSDODBC_Connect.
  apply reports_failures_after_quiet; [intros w; apply init_loop_quiet |].
  intros _ w. unfold_ops. forward.
  all: split; [solve_reported | solve_sentinel].
Qed.


Lemma quiet_ret {A} (a : A) : quiet (ret a).
Proof. intros w. constructor. Qed.

Lemma quiet_log lvl fmt args : quiet (SMSD_Log lvl fmt args).
Proof. intros w. repeat constructor. Qed.

Lemma quiet_bind {A B} (m : M A) (k : A -> M B) :
  quiet m -> (forall a, quiet (k a)) -> quiet (bind m k).
Proof.
  intros Hm Hk w. unfold bind. specialize (Hm w).
  destruct (m w) as [t1 [a w1 |]]; simpl in *; [| assumption].
  specialize (Hk a w1). destruct (k a w1) as [t2 o]. simpl in *.
  apply Forall_app. by split.
Qed.

Lemma quiet_load field : quiet (load_retstr field).
Proof.
  intros w. unfold load_retstr.
  destruct (_ && _); [destruct (_ !! _) |]; repeat constructor.
Qed.

Lemma quiet_store field v : quiet (store_retstr field v).
Proof. intros w. unfold store_retstr. destruct (_ && _); repeat constructor. Qed.

Lemma quiet_malloc size : quiet (do_malloc size).
Proof.
  intros w. unfold do_malloc.
  destruct (malloc _ _) as [[init |] l]; repeat constructor.
Qed.

Lemma quiet_realloc_ptr old size : quiet (realloc_ptr old size).
Proof.
  destruct old as [q |]; [| apply quiet_malloc].
  intros w. simpl. unfold do_realloc.
  destruct (heap w !! q); [| constructor].
  destruct (realloc _ _) as [[[moved init] |] lc]; repeat constructor.
Qed.

Lemma quiet_read_string p : quiet (read_string p).
Proof. intros w. unfold read_string. destruct (deref w p); constructor. Qed.

Lemma reports_failures_quiet {A} (m : M A) sentinel :
  quiet m -> reports_failures m sentinel.
Proof.
  intros Hm w. specialize (Hm w). split.
  - rewrite <- (app_nil_r (m w).1). by apply reported_app_quiet.
  - intros t r w' Hrun (c & rc & Hin & _). rewrite Hrun in Hm. simpl in Hm.
    rewrite Forall_forall in Hm. by specialize (Hm _ Hin).
Qed.

Lemma LogError_reports_and_fails {A} ty h message (s : A) (sentinel : A -> Prop) :
  sentinel s ->
  reports_and_fails (do_ SMSDODBC_LogError ty h message; ret s) sentinel.
Proof.
  intros Hs w. unfold_ops. simpl. split; [apply opens_diagnostics_intro |].
  split.
  - by apply reported_diag_loop.
  - by intros t r w' [= _ <- _].
Qed.

(** A call whose status the adapter tests at once. *)
Lemma reports_failures_call {A B} (m : M (SQLRETURN * A)) (c : Call)
    (k : SQLRETURN * A -> M B) sentinel :
  (forall w, m w = ([], Undefined) \/
             exists rc a w', m w = ([EvCall c rc], Ret (rc, a) w')) ->
  (forall rc, unreported c rc = false) ->
  (forall rc a, SQL_SUCCEEDED rc = true -> reports_failures (k (rc, a)) sentinel) ->
  (forall rc a, SQL_SUCCEEDED rc = false -> reports_and_fails (k (rc, a)) sentinel) ->
  reports_failures (bind m k) sentinel.
Proof.
  intros Hm Hc Hok Hfail w. unfold bind.
  destruct (Hm w) as [-> | (rc & a & w1 & ->)]; [split; [exact I | discriminate] |].
  destruct (SQL_SUCCEEDED rc) eqn:Hrc.
  - destruct (Hok rc a Hrc w1) as [Hrep Hsent].
    destruct (k (rc, a) w1) as [t2 o]. simpl in *. split.
    + split; [congruence | assumption].
    + intros t r w' [= <- ->] (c' & rc' & Hin & Hf & Hex).
      apply (Hsent t2 r w' eq_refl).
      apply elem_of_cons in Hin as [Heq | Hin]; [simplify_eq; congruence |].
      by exists c', rc'.
  - destruct (Hfail rc a Hrc w1) as (Hopen & Hrep & Hsent).
    destruct (k (rc, a) w1) as [t2 o]. simpl in *. split.
    + split; [auto | assumption].
    + intros t r w' [= <- ->] _. by apply (Hsent t2 r w').
Qed.

Lemma get_chars_call stmt col target buflen (w : World D L) :
  get_chars stmt col target buflen w = ([], Undefined) \/
  exists rc a w',
    get_chars stmt col target buflen w =
    ([EvCall (CGetData stmt col SQL_C_CHAR (is_target target) buflen) rc], Ret (rc, a) w').
Proof.
  unfold get_chars.
  destruct (SQLGetData_CHAR _ _ _ _ _) as [[rc [bytes len]] d].
  destruct target as [p |]; [destruct (heap w !! p) |]; eauto.
Qed.

Lemma GetString_reports res field :
  reports_failures (SMSDODBC_GetString res field) (fun r => r = None).
Proof.
  unfold SMSDODBC_GetString.
  destruct (field >? SMSD_ODBC_MAX_RETURN_STRINGS).
  { apply reports_failures_quiet, quiet_bind; [apply quiet_log | intros; apply quiet_ret]. }
  eapply reports_failures_call; [apply get_chars_call | reflexivity | |].
  2: { intros rc size ->. simpl. by apply LogError_reports_and_fails. }
  intros rc size ->. simpl.
  destruct (size =? SQL_NULL_DATA).
  { apply reports_failures_quiet, quiet_bind; [apply quiet_log | intros; apply quiet_ret]. }
  apply reports_failures_after_quiet; [apply quiet_load |]. intros old.
  apply reports_failures_after_quiet.
  { destruct old; [| apply quiet_malloc].
    apply quiet_bind; [apply quiet_load | intros; apply quiet_realloc_ptr]. }
  intros new.
  apply reports_failures_after_quiet; [apply quiet_store |]. intros _.
  apply reports_failures_after_quiet; [apply quiet_load |]. intros [q |].
  2: { apply reports_failures_quiet, quiet_bind; [apply quiet_log | intros; apply quiet_ret]. }
  apply reports_failures_after_quiet; [apply quiet_load |]. intros target.
  eapply reports_failures_call; [apply get_chars_call | reflexivity | |].
  2: { intros rc' size' ->. simpl. by apply LogError_reports_and_fails. }
  intros rc' size' ->. simpl.
  apply reports_failures_quiet.
  apply quiet_bind; [apply quiet_load | intros shown].
  apply quiet_bind; [apply quiet_read_string | intros s].
  apply quiet_bind; [apply quiet_log | intros _]. apply quiet_load.
Qed.

(** C5, amended. GetNumber, GetDate, GetString, Connect, Query, NextRow
    and AffectedRows follow every failure status of a call, other than
    the no-more-data of a fetch and the status of the allocation of a
    statement handle, at once by the error line that opens the
    diagnostics and the retrieval of the records of a handle, each
    retrieved record logged at error severity, and then return their
    failure sentinel. *)
Theorem failures_reported_by_design (res : SQL_result) (field : Z) (query : string) :
  reports_failures (SMSDODBC_GetNumber res field) (fun r => r = -1) /\
  reports_failures (SMSDODBC_GetDate res field) (fun r => r = -1) /\
  reports_failures (SMSDODBC_GetString res field) (fun r => r = None) /\
  reports_failures SMSDODBC_Connect (fun r => r = SQL_FAIL) /\
  reports_failures (SMSDODBC_Query query) (fun r => r.1 = SQL_FAIL) /\
  reports_failures (SMSDODBC_NextRow res) (fun r => r = 0) /\
  reports_failures (SMSDODBC_AffectedRows res) (fun r => r = 0).
Proof.
  split; [apply GetNumber_reports |].
  split; [apply GetDate_reports |].
  split; [apply GetString_reports |].
  split; [apply Connect_reports |].
  split; [apply Query_reports |].
  split; [apply NextRow_reports | apply AffectedRows_reports].
Qed.

Ltac solve_keeps :=
  let Hrun := fresh "Hrun" in
  intros ? ? ? Hrun; injection Hrun as <- <- <-; split; reflexivity.

(** Besides FreeResult, the operations that fetch no string leave every
    returned string in place: a pointer GetString returned stays valid
    across them. *)
Lemma accessors_keep_strings (res : SQL_result) (field : Z) (query id : string) :
  keeps_strings (SMSDODBC_FreeResult res) /\
  keeps_strings (SMSDODBC_NextRow res) /\
  keeps_strings (SMSDODBC_GetNumber res field) /\
  keeps_strings (SMSDODBC_GetDate res field) /\
  keeps_strings (SMSDODBC_AffectedRows res) /\
  keeps_strings (SMSDODBC_Query query) /\
  keeps_strings (SMSDODBC_SeqID id).
Proof.
  repeat match goal with |- keeps_strings _ /\ _ => split end; intros w.
  - unfold SMSDODBC_FreeResult. unfold_ops. forward. solve_keeps.
  - unfold SMSDODBC_NextRow. unfold_ops. forward.
    2: destruct (s =? SQL_NO_DATA); simpl.
    all: solve_keeps.
  - unfold SMSDODBC_GetNumber. unfold_ops. forward; solve_keeps.
  - unfold SMSDODBC_GetDate. unfold_ops. forward; solve_keeps.
  - unfold SMSDODBC_AffectedRows. unfold_ops. forward; solve_keeps.
  - unfold SMSDODBC_Query. unfold_ops. forward; solve_keeps.
  - unfold SMSDODBC_SeqID. unfold_ops. forward; solve_keeps.
Qed.

(** What GetDate does: the year and the month of the timestamp go into
    [tm_year] and [tm_mon] as they are. *)
Lemma GetDate_run (res : SQL_result) (field : Z) (w : World D L) :
  let ans := SQLGetData_TIMESTAMP (odbc res) (column field) (driver w) in
  exists t r w',
    SMSDODBC_GetDate res field w = (t, Ret r w') /\
    (SQL_SUCCEEDED ans.1.1 = true ->
     r = mktime {| tm_isdst := if HAVE_DAYLIGHT then daylight (tzset (libc w)) else -1;
                   tm_year := year ans.1.2;
                   tm_mon := month ans.1.2;
                   tm_mday := day ans.1.2;
                   tm_hour := hour ans.1.2;
                   tm_min := minute ans.1.2;
                   tm_sec := second ans.1.2 |} (tzset (libc w))) /\
    (SQL_SUCCEEDED ans.1.1 = false -> r = -1 /\ error_logged t).
Proof.
  unfold SMSDODBC_GetDate, bind, api.
  destruct (SQLGetData_TIMESTAMP (odbc res) (column field) (driver w)) as [[rc ts] d].
  simpl. destruct (SQL_SUCCEEDED rc) eqn:Hok; simpl.
  - eexists _, _, _. split; [reflexivity |]. split; [reflexivity | discriminate].
  - eexists _, _, _. split; [reflexivity |]. split; [discriminate |].
    intros _. split; [reflexivity |]. apply (error_logged_intro [_]).
Qed.

Lemma store_retstr_inv field v w t u w' :
  store_retstr field v w = (t, Ret u w') ->
  0 <= field /\
  heap w' = heap w /\
  retstr (config w') = <[Z.to_nat field := v]> (retstr (config w)).
Proof.
  unfold store_retstr. destruct (_ && _) eqn:Hrange; [| discriminate].
  apply andb_true_iff in Hrange as [Hlow _]. apply Z.leb_le in Hlow.
  intros [= _ _ <-]. auto.
Qed.

Lemma do_malloc_inv size w t r w' :
  do_malloc size w = (t, Ret r w') ->
  config w' = config w /\ slot_change None r (heap w) (heap w').
Proof.
  unfold do_malloc. destruct (malloc _ _) as [[init |] l].
  - intros [= _ <- <-]. split; [reflexivity |]. simpl.
    split; [apply not_elem_of_dom, is_fresh | eauto].
  - intros [= _ <- <-]. split; reflexivity.
Qed.

Lemma realloc_ptr_inv old size w t r w' :
  realloc_ptr old size w = (t, Ret r w') ->
  config w' = config w /\ slot_change old r (heap w) (heap w').
Proof.
  destruct old as [q |]; [| apply do_malloc_inv].
  simpl. unfold do_realloc.
  destruct (heap w !! q) as [content |] eqn:Hq; [| discriminate].
  destruct (realloc _ _) as [[[moved init] |] l].
  - intros [= _ <- <-]. split; [reflexivity |]. simpl.
    split; [eauto |]. split; [| eauto].
    destruct moved; [right; apply not_elem_of_dom, is_fresh | by left].
  - intros [= _ <- <-]. split; [reflexivity |]. simpl. eauto.
Qed.

Lemma get_chars_inv stmt col target buflen w t r w' :
  get_chars stmt col target buflen w = (t, Ret r w') ->
  config w' = config w /\
  match target with
  | None => heap w' = heap w
  | Some p => exists old c, heap w !! p = Some old /\ heap w' = <[p := c]> (heap w)
  end.
Proof.
  unfold get_chars.
  destruct (SQLGetData_CHAR _ _ _ _ _) as [[rc [bytes len]] d].
  destruct target as [p |].
  - destruct (heap w !! p) as [old |] eqn:Hp; [| discriminate].
    intros [= _ _ <-]. split; [reflexivity |]. simpl. eauto.
  - intros [= _ _ <-]. split; reflexivity.
Qed.

Lemma SMSDODBC_LogError_inv ty h message w t u w' :
  SMSDODBC_LogError ty h message w = (t, Ret u w') -> w' = w.
Proof. intros [= _ _ <-]. reflexivity. Qed.

Lemma slot_change_overwrite old p c h h1 :
  slot_change old (Some p) h h1 -> slot_change old (Some p) h (<[p := c]> h1).
Proof.
  destruct old as [q |]; simpl.
  - intros (Hq & Hp & c0 & ->). split; [assumption |]. split; [assumption |].
    exists c. apply insert_insert_eq.
  - intros (Hp & c0 & ->). split; [assumption |]. exists c. apply insert_insert_eq.
Qed.

Ltac primitives_inv :=
  repeat match goal with
  | H : get_chars _ _ _ _ _ = (_, Ret _ _) |- _ => apply get_chars_inv in H as [? ?]
  | H : do_malloc _ _ = (_, Ret _ _) |- _ => apply do_malloc_inv in H as [? ?]
  | H : realloc_ptr _ _ _ = (_, Ret _ _) |- _ => apply realloc_ptr_inv in H as [? ?]
  | H : store_retstr _ _ _ = (_, Ret _ _) |- _ =>
      apply store_retstr_inv in H as (? & ? & ?)
  | H : SMSDODBC_LogError _ _ _ _ = (_, Ret _ _) |- _ =>
      apply SMSDODBC_LogError_inv in H
  end; subst.

(** Brings the facts about the intermediate states of a run of GetString
    back to its first state. *)
Ltac to_first_state :=
  repeat match goal with
  | H : config ?a = config ?b |- _ => progress rewrite H in *
  | H : heap ?a = heap ?b |- _ => progress rewrite H in *
  | H : retstr (config ?a) = <[_ := _]> _ |- _ => progress rewrite H in *
  | H1 : ?l !! ?i = Some ?x, H2 : <[?i := ?v]> ?l !! ?i = Some ?y |- _ =>
      rewrite list_lookup_insert_eq in H2 by (eapply lookup_lt_Some; exact H1);
      injection H2 as ?; subst
  | H1 : ?o = Some ?x, H2 : ?o = Some ?y |- _ =>
      rewrite H1 in H2; injection H2 as ?; subst
  end.

Lemma GetString_refreshes res field w t r w' :
  SMSDODBC_GetString res field w = (t, Ret r w') ->
  refreshes field r w w'.
Proof.
  unfold SMSDODBC_GetString. intros H.
  repeat inv_step; subst.
  all: primitives_inv; unfold refreshes; to_first_state.
  1-3: by left.
  all: right; eexists _, _; (split; [assumption |]); (split; [eassumption |]);
       (split; [reflexivity |]).
  all: split; [| auto].
  all: try match goal with
           | H : exists old c, _ /\ heap _ = <[_ := _]> _ |- _ =>
               destruct H as (? & ? & _ & ->); apply slot_change_overwrite
           end.
  all: assumption.
Qed.

Lemma slot_split (l : list (option ptr)) (i : nat) (old new : option ptr) :
  l !! i = Some old ->
  exists l1 l2,
    l = l1 ++ old :: l2 /\ <[i := new]> l = l1 ++ new :: l2 /\ i = length l1.
Proof.
  intros Hi. exists (take i l), (drop (S i) l).
  assert (Hlen : length (take i l) = i).
  { apply length_take_le. apply lookup_lt_Some in Hi. lia. }
  split; [symmetry; by apply take_drop_middle |].
  split; [| by symmetry].
  rewrite <- (take_drop_middle l i old Hi) at 1.
  rewrite <- Hlen at 1.
  replace (length (take i l)) with (length (take i l) + 0)%nat by lia.
  by rewrite insert_app_r.
Qed.

Lemma pointers_of_slot l1 (x : option ptr) l2 p :
  Some p ∈ l1 ++ x :: l2 <-> x = Some p \/ Some p ∈ l1 ++ l2.
Proof.
  rewrite !elem_of_app, elem_of_cons. split.
  - intros [? | [<- | ?]]; auto.
  - intros [-> | [? | ?]]; auto.
Qed.

Lemma pointer_in_slots (l : list (option ptr)) p : p ∈ omap id l <-> Some p ∈ l.
Proof.
  rewrite list_elem_of_omap. split.
  - intros (x & Hx & Hid). simpl in Hid. by subst.
  - intros Hp. by exists (Some p).
Qed.

Lemma NoDup_slots l1 (x : option ptr) l2 :
  NoDup (omap id (l1 ++ x :: l2)) <->
  NoDup (omap id (l1 ++ l2)) /\ forall p, x = Some p -> Some p ∉ l1 ++ l2.
Proof.
  rewrite (omap_app _ l1 (x :: l2)). destruct x as [q |]; simpl.
  - rewrite <- Permutation_middle, NoDup_cons, <- omap_app, pointer_in_slots.
    split.
    + intros [Hq Hdup]. split; [assumption |]. by intros p [= <-].
    + intros [Hdup Hq]. split; [by apply Hq | assumption].
  - rewrite <- omap_app.
    split; [intros Hdup; split; [assumption | discriminate] | by intros [Hdup _]].
Qed.

(** The slots hold distinct live blocks after a change of one slot if
    they did before, and the blocks of the other slots are as before. *)
Lemma slots_live_after_change l1 l2 old new (h h' : gmap ptr (list Z)) :
  NoDup (omap id (l1 ++ old :: l2)) ->
  (forall p, Some p ∈ l1 ++ old :: l2 -> is_Some (h !! p)) ->
  slot_change old new h h' ->
  NoDup (omap id (l1 ++ new :: l2)) /\
  (forall p, Some p ∈ l1 ++ new :: l2 -> is_Some (h' !! p)) /\
  (forall p, Some p ∈ l1 ++ l2 -> h' !! p = h !! p).
Proof.
  intros Hdup Hlive Hchange.
  apply NoDup_slots in Hdup as [Hdup Hold].
  assert (Hrest : forall p, Some p ∈ l1 ++ l2 -> is_Some (h !! p)).
  { intros p Hp. apply Hlive, pointers_of_slot. by right. }
  destruct old as [q |], new as [p |]; simpl in Hchange.
  - destruct Hchange as (Hq & Hp & c & ->).
    assert (Hne : forall r, Some r ∈ l1 ++ l2 -> r <> q /\ r <> p).
    { intros r Hr. split; [intros ->; by apply (Hold q) |].
      intros ->. destruct Hp as [-> | Hp]; [by apply (Hold q) |].
      destruct (Hrest p Hr) as [? Hsome]. congruence. }
    split; [| split].
    + apply NoDup_slots. split; [assumption |]. intros r [= <-] Hr.
      by destruct (Hne p Hr).
    + intros r [[= <-] | Hr]%pointers_of_slot.
      * rewrite lookup_insert_eq. eauto.
      * destruct (Hne r Hr). rewrite lookup_insert_ne, lookup_delete_ne by congruence.
        by apply Hrest.
    + intros r Hr. destruct (Hne r Hr).
      by rewrite lookup_insert_ne, lookup_delete_ne by congruence.
  - destruct Hchange as [-> Hq].
    split; [| split; [| reflexivity]].
    + apply NoDup_slots. split; [assumption | discriminate].
    + intros r [[=] | Hr]%pointers_of_slot. by apply Hrest.
  - destruct Hchange as (Hp & c & ->).
    assert (Hne : forall r, Some r ∈ l1 ++ l2 -> r <> p).
    { intros r Hr ->. destruct (Hrest p Hr) as [? Hsome]. congruence. }
    split; [| split].
    + apply NoDup_slots. split; [assumption |]. intros r [= <-] Hr.
      by apply (Hne p Hr).
    + intros r [[= <-] | Hr]%pointers_of_slot.
      * rewrite lookup_insert_eq. eauto.
      * rewrite lookup_insert_ne by (specialize (Hne r Hr); congruence). by apply Hrest.
    + intros r Hr. by rewrite lookup_insert_ne by (specialize (Hne r Hr); congruence).
  - subst h'. split; [| split; [| reflexivity]].
    + apply NoDup_slots. split; [assumption | discriminate].
    + intros r [[=] | Hr]%pointers_of_slot. by apply Hrest.
Qed.

Lemma refreshes_keeps_live field r w w' :
  slots_live w -> refreshes field r w w' ->
  slots_live w' /\
  length (retstr (config w')) = length (retstr (config w)) /\
  forall i p,
    i <> Z.to_nat field ->
    retstr (config w) !! i = Some (Some p) ->
    retstr (config w') !! i = Some (Some p) /\ heap w' !! p = heap w !! p.
Proof.
  intros [Hdup Hlive] [(_ & Hheap & Hslots) | (old & new & _ & Hold & Hnew & Hchange & _)].
  - unfold slots_live. rewrite Hheap, Hslots. auto.
  - destruct (slot_split _ _ old new Hold) as (l1 & l2 & Hl & Hl' & Hi).
    rewrite Hl in Hdup, Hlive.
    destruct (slots_live_after_change l1 l2 old new _ _ Hdup Hlive Hchange)
      as (Hdup' & Hlive' & Hkept).
    unfold slots_live. rewrite Hnew, Hl'.
    split; [by split |]. split; [by rewrite <- Hl', length_insert |].
    intros i p Hne Hp. rewrite <- Hl'. rewrite list_lookup_insert_ne by congruence.
    split; [assumption |]. apply Hkept.
    rewrite Hl in Hp. apply list_elem_of_lookup_2 in Hp as Hin.
    apply pointers_of_slot in Hin as [-> | Hin]; [| assumption].
    exfalso. apply NoDup_slots in Hdup as [_ Hfresh].
    rewrite Hi in Hne.
    destruct (decide (i < length l1)%nat).
    + rewrite lookup_app_l in Hp by assumption.
      apply (Hfresh p eq_refl). apply elem_of_app. left.
      by apply list_elem_of_lookup_2 in Hp.
    + rewrite lookup_app_r in Hp by lia.
      destruct (i - length l1)%nat as [| j] eqn:Hj; [lia |].
      simpl in Hp. apply (Hfresh p eq_refl). apply elem_of_app. right.
      by apply list_elem_of_lookup_2 in Hp.
Qed.

Lemma keeps_strings_keeps_live {A} (op : M A) w t r w' :
  keeps_strings op -> slots_live w -> op w = (t, Ret r w') ->
  slots_live w' /\ length (retstr (config w')) = length (retstr (config w)).
Proof.
  intros Hop [Hdup Hlive] Hrun. destruct (Hop w t r w' Hrun) as [Hheap Hslots].
  unfold slots_live. rewrite Hheap, Hslots. auto.
Qed.

Lemma slots_hold_distinct (l : list (option ptr)) i j p :
  NoDup (omap id l) -> l !! i = Some (Some p) -> l !! j = Some (Some p) -> i = j.
Proof.
  intros Hdup Hi Hj.
  destruct (slot_split l i (Some p) None Hi) as (l1 & l2 & Hl & _ & Hlen).
  rewrite Hl in Hdup, Hj. apply NoDup_slots in Hdup as [_ Hfresh].
  destruct (decide (j = i)) as [| Hne]; [done |]. exfalso.
  apply (Hfresh p eq_refl). rewrite Hlen in Hne.
  destruct (decide (j < length l1)%nat).
  - rewrite lookup_app_l in Hj by assumption.
    apply elem_of_app. left. by apply list_elem_of_lookup_2 in Hj.
  - rewrite lookup_app_r in Hj by lia.
    destruct (j - length l1)%nat as [| k] eqn:Hk; [lia |].
    simpl in Hj. apply elem_of_app. right. by apply list_elem_of_lookup_2 in Hj.
Qed.

Lemma slots_live_replicate (w : World D L) n :
  retstr (config w) = replicate n None -> slots_live w.
Proof.
  intros Hslots. unfold slots_live. rewrite Hslots. split.
  - replace (omap id (replicate n (@None ptr))) with (@nil ptr); [constructor |].
    clear Hslots. induction n as [| n IH]; [reflexivity | exact IH].
  - intros p [Hp _]%elem_of_replicate. discriminate.
Qed.

Lemma QuoteString_keeps_live string : keeps_live (SMSDODBC_QuoteString string).
Proof.
  intros w t r w' [Hdup Hlive] Hrun. unfold SMSDODBC_QuoteString in Hrun.
  destruct (strlen string) as [len |]; [| discriminate].
  apply bind_Ret_inv in Hrun as (t1 & a & w1 & t2 & Hm & Hk & _).
  apply do_malloc_inv in Hm as [Hconfig Hchange].
  destruct a as [p |]; [| discriminate]. simpl in Hchange.
  destruct Hchange as (Hfresh & c & Hheap).
  destruct (heap w1 !! p ≫= quote_fill len string) as [buf |]; [| discriminate].
  injection Hk as _ _ <-. unfold slots_live. simpl. rewrite Hconfig, Hheap.
  split; [| reflexivity]. split; [assumption |].
  intros q Hq. specialize (Hlive q Hq).
  rewrite !lookup_insert_ne; [assumption | |]; intros ->;
    rewrite Hfresh in Hlive; by destruct Hlive.
Qed.

Lemma GetString_keeps_live res field : keeps_live (SMSDODBC_GetString res field).
Proof.
  intros w t r w' Hlive Hrun. apply GetString_refreshes in Hrun.
  destruct (refreshes_keeps_live field r w w' Hlive Hrun) as (? & ? & _). auto.
Qed.

Lemma GetBool_keeps_live res field : keeps_live (SMSDODBC_GetBool res field).
Proof.
  intros w t r w' Hlive Hrun. unfold SMSDODBC_GetBool in Hrun.
  apply bind_Ret_inv in Hrun as (t1 & n & w1 & t2 & Hnum & Hk & _).
  destruct (accessors_keep_strings res field "" "") as (_ & _ & Hkeeps & _).
  destruct (keeps_strings_keeps_live _ w t1 n w1 Hkeeps Hlive Hnum) as [Hlive1 Hlen1].
  destruct (n =? -1).
  - apply bind_Ret_inv in Hk as (t3 & c & w2 & t4 & Hstr & Hk & _).
    injection Hk as _ _ <-.
    destruct (GetString_keeps_live res field w1 t3 c w2 Hlive1 Hstr) as [? ?].
    split; [assumption | congruence].
  - apply ret_inv in Hk as (_ & -> & _). auto.
Qed.

Lemma Connect_keeps_live w t r w' :
  length (retstr (config w)) = Z.to_nat SMSD_ODBC_MAX_RETURN_STRINGS ->
  SMSDODBC_Connect w = (t, Ret r w') ->
  slots_live w' /\ length (retstr (config w')) = length (retstr (config w)).
Proof.
  intros Hlen Hrun.
  destruct (Connect_empties_slots w Hlen) as (t0 & r0 & w0 & Hrun0 & _ & Hslots).
  rewrite Hrun in Hrun0. injection Hrun0 as _ _ <-.
  split; [by eapply slots_live_replicate |]. rewrite Hslots. apply length_replicate.
Qed.

Lemma Free_keeps_live w t r w' :
  length (retstr (config w)) = Z.to_nat SMSD_ODBC_MAX_RETURN_STRINGS ->
  slots_live w ->
  SMSDODBC_Free w = (t, Ret r w') ->
  slots_live w' /\ length (retstr (config w')) = length (retstr (config w)).
Proof.
  intros Hlen [Hdup Hlive]. unfold SMSDODBC_Free, bind, api, get_config. simpl.
  destruct (SQLDisconnect (dbc (config w)) (driver w)) as [[rc1 u1] d1]. simpl.
  destruct (SQLFreeHandle SQL_HANDLE_ENV (env (config w)) d1) as [[rc2 u2] d2]. simpl.
  rewrite <- Hlen.
  destruct (free_loop_run (retstr (config w)) [] (with_driver (with_driver w d1) d2))
    as (t0 & w0 & Hrun & Hslots & _); [reflexivity | assumption .. |].
  change (Z.of_nat (length (@nil (option ptr)))) with 0 in Hrun. rewrite Hrun.
  intros [= _ _ <-]. simpl in Hslots.
  split; [by eapply slots_live_replicate |]. rewrite Hslots. apply length_replicate.
Qed.

(** X1. Every operation keeps the return-string array well formed: if the
    slots hold distinct pointers, each to a live block, before a run that
    returns, they do so afterwards, and the array keeps its length.  This
    holds for GetString, GetBool, GetNumber, GetDate, NextRow,
    AffectedRows, Query, SeqID, FreeResult and QuoteString on any array,
    and on an array of SMSD_ODBC_MAX_RETURN_STRINGS slots for Free, and
    for Connect whatever the slots held before. *)
Theorem slots_stay_live (res : SQL_result) (field : Z) (query id : string)
    (text : list Z) :
  keeps_live (SMSDODBC_GetString res field) /\
  keeps_live (SMSDODBC_GetBool res field) /\
  keeps_live (SMSDODBC_GetNumber res field) /\
  keeps_live (SMSDODBC_GetDate res field) /\
  keeps_live (SMSDODBC_NextRow res) /\
  keeps_live (SMSDODBC_AffectedRows res) /\
  keeps_live (SMSDODBC_Query query) /\
  keeps_live (SMSDODBC_SeqID id) /\
  keeps_live (SMSDODBC_FreeResult res) /\
  keeps_live (SMSDODBC_QuoteString text) /\
  forall w,
    length (retstr (config w)) = Z.to_nat SMSD_ODBC_MAX_RETURN_STRINGS ->
    (forall t r w',
       SMSDODBC_Connect w = (t, Ret r w') ->
       slots_live w' /\ length (retstr (config w')) = length (retstr (config w))) /\
    (slots_live w ->
     forall t r w',
       SMSDODBC_Free w = (t, Ret r w') ->
       slots_live w' /\ length (retstr (config w')) = length (retstr (config w))).
Proof.
  destruct (accessors_keep_strings res field query id)
    as (Hfree & Hnext & Hnum & Hdate & Hrows & Hquery & Hseq).
  split; [apply GetString_keeps_live |].
  split; [apply GetBool_keeps_live |].
  split; [intros w t r w' Hl Hr; exact (keeps_strings_keeps_live _ w t r w' Hnum Hl Hr) |].
  split; [intros w t r w' Hl Hr; exact (keeps_strings_keeps_live _ w t r w' Hdate Hl Hr) |].
  split; [intros w t r w' Hl Hr; exact (keeps_strings_keeps_live _ w t r w' Hnext Hl Hr) |].
  split; [intros w t r w' Hl Hr; exact (keeps_strings_keeps_live _ w t r w' Hrows Hl Hr) |].
  split; [intros w t r w' Hl Hr; exact (keeps_strings_keeps_live _ w t r w' Hquery Hl Hr) |].
  split; [intros w t r w' Hl Hr; exact (keeps_strings_keeps_live _ w t r w' Hseq Hl Hr) |].
  split; [intros w t r w' Hl Hr; exact (keeps_strings_keeps_live _ w t r w' Hfree Hl Hr) |].
  split; [apply QuoteString_keeps_live |].
  intros w Hlen. split.
  - intros t r w'. by apply Connect_keeps_live.
  - intros Hlive t r w'. by apply Free_keeps_live.
Qed.

(** X2. Strings of distinct fields coexist.  When GetString has returned
    a string for one field and then runs for another field, the first
    pointer is still the content of its slot and still refers to a live
    block with the same string, and the second run does not return the
    same pointer. *)
Theorem strings_of_distinct_fields_coexist
    (res res' : SQL_result) (f1 f2 : Z) (w0 w1 w2 : World D L)
    (t1 t2 : list Event) (p1 : ptr) (r2 : option ptr) :
  slots_live w0 ->
  f1 <> f2 ->
  SMSDODBC_GetString res f1 w0 = (t1, Ret (Some p1) w1) ->
  SMSDODBC_GetString res' f2 w1 = (t2, Ret r2 w2) ->
  retstr (config w2) !! Z.to_nat f1 = Some (Some p1) /\
  is_Some (deref w2 (Some p1)) /\
  deref w2 (Some p1) = deref w1 (Some p1) /\
  r2 <> Some p1.
Proof.
  intros Hlive0 Hne Hrun1 Hrun2.
  pose proof (GetString_refreshes _ _ _ _ _ _ Hrun1) as Href1.
  pose proof (GetString_refreshes _ _ _ _ _ _ Hrun2) as Href2.
  destruct (refreshes_keeps_live _ _ _ _ Hlive0 Href1) as (Hlive1 & _ & _).
  destruct (refreshes_keeps_live _ _ _ _ Hlive1 Href2) as (Hlive2 & _ & Hkept).
  destruct (GetString_returns_slot _ _ _ _ _ _ Hrun1) as [Hslot1 [s1 Hs1]].
  assert (Hf1 : 0 <= f1).
  { destruct Href1 as [(Hnone & _) | (? & ? & ? & _)]; [discriminate | assumption]. }
  assert (Hstay : retstr (config w2) !! Z.to_nat f1 = Some (Some p1) /\
                  heap w2 !! p1 = heap w1 !! p1).
  { destruct Href2 as [(_ & Hheap & Hslots) | (? & ? & Hf2 & _)].
    - rewrite Hheap, Hslots. auto.
    - apply Hkept; [lia | assumption]. }
  destruct Hstay as [Hslot2 Hheap2].
  split; [assumption |].
  assert (Hderef : deref w2 (Some p1) = deref w1 (Some p1)).
  { unfold deref. simpl. by rewrite Hheap2. }
  split; [rewrite Hderef; unfold deref; simpl; rewrite Hs1; eauto |].
  split; [assumption |].
  intros ->.
  destruct (GetString_returns_slot _ _ _ _ _ _ Hrun2) as [Hslot _].
  destruct Hlive2 as [Hdup _].
  pose proof (slots_hold_distinct _ _ _ _ Hdup Hslot Hslot2) as Heq.
  destruct Href2 as [(Hnone & _) | (? & ? & Hf2 & _)]; [discriminate | lia].
Qed.

Lemma load_retstr_at field v w :
  0 <= field -> retstr (config w) !! Z.to_nat field = Some v ->
  load_retstr field w = ([EvLoad field], Ret v w).
Proof.
  intros Hlow Hslot. unfold load_retstr. rewrite Hslot.
  apply lookup_lt_Some in Hslot.
  replace ((0 <=? field) && _) with true; [reflexivity |].
  symmetry. apply andb_true_iff. split; [apply Z.leb_le | apply Z.ltb_lt]; lia.
Qed.

Lemma store_retstr_at field v0 v w :
  0 <= field -> retstr (config w) !! Z.to_nat field = Some v0 ->
  store_retstr field v w =
  ([EvStore field v],
   Ret tt (with_config w
             (set_retstr (config w) (<[Z.to_nat field := v]> (retstr (config w)))))).
Proof.
  intros Hlow Hslot. unfold store_retstr.
  apply lookup_lt_Some in Hslot.
  replace ((0 <=? field) && _) with true; [reflexivity |].
  symmetry. apply andb_true_iff. split; [apply Z.leb_le | apply Z.ltb_lt]; lia.
Qed.

Lemma c_str_overwrite (s rest old : list Z) (n : nat) :
  Forall (fun c => c <> 0) s -> (length s < n)%nat ->
  c_str (overwrite (take n (s ++ 0 :: rest)) old) = s.
Proof.
  intros Hs Hn. unfold overwrite.
  rewrite take_app_ge by lia.
  destruct (n - length s)%nat as [| k] eqn:Hk; [lia |].
  simpl. rewrite <- app_assoc. simpl. by apply c_str_app_nul.
Qed.

Lemma bind_run {A B} (m : M A) (k : A -> M B) w t a w1 :
  m w = (t, Ret a w1) ->
  bind m k w = (let (t', o) := k a w1 in (t ++ t', o)).
Proof. intros Hm. unfold bind. by rewrite Hm. Qed.

Lemma get_chars_probe_run stmt col w rc b size d :
  SQLGetData_CHAR stmt col false 0 (driver w) = (rc, (b, size), d) ->
  get_chars stmt col None 0 w =
  ([EvCall (CGetData stmt col SQL_C_CHAR false 0) rc], Ret (rc, size) (with_driver w d)).
Proof. intros Hcall. unfold get_chars. simpl. by rewrite Hcall. Qed.

Lemma get_chars_fetch_run stmt col p buflen w rc bytes len d old :
  SQLGetData_CHAR stmt col true buflen (driver w) = (rc, (bytes, len), d) ->
  heap w !! p = Some old ->
  get_chars stmt col (Some p) buflen w =
  ([EvCall (CGetData stmt col SQL_C_CHAR true buflen) rc],
   Ret (rc, len)
     (with_heap (with_driver w d)
        (<[p := overwrite (take (Z.to_nat buflen) bytes) old]> (heap w)))).
Proof. intros Hcall Hp. unfold get_chars. simpl. by rewrite Hcall, Hp. Qed.

Lemma do_malloc_run size w init l :
  malloc (uint64 size) (libc w) = (Some init, l) ->
  do_malloc size w =
  ([EvMalloc (uint64 size) (Some (fresh (dom (heap w))))],
   Ret (Some (fresh (dom (heap w))))
     (with_heap (with_libc w l)
        (<[fresh (dom (heap w)) := block (Z.to_nat (uint64 size)) init]> (heap w)))).
Proof. intros Hm. unfold do_malloc. by rewrite Hm. Qed.

Lemma do_malloc_fails size w l :
  malloc (uint64 size) (libc w) = (None, l) ->
  do_malloc size w = ([EvMalloc (uint64 size) None], Ret None (with_libc w l)).
Proof. intros Hm. unfold do_malloc. by rewrite Hm. Qed.

Lemma read_string_run p s w :
  deref w p = Some s -> read_string p w = ([], Ret s w).
Proof. intros Hs. unfold read_string. by rewrite Hs. Qed.

Lemma GetString_fresh_run
    (res : SQL_result) (field : Z) (w : World D L)
    (rc rc' : SQLRETURN) (b0 s rest init : list Z) (size len : SQLLEN)
    (d1 d2 : D) (l1 : L) :
  0 <= field <= SMSD_ODBC_MAX_RETURN_STRINGS ->
  retstr (config w) !! Z.to_nat field = Some None ->
  SQLGetData_CHAR (odbc res) (column field) false 0 (driver w) = (rc, (b0, size), d1) ->
  SQL_SUCCEEDED rc = true ->
  size <> SQL_NULL_DATA ->
  malloc (uint64 (size + 1)) (libc w) = (Some init, l1) ->
  SQLGetData_CHAR (odbc res) (column field) true (size + 1) d1 =
    (rc', (s ++ 0 :: rest, len), d2) ->
  SQL_SUCCEEDED rc' = true ->
  Forall (fun c => c <> 0) s ->
  Z.of_nat (length s) <= size ->
  let p := fresh (dom (heap w)) in
  SMSDODBC_GetString res field w =
  ([EvCall (CGetData (odbc res) (column field) SQL_C_CHAR false 0) rc;
    EvLoad field; EvMalloc (uint64 (size + 1)) (Some p); EvStore field (Some p);
    EvLoad field; EvLoad field;
    EvCall (CGetData (odbc res) (column field) SQL_C_CHAR true (size + 1)) rc';
    EvLoad field;
    EvLog DEBUG_INFO fmt_returning_string [ArgInt field; ArgBytes s];
    EvLoad field],
   Ret (Some p)
     {| driver := d2; libc := l1;
        heap := <[p := overwrite (take (Z.to_nat (size + 1)) (s ++ 0 :: rest))
                         (block (Z.to_nat (uint64 (size + 1))) init)]>
                  (<[p := block (Z.to_nat (uint64 (size + 1))) init]> (heap w));
        config := set_retstr (config w)
                    (<[Z.to_nat field := Some p]> (retstr (config w))) |}).
Proof.
  intros [Hlow Hhigh] Hslot Hprobe Hok Hsize Hmalloc Hfetch Hok' Hs Hfits p.
  unfold SMSDODBC_GetString.
  replace (field >? SMSD_ODBC_MAX_RETURN_STRINGS) with false by (symmetry; lia).
  cbv beta iota; erewrite bind_run by (eapply get_chars_probe_run; exact Hprobe).
  cbv beta iota. rewrite Hok. change (negb true) with false. cbv iota.
  replace (size =? SQL_NULL_DATA) with false by (symmetry; by apply Z.eqb_neq).
  cbv iota.
  set (w1 := with_driver w d1).
  cbv beta iota; erewrite bind_run by (by apply (load_retstr_at field None w1)).
  cbv beta iota; erewrite bind_run by (by apply (do_malloc_run (size + 1) w1 init l1)).
  change (fresh (dom (heap w1))) with p.
  set (w2 := with_heap (with_libc w1 l1) _).
  cbv beta iota; erewrite bind_run by (by apply (store_retstr_at field None (Some p) w2)).
  set (w3 := with_config w2 _).
  assert (Hslot3 : retstr (config w3) !! Z.to_nat field = Some (Some p)).
  { simpl. apply list_lookup_insert_eq. by apply lookup_lt_Some in Hslot. }
  cbv beta iota; erewrite bind_run by (by apply (load_retstr_at field _ w3)).
  cbv beta iota; erewrite bind_run by (by apply (load_retstr_at field _ w3)).
  cbv beta iota; erewrite bind_run
    by (eapply (get_chars_fetch_run _ _ p _ w3); [exact Hfetch | apply lookup_insert_eq]).
  cbv beta iota. rewrite Hok'. change (negb true) with false. cbv iota.
  set (w4 := with_heap (with_driver w3 d2) _).
  assert (Hstr : deref w4 (Some p) = Some s).
  { unfold deref. simpl. rewrite lookup_insert_eq. simpl. f_equal.
    apply c_str_overwrite; [assumption | lia]. }
  cbv beta iota; erewrite bind_run by (by apply (load_retstr_at field _ w4)).
  cbv beta iota; erewrite bind_run by (by apply (read_string_run _ s w4)).
  cbv beta iota; erewrite bind_run by reflexivity.
  rewrite (load_retstr_at field (Some p) w4) by assumption.
  reflexivity.
Qed.

Lemma do_realloc_run q size w content moved init l :
  heap w !! q = Some content ->
  realloc (uint64 size) (libc w) = (Some (moved, init), l) ->
  realloc_ptr (Some q) size w =
  ([EvRealloc q (uint64 size) (Some (if moved : bool then fresh (dom (heap w)) else q))],
   Ret (Some (if moved : bool then fresh (dom (heap w)) else q))
     (with_heap (with_libc w l)
        (<[(if moved : bool then fresh (dom (heap w)) else q) :=
             block (Z.to_nat (uint64 size)) (content ++ init)]>
           (delete q (heap w))))).
Proof. intros Hq Hr. simpl. unfold do_realloc. by rewrite Hq, Hr. Qed.

Lemma do_realloc_fails q size w content l :
  heap w !! q = Some content ->
  realloc (uint64 size) (libc w) = (None, l) ->
  realloc_ptr (Some q) size w =
  ([EvRealloc q (uint64 size) None], Ret None (with_libc w l)).
Proof. intros Hq Hr. simpl. unfold do_realloc. by rewrite Hq, Hr. Qed.

Lemma GetString_reuse_run
    (res : SQL_result) (field : Z) (w : World D L) (q : ptr)
    (rc rc' : SQLRETURN) (b0 s rest init content : list Z) (size len : SQLLEN)
    (moved : bool) (d1 d2 : D) (l1 : L) :
  0 <= field <= SMSD_ODBC_MAX_RETURN_STRINGS ->
  retstr (config w) !! Z.to_nat field = Some (Some q) ->
  heap w !! q = Some content ->
  SQLGetData_CHAR (odbc res) (column field) false 0 (driver w) = (rc, (b0, size), d1) ->
  SQL_SUCCEEDED rc = true ->
  size <> SQL_NULL_DATA ->
  realloc (uint64 (size + 1)) (libc w) = (Some (moved, init), l1) ->
  SQLGetData_CHAR (odbc res) (column field) true (size + 1) d1 =
    (rc', (s ++ 0 :: rest, len), d2) ->
  SQL_SUCCEEDED rc' = true ->
  Forall (fun c => c <> 0) s ->
  Z.of_nat (length s) <= size ->
  let p := if moved then fresh (dom (heap w)) else q in
  SMSDODBC_GetString res field w =
  ([EvCall (CGetData (odbc res) (column field) SQL_C_CHAR false 0) rc;
    EvLoad field; EvLoad field;
    EvRealloc q (uint64 (size + 1)) (Some p); EvStore field (Some p);
    EvLoad field; EvLoad field;
    EvCall (CGetData (odbc res) (column field) SQL_C_CHAR true (size + 1)) rc';
    EvLoad field;
    EvLog DEBUG_INFO fmt_returning_string [ArgInt field; ArgBytes s];
    EvLoad field],
   Ret (Some p)
     {| driver := d2; libc := l1;
        heap := <[p := overwrite (take (Z.to_nat (size + 1)) (s ++ 0 :: rest))
                         (block (Z.to_nat (uint64 (size + 1))) (content ++ init))]>
                  (<[p := block (Z.to_nat (uint64 (size + 1))) (content ++ init)]>
                     (delete q (heap w)));
        config := set_retstr (config w)
                    (<[Z.to_nat field := Some p]> (retstr (config w))) |}).
Proof.
  intros [Hlow Hhigh] Hslot Hq Hprobe Hok Hsize Hrealloc Hfetch Hok' Hs Hfits p.
  unfold SMSDODBC_GetString.
  replace (field >? SMSD_ODBC_MAX_RETURN_STRINGS) with false by (symmetry; lia).
  cbv beta iota; erewrite bind_run by (eapply get_chars_probe_run; exact Hprobe).
  cbv beta iota. rewrite Hok. change (negb true) with false. cbv iota.
  replace (size =? SQL_NULL_DATA) with false by (symmetry; by apply Z.eqb_neq).
  cbv iota.
  set (w1 := with_driver w d1).
  cbv beta iota; erewrite bind_run by (by apply (load_retstr_at field _ w1)).
  cbv beta iota; erewrite bind_run.
  2: { erewrite bind_run by (by apply (load_retstr_at field _ w1)).
       cbv beta iota.
       rewrite (do_realloc_run q (size + 1) w1 content moved init l1 Hq Hrealloc).
       reflexivity. }
  change (if moved then fresh (dom (heap w1)) else q) with p.
  set (w2 := with_heap (with_libc w1 l1) _).
  cbv beta iota; erewrite bind_run by (by apply (store_retstr_at field (Some q) (Some p) w2)).
  set (w3 := with_config w2 _).
  assert (Hslot3 : retstr (config w3) !! Z.to_nat field = Some (Some p)).
  { simpl. apply list_lookup_insert_eq. by apply lookup_lt_Some in Hslot. }
  cbv beta iota; erewrite bind_run by (by apply (load_retstr_at field (Some p) w3)).
  cbv beta iota; erewrite bind_run by (by apply (load_retstr_at field (Some p) w3)).
  cbv beta iota; erewrite bind_run
    by (eapply (get_chars_fetch_run _ _ p _ w3); [exact Hfetch | apply lookup_insert_eq]).
  cbv beta iota. rewrite Hok'. change (negb true) with false. cbv iota.
  set (w4 := with_heap (with_driver w3 d2) _).
  assert (Hstr : deref w4 (Some p) = Some s).
  { unfold deref. simpl. rewrite lookup_insert_eq. simpl. f_equal.
    apply c_str_overwrite; [assumption | lia]. }
  cbv beta iota; erewrite bind_run by (by apply (load_retstr_at field (Some p) w4)).
  cbv beta iota; erewrite bind_run by (by apply (read_string_run _ s w4)).
  cbv beta iota; erewrite bind_run by reflexivity.
  rewrite (load_retstr_at field (Some p) w4) by assumption.
  reflexivity.
Qed.

Lemma get_chars_probe_inv stmt col w t rc size w' :
  get_chars stmt col None 0 w = (t, Ret (rc, size) w') ->
  let ans := SQLGetData_CHAR stmt col false 0 (driver w) in
  rc = ans.1.1 /\ size = ans.1.2.2 /\ w' = with_driver w ans.2 /\
  t = [EvCall (CGetData stmt col SQL_C_CHAR false 0) rc].
Proof.
  unfold get_chars. simpl.
  destruct (SQLGetData_CHAR stmt col false 0 (driver w)) as [[rc0 [b len]] d].
  intros [= <- <- <- <-]. auto.
Qed.

Lemma error_logged_app t1 t2 :
  error_logged t1 \/ error_logged t2 -> error_logged (t1 ++ t2).
Proof.
  intros [(e & He & Hlvl) | (e & He & Hlvl)]; exists e; (split; [| assumption]);
    apply elem_of_app; auto.
Qed.

Lemma error_logged_here fmt args t : error_logged (EvLog DEBUG_ERROR fmt args :: t).
Proof. apply (error_logged_intro []). Qed.

Lemma LogError_inv ty h message w t u w' :
  SMSDODBC_LogError ty h message w = (t, Ret u w') ->
  w' = w /\ error_logged t.
Proof.
  rewrite LogError_run. intros [= <- _ <-]. split; [reflexivity | apply error_logged_here].
Qed.

Ltac find_error :=
  first [ assumption
        | apply error_logged_here
        | apply error_logged_app; first [ left; find_error | right; find_error ] ].

(** X6. A null result of GetString without an error line means the SQL
    null.  If GetString returns null and has logged nothing at error
    severity, then the field index passed the bound test, the length
    probe succeeded and reported SQL_NULL_DATA, the run consists of that
    one driver call and the info line of the null field, and nothing but
    the state of the driver changed. *)
Theorem GetString_null_without_error_is_sql_null
    (res : SQL_result) (field : Z) (w w' : World D L) (t : list Event) :
  SMSDODBC_GetString res field w = (t, Ret None w') ->
  ~ error_logged t ->
  let ans := SQLGetData_CHAR (odbc res) (column field) false 0 (driver w) in
  field <= SMSD_ODBC_MAX_RETURN_STRINGS /\
  SQL_SUCCEEDED ans.1.1 = true /\
  ans.1.2.2 = SQL_NULL_DATA /\
  t = [EvCall (CGetData (odbc res) (column field) SQL_C_CHAR false 0) ans.1.1;
       EvLog DEBUG_INFO "Field %d returning NULL" [ArgInt field]] /\
  w' = with_driver w ans.2.
Proof.
  unfold SMSDODBC_GetString. intros Hrun Hquiet.
  destruct (field >? SMSD_ODBC_MAX_RETURN_STRINGS) eqn:Hbound.
  { exfalso. apply Hquiet. repeat inv_step; subst. apply error_logged_here. }
  apply bind_Ret_inv in Hrun as (t1 & [rc size] & w1 & t2 & Hprobe & Hrun & ->).
  apply get_chars_probe_inv in Hprobe as (Hrc & Hsize & -> & ->).
  simpl. rewrite <- Hrc, <- Hsize.
  destruct (SQL_SUCCEEDED rc) eqn:Hok; simpl in Hrun.
  2: { exfalso. apply Hquiet. apply error_logged_app. right.
       apply bind_Ret_inv in Hrun as (t3 & ? & ? & t4 & Hlog & _ & ->).
       apply LogError_inv in Hlog as [_ Hlog]. apply error_logged_app. by left. }
  destruct (size =? SQL_NULL_DATA) eqn:Hnull.
  { apply Z.eqb_eq in Hnull. repeat inv_step; subst.
    split; [lia |]. auto. }
  exfalso.
  repeat inv_step; subst.
  all: repeat match goal with
       | H : SMSDODBC_LogError _ _ _ _ = (_, Ret _ _) |- _ =>
           apply LogError_inv in H as [? ?]
       end.
  all: try (apply Hquiet; find_error).
  all: primitives_inv; to_first_state.
  all: congruence.
Qed.

(** X3. The success path of GetString on an empty slot.  When the length
    probe succeeds with a length other than SQL_NULL_DATA, malloc grants
    the block and the second SQLGetData succeeds storing a string no
    longer than the probed length, GetString returns a pointer that was
    not allocated before; the block behind it holds exactly the fetched
    string, the slot of the field holds the pointer and the other slots
    are as before, every other block is as before, the only line logged
    is the trace line of
    the string at info severity, and the driver was called exactly twice:
    once with a null buffer of length 0, once with the buffer and the
    probed length plus one. *)
Theorem GetString_fetches_into_empty_slot
    (res : SQL_result) (field : Z) (w : World D L)
    (rc rc' : SQLRETURN) (b0 s rest init : list Z) (size len : SQLLEN)
    (d1 d2 : D) (l1 : L) :
  0 <= field <= SMSD_ODBC_MAX_RETURN_STRINGS ->
  retstr (config w) !! Z.to_nat field = Some None ->
  SQLGetData_CHAR (odbc res) (column field) false 0 (driver w) = (rc, (b0, size), d1) ->
  SQL_SUCCEEDED rc = true ->
  size <> SQL_NULL_DATA ->
  malloc (uint64 (size + 1)) (libc w) = (Some init, l1) ->
  SQLGetData_CHAR (odbc res) (column field) true (size + 1) d1 =
    (rc', (s ++ 0 :: rest, len), d2) ->
  SQL_SUCCEEDED rc' = true ->
  Forall (fun c => c <> 0) s ->
  Z.of_nat (length s) <= size ->
  exists t p w',
    SMSDODBC_GetString res field w = (t, Ret (Some p) w') /\
    heap w !! p = None /\
    deref w' (Some p) = Some s /\
    retstr (config w') = <[Z.to_nat field := Some p]> (retstr (config w)) /\
    (forall q, q <> p -> heap w' !! q = heap w !! q) /\
    log_of t = [EvLog DEBUG_INFO fmt_returning_string [ArgInt field; ArgBytes s]] /\
    filter (fun e => is_call e = true) t =
      [EvCall (CGetData (odbc res) (column field) SQL_C_CHAR false 0) rc;
       EvCall (CGetData (odbc res) (column field) SQL_C_CHAR true (size + 1)) rc'].
Proof.
  intros Hfield Hslot Hprobe Hok Hsize Hmalloc Hfetch Hok' Hs Hfits.
  rewrite (GetString_fresh_run res field w rc rc' b0 s rest init size len d1 d2 l1)
    by assumption.
  eexists _, _, _. split; [reflexivity |].
  split; [apply not_elem_of_dom, is_fresh |].
  split.
  { unfold deref. simpl. rewrite lookup_insert_eq. simpl. f_equal.
    apply c_str_overwrite; [assumption | lia]. }
  split; [reflexivity |].
  split; [| split; reflexivity].
  intros q Hq. simpl. by rewrite !lookup_insert_ne by congruence.
Qed.

(** X4. GetString on a slot that already holds a block resizes that block
    with realloc and never calls malloc or free.  When realloc moves the
    block, the pointer returned is new and the pointer the slot held
    before no longer refers to a block, so a string returned earlier for
    the same field is gone; when realloc grows the block in place, the
    pointer returned is the old one.  Either way the block returned holds
    the new string, the slot holds the pointer returned, and the blocks
    of other pointers are as before. *)
Theorem GetString_refetch_replaces_block
    (res : SQL_result) (field : Z) (w : World D L) (q : ptr)
    (rc rc' : SQLRETURN) (b0 s rest init content : list Z) (size len : SQLLEN)
    (moved : bool) (d1 d2 : D) (l1 : L) :
  0 <= field <= SMSD_ODBC_MAX_RETURN_STRINGS ->
  retstr (config w) !! Z.to_nat field = Some (Some q) ->
  heap w !! q = Some content ->
  SQLGetData_CHAR (odbc res) (column field) false 0 (driver w) = (rc, (b0, size), d1) ->
  SQL_SUCCEEDED rc = true ->
  size <> SQL_NULL_DATA ->
  realloc (uint64 (size + 1)) (libc w) = (Some (moved, init), l1) ->
  SQLGetData_CHAR (odbc res) (column field) true (size + 1) d1 =
    (rc', (s ++ 0 :: rest, len), d2) ->
  SQL_SUCCEEDED rc' = true ->
  Forall (fun c => c <> 0) s ->
  Z.of_nat (length s) <= size ->
  exists t p w',
    SMSDODBC_GetString res field w = (t, Ret (Some p) w') /\
    (if moved then p <> q /\ heap w !! p = None /\ deref w' (Some q) = None
     else p = q) /\
    deref w' (Some p) = Some s /\
    retstr (config w') = <[Z.to_nat field := Some p]> (retstr (config w)) /\
    (forall r, r <> p -> r <> q -> heap w' !! r = heap w !! r) /\
    EvRealloc q (uint64 (size + 1)) (Some p) ∈ t /\
    Forall (fun e => match e with EvMalloc _ _ | EvFree _ => False | _ => True end) t.
Proof.
  intros Hfield Hslot Hq Hprobe Hok Hsize Hrealloc Hfetch Hok' Hs Hfits.
  rewrite (GetString_reuse_run res field w q rc rc' b0 s rest init content size len
             moved d1 d2 l1) by assumption.
  eexists _, _, _. split; [reflexivity |].
  assert (Hfresh : heap w !! fresh (dom (heap w)) = None)
    by apply not_elem_of_dom, is_fresh.
  split.
  { destruct moved; [| reflexivity].
    assert (Hne : fresh (dom (heap w)) <> q) by congruence.
    split; [assumption |]. split; [assumption |].
    unfold deref. simpl.
    by rewrite !lookup_insert_ne, lookup_delete_eq by congruence. }
  split.
  { unfold deref. simpl. rewrite lookup_insert_eq. simpl. f_equal.
    apply c_str_overwrite; [assumption | lia]. }
  split; [reflexivity |].
  split.
  { intros r Hrp Hrq. simpl.
    by rewrite !lookup_insert_ne, lookup_delete_ne by congruence. }
  split; [rewrite !elem_of_cons; auto |].
  repeat constructor.
Qed.

Lemma GetString_alloc_fails_run
    (res : SQL_result) (field : Z) (w : World D L) (old : option ptr)
    (rc : SQLRETURN) (b0 : list Z) (size : SQLLEN) (d1 : D) (l1 : L) :
  0 <= field <= SMSD_ODBC_MAX_RETURN_STRINGS ->
  retstr (config w) !! Z.to_nat field = Some old ->
  (forall q, old = Some q -> is_Some (heap w !! q)) ->
  SQLGetData_CHAR (odbc res) (column field) false 0 (driver w) = (rc, (b0, size), d1) ->
  SQL_SUCCEEDED rc = true ->
  size <> SQL_NULL_DATA ->
  match old with
  | None => malloc (uint64 (size + 1)) (libc w) = (None, l1)
  | Some _ => realloc (uint64 (size + 1)) (libc w) = (None, l1)
  end ->
  SMSDODBC_GetString res field w =
  (EvCall (CGetData (odbc res) (column field) SQL_C_CHAR false 0) rc ::
   EvLoad field ::
   match old with
   | None => [EvMalloc (uint64 (size + 1)) None]
   | Some q => [EvLoad field; EvRealloc q (uint64 (size + 1)) None]
   end ++
   [EvStore field None; EvLoad field;
    EvLog DEBUG_ERROR "Field %d returning NULL, failed to allocate %ld bytes of memory"
      [ArgInt field; ArgInt (size + 1)]],
   Ret None
     {| driver := d1; libc := l1; heap := heap w;
        config := set_retstr (config w)
                    (<[Z.to_nat field := None]> (retstr (config w))) |}).
Proof.
  intros [Hlow Hhigh] Hslot Hlive Hprobe Hok Hsize Halloc.
  unfold SMSDODBC_GetString.
  replace (field >? SMSD_ODBC_MAX_RETURN_STRINGS) with false by (symmetry; lia).
  cbv beta iota; erewrite bind_run by (eapply get_chars_probe_run; exact Hprobe).
  cbv beta iota. rewrite Hok. change (negb true) with false. cbv iota.
  replace (size =? SQL_NULL_DATA) with false by (symmetry; by apply Z.eqb_neq).
  cbv iota.
  set (w1 := with_driver w d1).
  cbv beta iota; erewrite bind_run by (by apply (load_retstr_at field old w1)).
  destruct old as [q |].
  - destruct (Hlive q eq_refl) as [content Hq].
    cbv beta iota; erewrite bind_run.
    2: { erewrite bind_run by (by apply (load_retstr_at field (Some q) w1)).
         cbv beta iota.
         rewrite (do_realloc_fails q (size + 1) w1 content l1 Hq Halloc).
         reflexivity. }
    set (w2 := with_libc w1 l1).
    cbv beta iota; erewrite bind_run by (by apply (store_retstr_at field (Some q) None w2)).
    set (w3 := with_config w2 _).
    assert (Hslot3 : retstr (config w3) !! Z.to_nat field = Some None).
    { simpl. apply list_lookup_insert_eq. by apply lookup_lt_Some in Hslot. }
    cbv beta iota; erewrite bind_run by (by apply (load_retstr_at field None w3)).
    reflexivity.
  - cbv beta iota; erewrite bind_run by (by apply (do_malloc_fails (size + 1) w1 l1)).
    set (w2 := with_libc w1 l1).
    cbv beta iota; erewrite bind_run by (by apply (store_retstr_at field None None w2)).
    set (w3 := with_config w2 _).
    assert (Hslot3 : retstr (config w3) !! Z.to_nat field = Some None).
    { simpl. apply list_lookup_insert_eq. by apply lookup_lt_Some in Hslot. }
    cbv beta iota; erewrite bind_run by (by apply (load_retstr_at field None w3)).
    reflexivity.
Qed.

(** X5. When the allocation of GetString fails (malloc on an empty slot,
    realloc on a slot that holds a block), GetString returns null after
    one driver call, the length probe, and logs the failed-to-allocate
    line with the field and the size asked for.  It has stored the null
    result of the allocation in the slot and left the heap as it was: on
    a slot that held a block, the block is still live but no slot refers
    to it any more, so the adapter can neither reuse nor release it. *)
Theorem GetString_allocation_failure
    (res : SQL_result) (field : Z) (w : World D L) (old : option ptr)
    (rc : SQLRETURN) (b0 : list Z) (size : SQLLEN) (d1 : D) (l1 : L) :
  slots_live w ->
  0 <= field <= SMSD_ODBC_MAX_RETURN_STRINGS ->
  retstr (config w) !! Z.to_nat field = Some old ->
  SQLGetData_CHAR (odbc res) (column field) false 0 (driver w) = (rc, (b0, size), d1) ->
  SQL_SUCCEEDED rc = true ->
  size <> SQL_NULL_DATA ->
  match old with
  | None => malloc (uint64 (size + 1)) (libc w) = (None, l1)
  | Some _ => realloc (uint64 (size + 1)) (libc w) = (None, l1)
  end ->
  exists t w',
    SMSDODBC_GetString res field w = (t, Ret None w') /\
    log_of t =
      [EvLog DEBUG_ERROR "Field %d returning NULL, failed to allocate %ld bytes of memory"
         [ArgInt field; ArgInt (size + 1)]] /\
    filter (fun e => is_call e = true) t =
      [EvCall (CGetData (odbc res) (column field) SQL_C_CHAR false 0) rc] /\
    retstr (config w') = <[Z.to_nat field := None]> (retstr (config w)) /\
    heap w' = heap w /\
    forall q, old = Some q -> is_Some (heap w' !! q) /\ Some q ∉ retstr (config w').
Proof.
  intros [Hdup Hlive] Hfield Hslot Hprobe Hok Hsize Halloc.
  assert (Hold : forall q, old = Some q -> is_Some (heap w !! q)).
  { intros q ->. apply Hlive. by apply list_elem_of_lookup_2 in Hslot. }
  rewrite (GetString_alloc_fails_run res field w old rc b0 size d1 l1) by assumption.
  eexists _, _. split; [reflexivity |].
  split; [by destruct old |]. split; [by destruct old |].
  split; [reflexivity |]. split; [reflexivity |].
  intros q ->. simpl. split; [by apply Hold |].
  destruct (slot_split _ _ (Some q) None Hslot) as (l1' & l2' & Hl & Hl' & _).
  rewrite Hl'. rewrite Hl in Hdup. apply NoDup_slots in Hdup as [_ Hfresh].
  intros [[=] | Hin]%pointers_of_slot. by apply (Hfresh q).
Qed.

Lemma api_calls_app t1 t2 : api_calls (t1 ++ t2) = api_calls t1 ++ api_calls t2.
Proof. apply omap_app. Qed.

Lemma api_calls_quiet t : Forall (fun e => is_call e = false) t -> api_calls t = [].
Proof.
  induction 1 as [| e t He _ IH]; [reflexivity |].
  destruct e; try discriminate He; exact IH.
Qed.

Lemma api_calls_diag_loop ty h recno answers : api_calls (diag_loop ty h recno answers) = [].
Proof.
  revert recno. induction answers as [| r rest IH]; intros recno; [reflexivity |].
  simpl diag_loop. change (api_calls (?e :: ?t)) with (api_calls ([e] ++ t)).
  rewrite !api_calls_app.
  replace (api_calls (if SQL_SUCCEEDED (diag_ret r) then _ else _)) with
    (@nil (Call * SQLRETURN)) by (by destruct (SQL_SUCCEEDED (diag_ret r))).
  destruct (diag_ret r =? SQL_SUCCESS); [by rewrite IH | reflexivity].
Qed.

Lemma init_loop_inv n : forall k w t u w',
  for_loop n k (fun field => store_retstr field None) w = (t, Ret u w') ->
  (exists slots, w' = with_config w (set_retstr (config w) slots)) /\
  log_of t = [] /\ api_calls t = [].
Proof.
  induction n as [| n IH]; intros k w t u w'; simpl.
  - intros (_ & -> & ->)%ret_inv. split; [| by split]. exists (retstr (config w)).
    by destruct w as [? ? ? []].
  - intros (t1 & [] & w1 & t2 & Hstore & Hrest & ->)%bind_Ret_inv.
    unfold store_retstr in Hstore. destruct (_ && _); [| discriminate].
    injection Hstore as <- <-.
    apply IH in Hrest as ([slots ->] & Hlog & Hcalls). split; [by exists slots |].
    split; assumption.
Qed.

Lemma api_calls_cons e t :
  api_calls (e :: t) =
  match api_call e with Some x => x :: api_calls t | None => api_calls t end.
Proof. reflexivity. Qed.

Ltac simpl_calls :=
  rewrite ?app_nil_r;
  repeat rewrite ?api_calls_cons, ?api_calls_app, ?api_calls_diag_loop;
  simpl.

Ltac log_after_calls :=
  first [ apply (error_logged_intro [_]) | apply (error_logged_intro [_; _])
        | apply (error_logged_intro [_; _; _]) | apply (error_logged_intro [_; _; _; _]) ].

Ltac all_succeeded :=
  split;
  [ first [ discriminate | intros _; repeat constructor; assumption ]
  | first [ reflexivity
          | let H := fresh in
            intros H; exfalso; rewrite ?Forall_cons in H; simpl in H;
            destruct_and?; congruence ] ].

Ltac last_failure :=
  let i := fresh "i" in
  intros i ? ? ? ?;
  repeat (destruct i as [| i]; simpl in *; simplify_eq; try congruence; try reflexivity).

(** X7. Connect issues, in this order and stopping at the first failure,
    the allocation of the environment handle, SQLSetEnvAttr for ODBC
    version 3 on that handle, the allocation of the connection handle
    under it, and SQLConnect on the connection handle with the host, user
    and password of the configuration; it never releases a handle.  It
    returns SQL_OK exactly when every call succeeded, and then it made all
    four calls and logged nothing; when it returns SQL_FAIL an error line
    is logged; only the last call made can have failed. *)
Theorem Connect_outcome (w w' : World D L) (t : list Event) (r : SQL_Error) :
  SMSDODBC_Connect w = (t, Ret r w') ->
  (api_calls t).*1 `prefix_of`
    [CAllocHandle SQL_HANDLE_ENV SQL_NULL_HANDLE;
     CSetEnvAttr (env (config w')) SQL_ATTR_ODBC_VERSION SQL_OV_ODBC3;
     CAllocHandle SQL_HANDLE_DBC (env (config w'));
     CConnect (dbc (config w')) (host (config w)) (user (config w)) (password (config w))] /\
  (r = SQL_OK <-> Forall (fun cr => SQL_SUCCEEDED cr.2 = true) (api_calls t)) /\
  (r = SQL_OK -> length (api_calls t) = 4%nat /\ log_of t = []) /\
  (r = SQL_FAIL -> error_logged t) /\
  (forall i c rc,
     api_calls t !! i = Some (c, rc) -> SQL_SUCCEEDED rc = false ->
     S i = length (api_calls t)).
Proof.
  unfold SMSDODBC_Connect.
  intros (t1 & [] & w1 & t2 & Hloop & Hrest & ->)%bind_Ret_inv.
  apply init_loop_inv in Hloop as ([slots ->] & Hlog & Hcalls).
  rewrite api_calls_app, Hcalls. simpl app.
  unfold log_of in *. rewrite filter_app, Hlog. simpl app.
  revert Hrest. generalize t1. clear. intros t1. unfold_ops. forward.
  all: intros [= <- <- <-].
  all: simpl_calls.
  all: split; [by eexists |].
  all: split; [all_succeeded |].
  all: split; [first [discriminate | intros _; split; reflexivity] |].
  all: split; [first [discriminate | intros _; apply error_logged_app; right; log_after_calls] |].
  all: last_failure.
Qed.

(** X8. Query always returns, with the statement handle the driver gave
    in the result.  It allocates the statement handle under the
    connection handle and, only if that succeeded, executes the query text
    as given on it; it makes no other call, so it never releases the
    statement handle, not even when the execution fails.  It returns
    SQL_OK exactly when both calls succeeded, and then logs nothing; a
    failed allocation is not logged at all, a failed execution is logged
    at error severity; the configuration and the heap are untouched. *)
Theorem Query_outcome (query : string) (w : World D L) :
  let alloc := SQLAllocHandle SQL_HANDLE_STMT (dbc (config w)) (driver w) in
  let exec := SQLExecDirect alloc.1.2 query alloc.2 in
  exists t e w',
    SMSDODBC_Query query w = (t, Ret (e, {| odbc := alloc.1.2 |}) w') /\
    (e = SQL_OK <-> SQL_SUCCEEDED alloc.1.1 = true /\ SQL_SUCCEEDED exec.1.1 = true) /\
    api_calls t =
      (CAllocHandle SQL_HANDLE_STMT (dbc (config w)), alloc.1.1) ::
      (if SQL_SUCCEEDED alloc.1.1 then [(CExecDirect alloc.1.2 query, exec.1.1)] else []) /\
    (SQL_SUCCEEDED alloc.1.1 = false -> log_of t = [] /\ w' = with_driver w alloc.2) /\
    (SQL_SUCCEEDED alloc.1.1 = true -> SQL_SUCCEEDED exec.1.1 = false -> error_logged t) /\
    (e = SQL_OK -> log_of t = []) /\
    config w' = config w /\ heap w' = heap w.
Proof.
  unfold SMSDODBC_Query. unfold_ops. simpl.
  destruct (SQLAllocHandle SQL_HANDLE_STMT (dbc (config w)) (driver w)) as [[rc0 stmt] d0].
  simpl. destruct (SQL_SUCCEEDED rc0) eqn:Hok0; simpl.
  2: { eexists _, _, _. split; [reflexivity |].
       split; [split; [discriminate | intros [? _]; discriminate] |].
       split; [reflexivity |]. split; [intros _; split; reflexivity |].
       split; [discriminate |]. split; [discriminate |]. split; reflexivity. }
  destruct (SQLExecDirect stmt query d0) as [[rc1 u1] d1]. simpl.
  destruct (SQL_SUCCEEDED rc1) eqn:Hok1; simpl.
  - eexists _, _, _. split; [reflexivity |].
    split; [split; auto |]. split; [reflexivity |]. split; [discriminate |].
    split; [discriminate |]. split; [reflexivity |]. split; reflexivity.
  - eexists _, _, _. split; [reflexivity |].
    split; [split; [discriminate | intros [_ ?]; discriminate] |].
    split; [simpl_calls; reflexivity |]. split; [discriminate |].
    split; [intros _ _; log_after_calls |]. split; [discriminate |]. split; reflexivity.
Qed.



Lemma Free_releases (w : World D L) :
  length (retstr (config w)) = Z.to_nat SMSD_ODBC_MAX_RETURN_STRINGS ->
  slots_live w ->
  exists t w',
    SMSDODBC_Free w = (t, Ret tt w') /\
    retstr (config w') = replicate (length (retstr (config w))) None /\
    (forall p, Some p ∈ retstr (config w) -> heap w' !! p = None /\ EvFree p ∈ t) /\
    (forall p, Some p ∉ retstr (config w) -> heap w' !! p = heap w !! p).
Proof.
  intros Hlen [Hdup Hlive]. unfold SMSDODBC_Free, bind, api, get_config. simpl.
  destruct (SQLDisconnect (dbc (config w)) (driver w)) as [[rc1 u1] d1]. simpl.
  destruct (SQLFreeHandle SQL_HANDLE_ENV (env (config w)) d1) as [[rc2 u2] d2]. simpl.
  rewrite <- Hlen.
  destruct (free_loop_run (retstr (config w)) [] (with_driver (with_driver w d1) d2))
    as (t & w' & Hrun & Hslots & Hfreed & Hkept & _); [reflexivity | assumption .. |].
  change (Z.of_nat (length (@nil (option ptr)))) with 0 in Hrun. rewrite Hrun.
  eexists _, w'. split; [reflexivity |]. split; [exact Hslots |].
  split; [| exact Hkept].
  intros p Hp. destruct (Hfreed p Hp) as [Hnone Hev]. split; [exact Hnone |].
  rewrite !elem_of_cons. auto.
Qed.

(** X10. On an array of SMSD_ODBC_MAX_RETURN_STRINGS slots holding
    distinct live blocks, a string that GetString returned is readable
    through its pointer, and a following Free returns, releases that
    block, so that the pointer no longer refers to a string, and leaves
    every slot empty. *)
Theorem fetched_string_released_by_Free
    (res : SQL_result) (field : Z) (w w1 : World D L) (t : list Event) (p : ptr) :
  length (retstr (config w)) = Z.to_nat SMSD_ODBC_MAX_RETURN_STRINGS ->
  slots_live w ->
  SMSDODBC_GetString res field w = (t, Ret (Some p) w1) ->
  is_Some (deref w1 (Some p)) /\
  exists t' w2,
    SMSDODBC_Free w1 = (t', Ret tt w2) /\
    EvFree p ∈ t' /\
    deref w2 (Some p) = None /\
    all_empty (retstr (config w2)).
Proof.
  intros Hlen Hlive Hrun.
  destruct (GetString_keeps_live res field w t (Some p) w1 Hlive Hrun) as [Hlive1 Hlen1].
  destruct (GetString_returns_slot res field w t p w1 Hrun) as [Hslot [c Hc]].
  split; [unfold deref; simpl; rewrite Hc; eauto |].
  destruct (Free_releases w1) as (t' & w2 & Hfree & Hslots & Hfreed & _);
    [congruence | assumption |].
  exists t', w2. split; [assumption |].
  destruct (Hfreed p) as [Hnone Hev]; [by apply list_elem_of_lookup_2 in Hslot |].
  split; [assumption |]. split; [unfold deref; simpl; by rewrite Hnone |].
  rewrite Hslots. apply all_empty_replicate.
Qed.


Lemma diag_loop_calls ty h recno answers e :
  e ∈ diag_loop ty h recno answers -> is_call e = true ->
  exists n rc, e = EvCall (CGetDiagRec ty h n) rc.
Proof.
  revert recno. induction answers as [| r rest IH]; intros recno; simpl.
  - intros ->%list_elem_of_singleton _. eauto.
  - rewrite elem_of_cons, elem_of_app. intros [-> | [He | He]] Hcall; [eauto | |].
    + destruct (SQL_SUCCEEDED (diag_ret r)).
      * apply list_elem_of_singleton in He as ->. discriminate.
      * by apply elem_of_nil in He.
    + destruct (diag_ret r =? SQL_SUCCESS); [eauto | by apply elem_of_nil in He].
Qed.

(** X12. AffectedRows always returns.  When SQLRowCount succeeds it
    returns the count converted to the unsigned 64-bit return type and
    logs nothing, so that a negative count c wraps to 2^64 + c; when
    SQLRowCount fails it returns 0 and logs the diagnostics, which it
    reads from the connection handle of the configuration, not from the
    statement handle the call was made on.  The result 0 therefore stands
    both for a failure and for a count of zero. *)
Theorem AffectedRows_count_or_zero (res : SQL_result) (w : World D L) :
  let ans := SQLRowCount (odbc res) (driver w) in
  exists t r w',
    SMSDODBC_AffectedRows res w = (t, Ret r w') /\
    0 <= r < 2 ^ 64 /\
    (SQL_SUCCEEDED ans.1.1 = true ->
     r = ans.1.2 mod 2 ^ 64 /\ log_of t = [] /\
     (ans.1.2 < 0 -> - 2 ^ 64 <= ans.1.2 -> r = 2 ^ 64 + ans.1.2)) /\
    (SQL_SUCCEEDED ans.1.1 = false ->
     r = 0 /\ error_logged t /\
     forall ty h n rc,
       EvCall (CGetDiagRec ty h n) rc ∈ t -> ty = SQL_HANDLE_DBC /\ h = dbc (config w)) /\
    (r = 0 <-> SQL_SUCCEEDED ans.1.1 = false \/ ans.1.2 mod 2 ^ 64 = 0).
Proof.
  unfold SMSDODBC_AffectedRows. unfold_ops. simpl.
  destruct (SQLRowCount (odbc res) (driver w)) as [[rc count] d]. simpl.
  pose proof (Z.mod_pos_bound count (2 ^ 64) ltac:(lia)) as Hrange.
  destruct (SQL_SUCCEEDED rc) eqn:Hok; simpl.
  - eexists _, _, _. split; [reflexivity |]. unfold uint64.
    split; [exact Hrange |]. split; [| split; [discriminate |]].
    + intros _. split; [reflexivity |]. split; [reflexivity |].
      intros Hneg Hlow. symmetry. apply Z.mod_unique with (-1); lia.
    + split; [auto | intros [? | ?]; [discriminate | assumption]].
  - eexists _, _, _. split; [reflexivity |].
    split; [lia |]. split; [discriminate | split].
    + intros _. split; [reflexivity |]. split; [apply (error_logged_intro [_]) |].
      intros ty h n rc' Hin.
      apply elem_of_cons in Hin as [[=] | Hin].
      apply elem_of_cons in Hin as [[=] | Hin].
      rewrite app_nil_r in Hin.
      apply diag_loop_calls in Hin as (n' & rc'' & [= -> -> _ _]); [auto | reflexivity].
    + split; auto.
Qed.

(** X13. The success path of SeqID.  When the allocation of the statement
    handle, the execution of the identity query, the fetch and the
    retrieval of column 1 as a signed 32-bit integer all succeed, SeqID
    returns that integer converted to the unsigned 64-bit return type (a
    negative value v wraps to 2^64 + v), after exactly those four calls
    and the release of the statement handle, whose status it ignores; it
    logs nothing and leaves the configuration and the heap alone. *)
Theorem SeqID_returns_fetched_identity (id : string) (w : World D L) :
  let alloc := SQLAllocHandle SQL_HANDLE_STMT (dbc (config w)) (driver w) in
  let exec := SQLExecDirect alloc.1.2 "SELECT @@IDENTITY" alloc.2 in
  let fetch := SQLFetch alloc.1.2 exec.2 in
  let data := SQLGetData_SLONG alloc.1.2 1 fetch.2 in
  SQL_SUCCEEDED alloc.1.1 = true ->
  SQL_SUCCEEDED exec.1.1 = true ->
  SQL_SUCCEEDED fetch.1.1 = true ->
  SQL_SUCCEEDED data.1.1 = true ->
  exists t r w',
    SMSDODBC_SeqID id w = (t, Ret r w') /\
    r = sint 32 data.1.2 mod 2 ^ 64 /\
    (0 <= sint 32 data.1.2 -> r = sint 32 data.1.2) /\
    (sint 32 data.1.2 < 0 -> r = 2 ^ 64 + sint 32 data.1.2) /\
    api_calls t =
      [(CAllocHandle SQL_HANDLE_STMT (dbc (config w)), alloc.1.1);
       (CExecDirect alloc.1.2 "SELECT @@IDENTITY", exec.1.1);
       (CFetch alloc.1.2, fetch.1.1);
       (CGetData alloc.1.2 1 SQL_C_SLONG true 0, data.1.1);
       (CFreeHandle SQL_HANDLE_STMT alloc.1.2,
        (SQLFreeHandle SQL_HANDLE_STMT alloc.1.2 data.2).1.1)] /\
    log_of t = [] /\
    config w' = config w /\ heap w' = heap w.
Proof.
  unfold SMSDODBC_SeqID, bind, api, get_config. simpl.
  destruct (SQLAllocHandle SQL_HANDLE_STMT (dbc (config w)) (driver w))
    as [[rc0 stmt] d0]. simpl. intros H0. rewrite H0. simpl.
  destruct (SQLExecDirect stmt "SELECT @@IDENTITY" d0) as [[rc1 u1] d1]. simpl.
  intros H1. rewrite H1. simpl.
  destruct (SQLFetch stmt d1) as [[rc2 u2] d2]. simpl.
  intros H2. rewrite H2. simpl.
  destruct (SQLGetData_SLONG stmt 1 d2) as [[rc3 value] d3]. simpl.
  intros H3. rewrite H3. simpl.
  destruct (SQLFreeHandle SQL_HANDLE_STMT stmt d3) as [[rc4 u4] d4]. simpl.
  assert (Hrange : - 2 ^ 31 <= sint 32 value < 2 ^ 31).
  { unfold sint. pose proof (Z.mod_pos_bound (value + 2 ^ (32 - 1)) (2 ^ 32) ltac:(lia)). lia. }
  eexists _, _, _. split; [reflexivity |]. unfold uint64.
  split; [reflexivity |].
  split; [intros ?; apply Z.mod_small; lia |].
  split; [intros ?; symmetry; apply Z.mod_unique with (-1); lia |].
  split; [reflexivity |]. split; [reflexivity |]. split; reflexivity.
Qed.

(** X14. QuoteString has exactly two undefined behaviours.  On an input
    whose quoted form fits the address space, a run of QuoteString
    returns precisely when the input is terminated by a NUL and malloc
    grants the block of twice the length plus three bytes: the stores of
    the loop never leave that block.  On an input without a terminating
    NUL the run is undefined at once, in strlen; when malloc fails the
    run is undefined right after the allocation, because QuoteString
    does not test the pointer before it stores the opening quote
    through it. *)
Theorem QuoteString_defined_iff_block_granted (text : list Z) (w : World D L) :
  (forall len, strlen text = Some len -> Z.of_nat len * 2 + 3 < 2 ^ 64) ->
  ((exists t p w', SMSDODBC_QuoteString text w = (t, Ret p w')) <->
   exists len,
     strlen text = Some len /\
     is_Some (malloc (uint64 (Z.of_nat len * 2 + 3)) (libc w)).1) /\
  (strlen text = None -> SMSDODBC_QuoteString text w = ([], Undefined)) /\
  (forall len,
     strlen text = Some len ->
     (malloc (uint64 (Z.of_nat len * 2 + 3)) (libc w)).1 = None ->
     SMSDODBC_QuoteString text w =
       ([EvMalloc (uint64 (Z.of_nat len * 2 + 3)) None], Undefined)).
Proof.
  intros Hfit. unfold SMSDODBC_QuoteString.
  destruct (strlen text) as [len |] eqn:Hlen.
  2: { split; [| split; [reflexivity | discriminate]].
       split; [intros (? & ? & ? & [=]) | intros (? & [=] & _)]. }
  specialize (Hfit len eq_refl).
  unfold bind, do_malloc.
  destruct (malloc (uint64 (Z.of_nat len * 2 + 3)) (libc w)) as [[init |] l] eqn:Hmalloc;
    simpl.
  - rewrite lookup_insert_eq. simpl.
    destruct (quote_fill_spec text
                (block (Z.to_nat (uint64 (Z.of_nat len * 2 + 3))) init) len Hlen)
      as (buf' & tail & Hfill & _).
    { rewrite block_length. unfold uint64. rewrite Z.mod_small by lia. lia. }
    rewrite Hfill. split; [| split; [discriminate |]].
    + split; [| intros _; eauto].
      intros _. exists len. split; [reflexivity |]. rewrite Hmalloc. simpl. eauto.
    + intros len' [= <-]. rewrite Hmalloc. discriminate.
  - split; [| split; [discriminate |]].
    + split; [intros (? & ? & ? & [=]) |].
      intros (len' & [= <-] & Hsome). rewrite Hmalloc in Hsome. by destruct Hsome.
    + intros len' [= <-] _. reflexivity.
Qed.

Lemma slots_live_after_free (w : World D L) (k : nat) (q : ptr) :
  slots_live w ->
  retstr (config w) !! k = Some (Some q) ->
  slots_live
    (with_config (with_heap w (delete q (heap w)))
       (set_retstr (config w) (<[k := None]> (retstr (config w))))).
Proof.
  intros [Hdup Hlive] Hk.
  destruct (slot_split _ _ (Some q) None Hk) as (l1 & l2 & Hl & Hl' & _).
  unfold slots_live. simpl. rewrite Hl'. rewrite Hl in Hdup, Hlive.
  apply NoDup_slots in Hdup as [Hdup Hfresh]. split.
  - apply NoDup_slots. split; [assumption | discriminate].
  - intros p [[=] | Hp]%pointers_of_slot.
    rewrite lookup_delete_ne by (intros ->; by apply (Hfresh p)).
    apply Hlive, pointers_of_slot. by right.
Qed.

Lemma free_slot_run (w : World D L) (k : nat) (x : option ptr) :
  slots_live w ->
  retstr (config w) !! k = Some x ->
  exists t w',
    free_slot (Z.of_nat k) w = (t, Ret tt w') /\
    slots_live w' /\
    retstr (config w') = <[k := None]> (retstr (config w)) /\
    heap w' = match x with Some q => delete q (heap w) | None => heap w end.
Proof.
  intros Hlive Hk. unfold free_slot.
  assert (Hat : retstr (config w) !! Z.to_nat (Z.of_nat k) = Some x) by by rewrite Nat2Z.id.
  erewrite bind_run by (apply (load_retstr_at (Z.of_nat k) x w); [lia | exact Hat]).
  destruct x as [q |].
  - destruct Hlive as [Hdup Hall].
    destruct (Hall q) as [c Hq]; [by apply list_elem_of_lookup_2 in Hk |].
    cbv beta iota.
    erewrite bind_run by (apply (load_retstr_at (Z.of_nat k) (Some q) w); [lia | exact Hat]).
    cbv beta iota. erewrite bind_run by (unfold do_free; rewrite Hq; reflexivity).
    cbv beta iota.
    rewrite (store_retstr_at (Z.of_nat k) (Some q) None
               (with_heap w (delete q (heap w))) ltac:(lia) Hat).
    rewrite Nat2Z.id. eexists _, _. split; [reflexivity |].
    split; [exact (slots_live_after_free w k q (conj Hdup Hall) Hk) |]. split; reflexivity.
  - cbv beta iota. eexists _, _. split; [reflexivity |].
    split; [assumption |]. split; [| reflexivity].
    symmetry. by apply list_insert_id.
Qed.

Lemma free_loop_prefix n : forall k (w : World D L),
  slots_live w ->
  (k + n <= length (retstr (config w)))%nat ->
  exists t w',
    for_loop n (Z.of_nat k) free_slot w = (t, Ret tt w') /\
    slots_live w' /\
    length (retstr (config w')) = length (retstr (config w)) /\
    forall i, (i < k \/ k + n <= i)%nat ->
      retstr (config w') !! i = retstr (config w) !! i /\
      forall p, retstr (config w) !! i = Some (Some p) -> heap w' !! p = heap w !! p.
Proof.
  induction n as [| n IH]; intros k w Hlive Hlen.
  - exists [], w. simpl. split; [reflexivity |]. split; [assumption |]. by split.
  - destruct (lookup_lt_is_Some_2 (retstr (config w)) k ltac:(lia)) as [x Hk].
    destruct (free_slot_run w k x Hlive Hk) as (t1 & w1 & Hrun1 & Hlive1 & Hslots1 & Hheap1).
    destruct (IH (S k) w1 Hlive1) as (t2 & w2 & Hrun2 & Hlive2 & Hlen2 & Hout).
    { rewrite Hslots1, length_insert. lia. }
    simpl for_loop. erewrite bind_run by exact Hrun1. cbv beta iota.
    replace (Z.of_nat k + 1) with (Z.of_nat (S k)) by lia. rewrite Hrun2.
    eexists _, _. split; [reflexivity |]. split; [assumption |].
    split; [by rewrite Hlen2, Hslots1, length_insert |].
    intros i Hi. destruct (Hout i ltac:(lia)) as [Hslot Hheap].
    assert (Hne : k <> i) by lia.
    rewrite Hslots1, list_lookup_insert_ne in Hslot by assumption.
    split; [assumption |]. intros p Hp.
    rewrite Hheap by (by rewrite Hslots1, list_lookup_insert_ne by assumption).
    rewrite Hheap1. destruct x as [q |]; [| reflexivity].
    apply lookup_delete_ne. intros ->. apply Hne.
    destruct Hlive as [Hdup _]. by apply (slots_hold_distinct _ _ _ p Hdup).
Qed.

Lemma init_loop_outside n : forall k (w w' : World D L) t u,
  for_loop n (Z.of_nat k) (fun field => store_retstr field None) w = (t, Ret u w') ->
  forall i, (i < k \/ k + n <= i)%nat ->
    retstr (config w') !! i = retstr (config w) !! i.
Proof.
  induction n as [| n IH]; intros k w w' t u; simpl.
  - by intros (_ & -> & _)%ret_inv.
  - intros (t1 & [] & w1 & t2 & Hstore & Hrest & _)%bind_Ret_inv i Hi.
    apply store_retstr_inv in Hstore as (_ & _ & Hslots).
    replace (Z.of_nat k + 1) with (Z.of_nat (S k)) in Hrest by lia.
    rewrite (IH _ _ _ _ _ Hrest i) by lia.
    rewrite Hslots, Nat2Z.id. apply list_lookup_insert_ne. lia.
Qed.

(** X15. The loops of Connect and Free run over the slots 0 to
    SMSD_ODBC_MAX_RETURN_STRINGS - 1 only, while the test of GetString
    also admits the index SMSD_ODBC_MAX_RETURN_STRINGS.  On an array with
    a slot at that index or beyond, Connect leaves the slot as it was
    (and never touches the heap), and Free, when the slots hold distinct
    live blocks, returns with the slot still holding its pointer and the
    block still live: a string fetched for the field at the bound is
    never released. *)
Theorem Connect_and_Free_stop_before_bound (w : World D L) (i : nat) :
  (Z.to_nat SMSD_ODBC_MAX_RETURN_STRINGS <= i)%nat ->
  (forall t r w',
     SMSDODBC_Connect w = (t, Ret r w') ->
     retstr (config w') !! i = retstr (config w) !! i /\ heap w' = heap w) /\
  (slots_live w ->
   (Z.to_nat SMSD_ODBC_MAX_RETURN_STRINGS <= length (retstr (config w)))%nat ->
   exists t w',
     SMSDODBC_Free w = (t, Ret tt w') /\
     retstr (config w') !! i = retstr (config w) !! i /\
     forall p, retstr (config w) !! i = Some (Some p) ->
       heap w' !! p = heap w !! p /\ is_Some (heap w' !! p)).
Proof.
  intros Hi. split.
  - unfold SMSDODBC_Connect.
    intros t r w' (t1 & [] & w1 & t2 & Hloop & Hrest & _)%bind_Ret_inv.
    pose proof (init_loop_outside _ 0 _ _ _ _ Hloop i ltac:(lia)) as Hslot.
    apply init_loop_inv in Hloop as ([slots ->] & _).
    rewrite <- Hslot. revert Hrest. clear. unfold_ops. forward.
    all: by intros [= _ _ <-].
  - intros Hlive Hlen.
    unfold SMSDODBC_Free, bind, api, get_config. simpl.
    destruct (SQLDisconnect (dbc (config w)) (driver w)) as [[rc1 u1] d1]. simpl.
    destruct (SQLFreeHandle SQL_HANDLE_ENV (env (config w)) d1) as [[rc2 u2] d2]. simpl.
    destruct (free_loop_prefix (Z.to_nat SMSD_ODBC_MAX_RETURN_STRINGS) 0
                (with_driver (with_driver w d1) d2))
      as (t & w' & Hrun & Hlive' & _ & Hout); [assumption | simpl; lia |].
    change (Z.of_nat 0) with 0 in Hrun. rewrite Hrun.
    destruct (Hout i ltac:(lia)) as [Hslot Hheap].
    eexists _, _. split; [reflexivity |]. split; [exact Hslot |].
    intros p Hp. specialize (Hheap p Hp). split; [exact Hheap |].
    rewrite Hheap. destruct Hlive as [_ Hall]. apply Hall.
    by apply list_elem_of_lookup_2 in Hp.
Qed.


Lemma silent_bind {A B} (m : M A) (k : A -> M B) :
  (forall w, log_of (m w).1 = []) ->
  (forall a w, log_of (k a w).1 = []) ->
  forall w, log_of (bind m k w).1 = [].
Proof.
  intros Hm Hk w. unfold bind. specialize (Hm w).
  destruct (m w) as [t1 [a w1 |]]; [| assumption].
  specialize (Hk a w1). destruct (k a w1) as [t2 o]. simpl in *.
  unfold log_of in *. by rewrite filter_app, Hm, Hk.
Qed.

Lemma silent_load field w : log_of (load_retstr field w).1 = [].
Proof.
  unfold load_retstr. destruct (_ && _); [| reflexivity].
  by destruct (retstr (config w) !! Z.to_nat field).
Qed.

Lemma silent_store field v w : log_of (store_retstr field v w).1 = [].
Proof. unfold store_retstr. by destruct (_ && _). Qed.

Lemma silent_free p w : log_of (do_free p w).1 = [].
Proof. unfold do_free. destruct p as [q |]; [| reflexivity]. by destruct (heap w !! q). Qed.

Lemma free_loop_silent n : forall k (w : World D L),
  log_of (for_loop n k free_slot w).1 = [].
Proof.
  induction n as [| n IH]; intros k; [reflexivity |].
  simpl. apply silent_bind; [| intros _; apply IH].
  unfold free_slot. apply silent_bind; [apply silent_load |].
  intros [q |]; [| reflexivity].
  apply silent_bind; [apply silent_load | intros p].
  apply silent_bind; [apply silent_free | intros _; apply silent_store].
Qed.

(** X16. FreeResult, SeqID and Free never write to the log, whatever the
    driver answers and however the run ends: they test no status of a
    release or disconnect call, and SeqID reports none of its
    failures. *)
Theorem releases_never_log (res : SQL_result) (id : string) (w : World D L) :
  log_of (SMSDODBC_FreeResult res w).1 = [] /\
  log_of (SMSDODBC_SeqID id w).1 = [] /\
  log_of (SMSDODBC_Free w).1 = [].
Proof.
  split; [| split].
  - unfold SMSDODBC_FreeResult. unfold_ops. forward. reflexivity.
  - unfold SMSDODBC_SeqID. unfold_ops. forward; reflexivity.
  - unfold SMSDODBC_Free, bind, api, get_config. simpl.
    destruct (SQLDisconnect (dbc (config w)) (driver w)) as [[rc1 u1] d1]. simpl.
    destruct (SQLFreeHandle SQL_HANDLE_ENV (env (config w)) d1) as [[rc2 u2] d2]. simpl.
    pose proof (free_loop_silent (Z.to_nat SMSD_ODBC_MAX_RETURN_STRINGS) 0
                  (with_driver (with_driver w d1) d2)) as Hloop.
    destruct (for_loop _ _ _ _) as [t o]. simpl in *.
    destruct o; exact Hloop.
Qed.

(** X17. When the length probe and the allocation of GetString succeed
    but the second SQLGetData fails, GetString returns null and logs the
    diagnostics, after exactly the two driver calls.  The slot of the
    field then holds the newly allocated or resized block, which is live;
    blocks other than this one and the one the slot held before are
    untouched. *)
Theorem GetString_failed_fetch_keeps_block
    (res : SQL_result) (field : Z) (w : World D L) (old : option ptr)
    (rc rc' : SQLRETURN) (b0 bytes init : list Z) (size len : SQLLEN)
    (moved : bool) (d1 d2 : D) (l1 : L) :
  slots_live w ->
  0 <= field <= SMSD_ODBC_MAX_RETURN_STRINGS ->
  retstr (config w) !! Z.to_nat field = Some old ->
  SQLGetData_CHAR (odbc res) (column field) false 0 (driver w) = (rc, (b0, size), d1) ->
  SQL_SUCCEEDED rc = true ->
  size <> SQL_NULL_DATA ->
  match old with
  | None => malloc (uint64 (size + 1)) (libc w) = (Some init, l1)
  | Some _ => realloc (uint64 (size + 1)) (libc w) = (Some (moved, init), l1)
  end ->
  SQLGetData_CHAR (odbc res) (column field) true (size + 1) d1 = (rc', (bytes, len), d2) ->
  SQL_SUCCEEDED rc' = false ->
  exists t p w',
    SMSDODBC_GetString res field w = (t, Ret None w') /\
    error_logged t /\
    api_calls t =
      [(CGetData (odbc res) (column field) SQL_C_CHAR false 0, rc);
       (CGetData (odbc res) (column field) SQL_C_CHAR true (size + 1), rc')] /\
    retstr (config w') = <[Z.to_nat field := Some p]> (retstr (config w)) /\
    is_Some (heap w' !! p) /\
    (forall q, q <> p -> old <> Some q -> heap w' !! q = heap w !! q).
Proof.
  intros [Hdup Hlive] [Hlow Hhigh] Hslot Hprobe Hok Hsize Halloc Hfetch Hfail.
  unfold SMSDODBC_GetString.
  replace (field >? SMSD_ODBC_MAX_RETURN_STRINGS) with false by (symmetry; lia).
  cbv beta iota; erewrite bind_run by (eapply get_chars_probe_run; exact Hprobe).
  cbv beta iota. rewrite Hok. change (negb true) with false. cbv iota.
  replace (size =? SQL_NULL_DATA) with false by (symmetry; by apply Z.eqb_neq).
  cbv iota.
  set (w1 := with_driver w d1).
  cbv beta iota; erewrite bind_run by (by apply (load_retstr_at field old w1)).
  set (p := match old with
            | Some q => if moved then fresh (dom (heap w)) else q
            | None => fresh (dom (heap w))
            end).
  set (h2 := match old with
             | Some q => delete q (heap w)
             | None => heap w
             end).
  assert (exists c t2,
            (match old with
             | Some _ => do arg <- load_retstr field; realloc_ptr arg (size + 1)
             | None => do_malloc (size + 1)
             end) w1 =
            (t2, Ret (Some p) (with_heap (with_libc w1 l1) (<[p := c]> h2))) /\
            api_calls t2 = [] /\ log_of t2 = []) as (c & t2 & Hnew & Hcalls2 & Hlog2).
  { destruct old as [q |].
    - destruct (Hlive q) as [content Hq]; [by apply list_elem_of_lookup_2 in Hslot |].
      eexists _, _. split.
      { erewrite bind_run by (by apply (load_retstr_at field (Some q) w1)).
        cbv beta iota.
        rewrite (do_realloc_run q (size + 1) w1 content moved init l1 Hq Halloc).
        reflexivity. }
      split; reflexivity.
    - eexists _, _. split.
      { by apply (do_malloc_run (size + 1) w1 init l1). }
      split; reflexivity. }
  cbv beta iota; erewrite bind_run by exact Hnew.
  set (w2 := with_heap (with_libc w1 l1) _).
  cbv beta iota; erewrite bind_run by (by apply (store_retstr_at field old (Some p) w2)).
  set (w3 := with_config w2 _).
  assert (Hslot3 : retstr (config w3) !! Z.to_nat field = Some (Some p)).
  { simpl. apply list_lookup_insert_eq. by apply lookup_lt_Some in Hslot. }
  cbv beta iota; erewrite bind_run by (by apply (load_retstr_at field (Some p) w3)).
  cbv beta iota; erewrite bind_run by (by apply (load_retstr_at field (Some p) w3)).
  cbv beta iota; erewrite bind_run
    by (eapply (get_chars_fetch_run _ _ p _ w3); [exact Hfetch | apply lookup_insert_eq]).
  cbv beta iota. rewrite Hfail. change (negb false) with true. cbv iota.
  unfold bind. rewrite LogError_run. unfold ret.
  eexists _, p, _. split; [reflexivity |].
  split.
  { find_error. }
  split.
  { rewrite !api_calls_app, Hcalls2, !api_calls_cons, api_calls_diag_loop. reflexivity. }
  split; [reflexivity |].
  split; [simpl; rewrite lookup_insert_eq; eauto |].
  intros q Hqp Hqold. simpl. rewrite !lookup_insert_ne by congruence.
  subst h2. destruct old as [q0 |]; [| reflexivity].
  apply lookup_delete_ne. congruence.
Qed.

Lemma only_addresses_bind {A B} stmt col (m : M A) (k : A -> M B) :
  only_addresses stmt col m -> (forall a, only_addresses stmt col (k a)) ->
  only_addresses stmt col (bind m k).
Proof.
  intros Hm Hk w. unfold bind. specialize (Hm w).
  destruct (m w) as [t1 [a w1 |]]; simpl in *; [| assumption].
  specialize (Hk a w1). destruct (k a w1) as [t2 o]. simpl in *.
  apply Forall_app. by split.
Qed.

Lemma only_addresses_quiet {A} stmt col (m : M A) :
  quiet m -> only_addresses stmt col m.
Proof.
  intros Hm w. specialize (Hm w). eapply Forall_impl; [exact Hm |].
  intros [] He; try exact I. discriminate He.
Qed.

Lemma only_addresses_LogError stmt col message :
  only_addresses stmt col (SMSDODBC_LogError SQL_HANDLE_STMT stmt message).
Proof.
  intros w. rewrite LogError_run. simpl. constructor; [exact I |].
  generalize (SQLGetDiagRec SQL_HANDLE_STMT stmt (driver w)). generalize 1.
  intros recno answers. revert recno.
  induction answers as [| r rest IH]; intros recno; simpl.
  - by repeat constructor.
  - constructor; [by split |]. apply Forall_app. split.
    + destruct (SQL_SUCCEEDED (diag_ret r)); by repeat constructor.
    + destruct (diag_ret r =? SQL_SUCCESS); [apply IH | constructor].
Qed.

Lemma only_addresses_get_chars stmt col target buflen :
  only_addresses stmt col (get_chars stmt col target buflen).
Proof.
  intros w.
  destruct (get_chars_call stmt col target buflen w) as [-> | (rc & a & w' & ->)];
    by repeat constructor.
Qed.

Lemma only_addresses_fail {A} stmt col message (a : A) :
  only_addresses stmt col (do_ SMSDODBC_LogError SQL_HANDLE_STMT stmt message; ret a).
Proof.
  apply only_addresses_bind; [apply only_addresses_LogError |].
  intros _. apply only_addresses_quiet, quiet_ret.
Qed.

Lemma GetNumber_only_addresses res field :
  only_addresses (odbc res) (column field) (SMSDODBC_GetNumber res field).
Proof.
  unfold SMSDODBC_GetNumber. apply only_addresses_bind.
  - intros w. unfold api.
    destruct (SQLGetData_SLONG _ _ _) as [[rc v] d]. by repeat constructor.
  - intros [rc v]. destruct (negb (SQL_SUCCEEDED rc)).
    + apply only_addresses_fail.
    + apply only_addresses_quiet, quiet_ret.
Qed.

Lemma GetString_only_addresses res field :
  only_addresses (odbc res) (column field) (SMSDODBC_GetString res field).
Proof.
  unfold SMSDODBC_GetString.
  destruct (field >? SMSD_ODBC_MAX_RETURN_STRINGS).
  { apply only_addresses_quiet, quiet_bind; [apply quiet_log | intros; apply quiet_ret]. }
  apply only_addresses_bind; [apply only_addresses_get_chars |].
  intros [rc size]. destruct (negb (SQL_SUCCEEDED rc)); [apply only_addresses_fail |].
  destruct (size =? SQL_NULL_DATA).
  { apply only_addresses_quiet, quiet_bind; [apply quiet_log | intros; apply quiet_ret]. }
  apply only_addresses_bind; [apply only_addresses_quiet, quiet_load |]. intros old.
  apply only_addresses_bind.
  { apply only_addresses_quiet. destruct old; [| apply quiet_malloc].
    apply quiet_bind; [apply quiet_load | intros; apply quiet_realloc_ptr]. }
  intros new.
  apply only_addresses_bind; [apply only_addresses_quiet, quiet_store |]. intros _.
  apply only_addresses_bind; [apply only_addresses_quiet, quiet_load |]. intros [q |].
  2: { apply only_addresses_quiet, quiet_bind;
         [apply quiet_log | intros; apply quiet_ret]. }
  apply only_addresses_bind; [apply only_addresses_quiet, quiet_load |]. intros target.
  apply only_addresses_bind; [apply only_addresses_get_chars |].
  intros [rc' size']. destruct (negb (SQL_SUCCEEDED rc')); [apply only_addresses_fail |].
  apply only_addresses_quiet.
  apply quiet_bind; [apply quiet_load | intros shown].
  apply quiet_bind; [apply quiet_read_string | intros s].
  apply quiet_bind; [apply quiet_log | intros _]. apply quiet_load.
Qed.

Lemma column_in_range field : 0 <= field < 2 ^ 16 - 1 -> column field = field + 1.
Proof.
  intros Hfield. unfold column.
  rewrite (Z.mod_small (field + 1) (2 ^ 32)) by lia. apply Z.mod_small. lia.
Qed.

(** X18. The accessors of a field address one column of one statement.
    For a field index from 0 to 65534, every driver call of GetNumber,
    GetDate, GetString and GetBool, however the run ends, is either an
    SQLGetData on the statement handle of the result for the column
    numbered field + 1, or the retrieval of a diagnostic record of that
    statement handle: they fetch no other column and touch no other
    handle. *)
Theorem accessors_address_one_column (res : SQL_result) (field : Z) :
  0 <= field < 2 ^ 16 - 1 ->
  only_addresses (odbc res) (field + 1) (SMSDODBC_GetNumber res field) /\
  only_addresses (odbc res) (field + 1) (SMSDODBC_GetDate res field) /\
  only_addresses (odbc res) (field + 1) (SMSDODBC_GetString res field) /\
  only_addresses (odbc res) (field + 1) (SMSDODBC_GetBool res field).
Proof.
  intros Hfield. rewrite <- (column_in_range field Hfield).
  split; [apply GetNumber_only_addresses |].
  split; [| split; [apply GetString_only_addresses |]].
  - unfold SMSDODBC_GetDate. apply only_addresses_bind.
    + intros w. unfold api.
      destruct (SQLGetData_TIMESTAMP _ _ _) as [[rc v] d]. by repeat constructor.
    + intros [rc v]. destruct (negb (SQL_SUCCEEDED rc)); [apply only_addresses_fail |].
      intros w. constructor.
  - unfold SMSDODBC_GetBool.
    apply only_addresses_bind; [apply GetNumber_only_addresses |].
    intros n. destruct (n =? -1); [| apply only_addresses_quiet, quiet_ret].
    apply only_addresses_bind; [apply GetString_only_addresses |].
    intros p w. constructor.
Qed.

Lemma free_loop_empty n : forall k (w : World D L),
  (forall i, (k <= i < k + n)%nat -> retstr (config w) !! i = Some None) ->
  for_loop n (Z.of_nat k) free_slot w =
    ((fun i => EvLoad (Z.of_nat i)) <$> seq k n, Ret tt w).
Proof.
  induction n as [| n IH]; intros k w Hempty; [reflexivity |].
  simpl for_loop. erewrite bind_run.
  2: { unfold free_slot. erewrite bind_run.
       2: { apply (load_retstr_at (Z.of_nat k) None w); [lia |].
            rewrite Nat2Z.id. apply Hempty. lia. }
       reflexivity. }
  cbv beta iota. replace (Z.of_nat k + 1) with (Z.of_nat (S k)) by lia.
  rewrite IH by (intros i Hi; apply Hempty; lia). reflexivity.
Qed.

Lemma free_loop_handles n : forall k (w w' : World D L) t u,
  for_loop n k free_slot w = (t, Ret u w') ->
  env (config w') = env (config w) /\ dbc (config w') = dbc (config w).
Proof.
  induction n as [| n IH]; intros k w w' t u; simpl.
  - by intros (_ & -> & _)%ret_inv.
  - intros (t1 & [] & w1 & t2 & Hslot & Hrest & _)%bind_Ret_inv.
    apply IH in Hrest as [-> ->]. clear IH.
    unfold free_slot in Hslot.
    apply bind_Ret_inv in Hslot as (t3 & p & w2 & t4 & Hload & Hk & _).
    apply load_retstr_inv in Hload as [-> _].
    destruct p as [q |]; [| by apply ret_inv in Hk as (_ & -> & _)].
    apply bind_Ret_inv in Hk as (t5 & p' & w3 & t6 & Hload & Hk & _).
    apply load_retstr_inv in Hload as [-> _].
    apply bind_Ret_inv in Hk as (t7 & [] & w4 & t8 & Hfree & Hstore & _).
    unfold store_retstr in Hstore. destruct (_ && _); [| discriminate].
    injection Hstore as _ <-. simpl.
    unfold do_free in Hfree. destruct p' as [q' |].
    + destruct (heap w !! q'); [| discriminate]. by injection Hfree as _ <-.
    + by injection Hfree as _ <-.
Qed.

(** X19. Free clears the slots but not the handles.  On an array of
    SMSD_ODBC_MAX_RETURN_STRINGS slots holding distinct live blocks, Free
    returns, and a second Free returns too: it frees no memory, reads
    every slot once, and changes neither the heap nor the configuration,
    but it passes to SQLDisconnect and SQLFreeHandle the same connection
    and environment handles that the first Free has already handed
    over. *)
Theorem Free_twice_repeats_the_release (w : World D L) :
  length (retstr (config w)) = Z.to_nat SMSD_ODBC_MAX_RETURN_STRINGS ->
  slots_live w ->
  exists t1 w1 rc1 rc2 w2,
    SMSDODBC_Free w = (t1, Ret tt w1) /\
    SMSDODBC_Free w1 =
      (EvCall (CDisconnect (dbc (config w))) rc1 ::
       EvCall (CFreeHandle SQL_HANDLE_ENV (env (config w))) rc2 ::
       ((fun i => EvLoad (Z.of_nat i)) <$>
          seq 0 (Z.to_nat SMSD_ODBC_MAX_RETURN_STRINGS)),
       Ret tt w2) /\
    heap w2 = heap w1 /\ config w2 = config w1.
Proof.
  intros Hlen Hlive.
  destruct (Free_releases w Hlen Hlive) as (t1 & w1 & Hrun & Hslots & _).
  assert (Hhandles : env (config w1) = env (config w) /\ dbc (config w1) = dbc (config w)).
  { revert Hrun. unfold SMSDODBC_Free, bind, api, get_config. simpl.
    destruct (SQLDisconnect (dbc (config w)) (driver w)) as [[rc1 u1] d1]. simpl.
    destruct (SQLFreeHandle SQL_HANDLE_ENV (env (config w)) d1) as [[rc2 u2] d2]. simpl.
    destruct (for_loop _ _ _ _) as [t [[] w' |]] eqn:Hloop; [| discriminate].
    intros [= _ <-]. by apply free_loop_handles in Hloop. }
  destruct Hhandles as [Henv Hdbc].
  exists t1, w1. rewrite Hrun.
  unfold SMSDODBC_Free, bind, api, get_config. simpl. rewrite Hdbc.
  destruct (SQLDisconnect (dbc (config w)) (driver w1)) as [[rc1 u1] d1]. simpl.
  rewrite Henv.
  destruct (SQLFreeHandle SQL_HANDLE_ENV (env (config w)) d1) as [[rc2 u2] d2]. simpl.
  change 0 with (Z.of_nat 0).
  rewrite free_loop_empty.
  - eexists _, _, _. split; [reflexivity |]. split; [reflexivity |]. split; reflexivity.
  - intros i Hi. simpl. rewrite Hslots. apply lookup_replicate_2. lia.
Qed.

Lemma init_loop_upto n : forall k (w : World D L),
  (k + n <= length (retstr (config w)))%nat ->
  exists slots,
    for_loop n (Z.of_nat k) (fun field => store_retstr field None) w =
      ((fun i => EvStore (Z.of_nat i) None) <$> seq k n,
       Ret tt (with_config w (set_retstr (config w) slots))) /\
    length slots = length (retstr (config w)) /\
    (forall i, (k <= i < k + n)%nat -> slots !! i = Some None) /\
    (forall i, (i < k \/ k + n <= i)%nat -> slots !! i = retstr (config w) !! i).
Proof.
  induction n as [| n IH]; intros k w Hlen.
  - exists (retstr (config w)). simpl. unfold ret.
    split; [by destruct w as [? ? ? []] |]. split; [reflexivity |].
    split; [intros i Hi; lia | reflexivity].
  - destruct (lookup_lt_is_Some_2 (retstr (config w)) k ltac:(lia)) as [x Hk].
    set (w1 := with_config w (set_retstr (config w) (<[k := None]> (retstr (config w))))).
    destruct (IH (S k) w1) as (slots & Hrun & Hlength & Hin & Hout).
    { simpl. rewrite length_insert. lia. }
    exists slots. simpl for_loop.
    erewrite bind_run.
    2: { apply (store_retstr_at (Z.of_nat k) x None w); [lia | by rewrite Nat2Z.id]. }
    rewrite Nat2Z.id. fold w1. cbv beta iota.
    replace (Z.of_nat k + 1) with (Z.of_nat (S k)) by lia. rewrite Hrun.
    split; [reflexivity |].
    split; [by rewrite Hlength; simpl; rewrite length_insert |].
    split.
    + intros i Hi. destruct (decide (i = k)) as [-> | Hne].
      * rewrite Hout by lia. simpl. apply list_lookup_insert_eq. lia.
      * apply Hin. lia.
    + intros i Hi. rewrite Hout by lia. simpl. apply list_lookup_insert_ne. lia.
Qed.

Lemma Connect_run_upto (w : World D L) :
  (Z.to_nat SMSD_ODBC_MAX_RETURN_STRINGS <= length (retstr (config w)))%nat ->
  exists t r w',
    SMSDODBC_Connect w =
      (((fun i => EvStore (Z.of_nat i) None) <$>
          seq 0 (Z.to_nat SMSD_ODBC_MAX_RETURN_STRINGS)) ++ t, Ret r w') /\
    Forall (fun e => is_slot_access e = false) t /\
    Forall (fun e => is_call e = false)
      ((fun i => EvStore (Z.of_nat i) None) <$>
         seq 0 (Z.to_nat SMSD_ODBC_MAX_RETURN_STRINGS)) /\
    length (retstr (config w')) = length (retstr (config w)) /\
    heap w' = heap w /\
    (forall i, (i < Z.to_nat SMSD_ODBC_MAX_RETURN_STRINGS)%nat ->
       retstr (config w') !! i = Some None) /\
    (forall i, (Z.to_nat SMSD_ODBC_MAX_RETURN_STRINGS <= i)%nat ->
       retstr (config w') !! i = retstr (config w) !! i).
Proof.
  intros Hlen.
  destruct (init_loop_upto (Z.to_nat SMSD_ODBC_MAX_RETURN_STRINGS) 0 w)
    as (slots & Hloop & Hlength & Hin & Hout); [simpl; lia |].
  change (Z.of_nat 0) with 0 in Hloop.
  unfold SMSDODBC_Connect. unfold bind at 1. rewrite Hloop.
  assert (Hstores : Forall (fun e => is_call e = false)
            ((fun i => EvStore (Z.of_nat i) None) <$>
               seq 0 (Z.to_nat SMSD_ODBC_MAX_RETURN_STRINGS))).
  { apply Forall_fmap, Forall_forall. reflexivity. }
  revert Hstores. generalize ((fun i => EvStore (Z.of_nat i) None) <$>
                      seq 0 (Z.to_nat SMSD_ODBC_MAX_RETURN_STRINGS)).
  intros stores Hstores.
  unfold bind, api, put_env, put_dbc, get_config, SMSDODBC_LogError, SMSD_Log, emit, ret.
  forward.
  all: eexists _, _, _; (split; [reflexivity |]); (split; [| split; [exact Hstores |]]).
  all: try (repeat first [ apply Forall_nil_2 | apply Forall_cons; split; [reflexivity |]
                    | apply Forall_app; split | apply diag_loop_no_slot_access ]).
  all: simpl; split; [exact Hlength |]; split; [reflexivity |];
       split; [intros i Hi; apply Hin; lia | intros i Hi; apply Hout; lia].
Qed.

Lemma free_slot_spec (w : World D L) (k : nat) (x : option ptr) :
  slots_live w ->
  retstr (config w) !! k = Some x ->
  exists t w',
    free_slot (Z.of_nat k) w = (t, Ret tt w') /\
    slots_live w' /\
    retstr (config w') = <[k := None]> (retstr (config w)) /\
    heap w' = match x with Some q => delete q (heap w) | None => heap w end /\
    (forall q, x = Some q -> EvFree q ∈ t) /\
    Forall (fun e => is_call e = false) t.
Proof.
  intros Hlive Hk. unfold free_slot.
  assert (Hat : retstr (config w) !! Z.to_nat (Z.of_nat k) = Some x) by by rewrite Nat2Z.id.
  erewrite bind_run by (apply (load_retstr_at (Z.of_nat k) x w); [lia | exact Hat]).
  destruct x as [q |].
  - destruct Hlive as [Hdup Hall].
    destruct (Hall q) as [c Hq]; [by apply list_elem_of_lookup_2 in Hk |].
    cbv beta iota.
    erewrite bind_run by (apply (load_retstr_at (Z.of_nat k) (Some q) w); [lia | exact Hat]).
    cbv beta iota. erewrite bind_run by (unfold do_free; rewrite Hq; reflexivity).
    cbv beta iota.
    rewrite (store_retstr_at (Z.of_nat k) (Some q) None
               (with_heap w (delete q (heap w))) ltac:(lia) Hat).
    rewrite Nat2Z.id. eexists _, _. split; [reflexivity |].
    split; [exact (slots_live_after_free w k q (conj Hdup Hall) Hk) |].
    split; [reflexivity |]. split; [reflexivity |].
    split; [| repeat constructor].
    intros q' [= <-]. rewrite !elem_of_app, !elem_of_cons. auto.
  - cbv beta iota. eexists _, _. split; [reflexivity |].
    split; [assumption |]. split; [symmetry; by apply list_insert_id |].
    split; [reflexivity |]. split; [discriminate | repeat constructor].
Qed.

Lemma free_loop_upto n : forall k (w : World D L),
  slots_live w ->
  (k + n <= length (retstr (config w)))%nat ->
  exists t w',
    for_loop n (Z.of_nat k) free_slot w = (t, Ret tt w') /\
    slots_live w' /\
    length (retstr (config w')) = length (retstr (config w)) /\
    (forall i, (k <= i < k + n)%nat -> retstr (config w') !! i = Some None) /\
    (forall i q, (k <= i < k + n)%nat -> retstr (config w) !! i = Some (Some q) ->
       heap w' !! q = None /\ EvFree q ∈ t) /\
    (forall i, (i < k \/ k + n <= i)%nat ->
       retstr (config w') !! i = retstr (config w) !! i /\
       forall p, retstr (config w) !! i = Some (Some p) -> heap w' !! p = heap w !! p) /\
    (forall p, heap w !! p = None -> heap w' !! p = None) /\
    Forall (fun e => is_call e = false) t.
Proof.
  induction n as [| n IH]; intros k w Hlive Hlen.
  - exists [], w. simpl. split; [reflexivity |]. split; [assumption |].
    split; [reflexivity |]. split; [intros i Hi; lia |].
    split; [intros i q Hi; lia |]. split; [by split |]. split; [auto | constructor].
  - destruct (lookup_lt_is_Some_2 (retstr (config w)) k ltac:(lia)) as [x Hk].
    destruct (free_slot_spec w k x Hlive Hk)
      as (t1 & w1 & Hrun1 & Hlive1 & Hslots1 & Hheap1 & Hfreed1 & Hquiet1).
    destruct (IH (S k) w1 Hlive1)
      as (t2 & w2 & Hrun2 & Hlive2 & Hlen2 & Hin & Hfreed & Hout & Hgone & Hquiet2).
    { rewrite Hslots1, length_insert. lia. }
    simpl for_loop. erewrite bind_run by exact Hrun1. cbv beta iota.
    replace (Z.of_nat k + 1) with (Z.of_nat (S k)) by lia. rewrite Hrun2.
    eexists _, _. split; [reflexivity |]. split; [assumption |].
    split; [by rewrite Hlen2, Hslots1, length_insert |].
    assert (Hdistinct : forall i p, i <> k -> retstr (config w) !! i = Some (Some p) ->
                                    x <> Some p).
    { intros i p Hne Hp ->. apply Hne.
      destruct Hlive as [Hdup _]. by apply (slots_hold_distinct _ _ _ p Hdup). }
    split; [| split; [| split; [| split]]].
    + intros i Hi. destruct (decide (i = k)) as [-> | Hne].
      * destruct (Hout k ltac:(lia)) as [-> _]. rewrite Hslots1.
        apply list_lookup_insert_eq. lia.
      * apply Hin. lia.
    + intros i q Hi Hq. destruct (decide (i = k)) as [-> | Hne].
      * rewrite Hk in Hq. injection Hq as ->.
        split; [| apply elem_of_app; left; by apply Hfreed1].
        apply Hgone. rewrite Hheap1. apply lookup_delete_eq.
      * destruct (Hfreed i q ltac:(lia)) as [Hnone Hev].
        { by rewrite Hslots1, list_lookup_insert_ne by congruence. }
        split; [assumption | apply elem_of_app; by right].
    + intros i Hi. destruct (Hout i ltac:(lia)) as [Hslot Hheap].
      assert (Hne : k <> i) by lia.
      rewrite Hslots1, list_lookup_insert_ne in Hslot by assumption.
      split; [assumption |]. intros p Hp.
      rewrite Hheap by (by rewrite Hslots1, list_lookup_insert_ne by assumption).
      rewrite Hheap1. destruct x as [q |]; [| reflexivity].
      apply lookup_delete_ne. intros ->. by apply (Hdistinct i p).
    + intros p Hp. apply Hgone. rewrite Hheap1. destruct x as [q |]; [| assumption].
      apply lookup_delete_None. by right.
    + apply Forall_app. by split.
Qed.

(** C9. The loops of Connect and Free cover the slots 0 to
    SMSD_ODBC_MAX_RETURN_STRINGS - 1 and no other, on an array of any
    size.  Connect does store null in those slots, in order, before its
    first call of the driver, and touches no slot afterwards; Free, when
    the slots hold distinct live blocks, does release the block of each
    of those slots and store null in it.  But a slot at index
    SMSD_ODBC_MAX_RETURN_STRINGS, which the bound test of GetString
    admits, or beyond, that holds a pointer still holds it when Connect
    returns and when Free returns, and Free leaves its block allocated:
    it is not the case that every slot is empty after Connect, nor after
    Free. *)
Theorem Connect_and_Free_miss_the_slot_at_the_bound
    (w : World D L) (j : nat) (p : ptr) :
  (Z.to_nat SMSD_ODBC_MAX_RETURN_STRINGS <= j)%nat ->
  retstr (config w) !! j = Some (Some p) ->
  slots_live w ->
  (exists t r w',
     SMSDODBC_Connect w =
       (((fun i => EvStore (Z.of_nat i) None) <$>
           seq 0 (Z.to_nat SMSD_ODBC_MAX_RETURN_STRINGS)) ++ t, Ret r w') /\
     Forall (fun e => is_slot_access e = false) t /\
     (forall i, (i < Z.to_nat SMSD_ODBC_MAX_RETURN_STRINGS)%nat ->
        retstr (config w') !! i = Some None) /\
     retstr (config w') !! j = Some (Some p) /\
     heap w' = heap w) /\
  (exists t w',
     SMSDODBC_Free w = (t, Ret tt w') /\
     (forall i, (i < Z.to_nat SMSD_ODBC_MAX_RETURN_STRINGS)%nat ->
        retstr (config w') !! i = Some None) /\
     (forall i q, (i < Z.to_nat SMSD_ODBC_MAX_RETURN_STRINGS)%nat ->
        retstr (config w) !! i = Some (Some q) ->
        heap w' !! q = None /\ EvFree q ∈ t) /\
     retstr (config w') !! j = Some (Some p) /\
     heap w' !! p = heap w !! p /\
     is_Some (heap w' !! p)) /\
  ~ leaves_every_slot_empty SMSDODBC_Connect w /\
  ~ leaves_every_slot_empty SMSDODBC_Free w.
Proof.
  intros Hj Hp Hlive.
  assert (Hlen : (Z.to_nat SMSD_ODBC_MAX_RETURN_STRINGS <= length (retstr (config w)))%nat).
  { apply lookup_lt_Some in Hp. lia. }
  assert (Hfull : forall slots : list (option ptr),
            slots !! j = Some (Some p) -> ~ all_empty slots).
  { intros slots Hslot Hempty. unfold all_empty in Hempty.
    rewrite Forall_lookup in Hempty. by specialize (Hempty j (Some p) Hslot). }
  destruct (Connect_run_upto w Hlen)
    as (tc & rc & wc & Hconnect & Hquiet & _ & _ & Hheapc & Hinc & Houtc).
  assert (Hjc : retstr (config wc) !! j = Some (Some p)) by (by rewrite Houtc).
  assert (Hfree : exists t w',
            SMSDODBC_Free w = (t, Ret tt w') /\
            (forall i, (i < Z.to_nat SMSD_ODBC_MAX_RETURN_STRINGS)%nat ->
               retstr (config w') !! i = Some None) /\
            (forall i q, (i < Z.to_nat SMSD_ODBC_MAX_RETURN_STRINGS)%nat ->
               retstr (config w) !! i = Some (Some q) ->
               heap w' !! q = None /\ EvFree q ∈ t) /\
            retstr (config w') !! j = Some (Some p) /\
            heap w' !! p = heap w !! p).
  { unfold SMSDODBC_Free, bind, api, get_config. simpl.
    destruct (SQLDisconnect (dbc (config w)) (driver w)) as [[rc1 u1] d1]. simpl.
    destruct (SQLFreeHandle SQL_HANDLE_ENV (env (config w)) d1) as [[rc2 u2] d2]. simpl.
    destruct (free_loop_upto (Z.to_nat SMSD_ODBC_MAX_RETURN_STRINGS) 0
                (with_driver (with_driver w d1) d2))
      as (t & w' & Hrun & _ & _ & Hin & Hfreed & Hout & _); [assumption | simpl; lia |].
    change (Z.of_nat 0) with 0 in Hrun. rewrite Hrun.
    destruct (Hout j ltac:(lia)) as [Hslot Hheap]. simpl in *.
    eexists _, _. split; [reflexivity |].
    split; [intros i Hi; apply Hin; lia |].
    split.
    - intros i q Hi Hq. destruct (Hfreed i q ltac:(lia) Hq) as [Hnone Hev].
      split; [assumption |]. rewrite !elem_of_cons. auto.
    - split; [by rewrite Hslot | by apply Hheap]. }
  destruct Hfree as (tf & wf & Hfree & Hinf & Hfreed & Hjf & Hheapf).
  split; [| split; [| split]].
  - exists tc, rc, wc. auto.
  - exists tf, wf. split; [assumption |]. split; [assumption |].
    split; [assumption |]. split; [assumption |]. split; [assumption |].
    rewrite Hheapf. destruct Hlive as [_ Hall]. apply Hall.
    by apply list_elem_of_lookup_2 in Hp.
  - intros Hclaim. exact (Hfull _ Hjc (Hclaim _ _ _ Hconnect)).
  - intros Hclaim. exact (Hfull _ Hjf (Hclaim _ _ _ Hfree)).
Qed.

End Adapter.

Arguments Ret {D L A} a w.
Arguments Undefined {D L A}.

(** ** Runs on the scripted collaborators *)

Import Scripted.

(** C1 at field 31 of an adapter with 30 slots. *)
Lemma GetString_too_many_fields_witness :
  30 < 31 /\
  exists t,
    SMSDODBC_GetString 30 {| odbc := 7 |} 31 (world [] [] [] (replicate 30 None) ∅) =
      (t, Ret None (world [] [] [] (replicate 30 None) ∅)) /\
    t = [EvLog DEBUG_ERROR "Field %d returning NULL, too many fields!" [ArgInt 31]] /\
    Forall (fun e => is_slot_access e = false) t.
Proof.
  split; [lia |].
  apply (GetString_too_many_fields 30 {| odbc := 7 |} 31). lia.
Defined.

(** C3 fails as stated: the numeric fetch succeeds with -1, which is not
    zero, yet GetBool fetches the string, here the text -1, and returns
    what the parser makes of it, false. *)
Lemma GetBool_fetched_minus_one :
  ~ GetBool_follows_fetch 30 one_or_true {| odbc := 7 |} 0
      (world [long (-1); chars SQL_SUCCESS [] 2; chars SQL_SUCCESS [45; 49; 0] 2]
             [] [Some []] (replicate 30 None) ∅).
Proof.
  intros Hclaim. destruct (Hclaim eq_refl) as (t & r & w' & Hrun & Hiff & _).
  vm_compute in Hrun. injection Hrun as _ <- _.
  assert (Hr : FALSE = TRUE) by (apply Hiff; vm_compute; discriminate).
  discriminate Hr.
Qed.

(** C4 at a string with a double quote and a backslash in it. *)
Lemma QuoteString_roundtrip_witness :
  strlen [97; 34; 98; 92; 0] = Some 4%nat /\
  Z.of_nat 4 * 2 + 3 < 2 ^ 64 /\
  malloc (uint64 (Z.of_nat 4 * 2 + 3)) (libc (world [] [] [Some []] [] ∅)) =
    (Some [], {| allocs := [] |}) /\
  exists t p w',
    SMSDODBC_QuoteString [97; 34; 98; 92; 0] (world [] [] [Some []] [] ∅) =
      (t, Ret p w') /\
    t = [EvMalloc (Z.of_nat 4 * 2 + 3) (Some p)] /\
    heap (world [] [] [Some []] [] ∅) !! p = None /\
    (forall q, q <> p -> heap w' !! q = heap (world [] [] [Some []] [] ∅) !! q) /\
    deref w' (Some p) = Some (quoted (c_str [97; 34; 98; 92; 0])) /\
    unescape (quoted (c_str [97; 34; 98; 92; 0])) = Some (c_str [97; 34; 98; 92; 0]).
Proof.
  split; [reflexivity |]. split; [reflexivity |]. split; [reflexivity |].
  apply (QuoteString_roundtrip [97; 34; 98; 92; 0] 4 (world [] [] [Some []] [] ∅)
           [] {| allocs := [] |}); reflexivity.
Defined.

(** The same run, evaluated. *)
Example QuoteString_example :
  exists p w',
    SMSDODBC_QuoteString [97; 34; 98; 92; 0] (world [] [] [Some []] [] ∅) =
      ([EvMalloc 11 (Some p)], Ret p w') /\
    deref w' (Some p) = Some [34; 97; 92; 34; 98; 92; 92; 34].
Proof. eexists _, _. split; vm_compute; reflexivity. Qed.

(** C5 fails as stated: when the allocation of the statement handle
    fails, SeqID returns 0 and logs nothing. *)
Lemma SeqID_fails_silently :
  ~ reports_every_failure (D := Driver) (L := Clib) (SMSDODBC_SeqID "id").
Proof.
  intros Hclaim. specialize (Hclaim (world [] [] [] [] ∅)).
  vm_compute in Hclaim. destruct Hclaim as [Hdiag _].
  destruct (Hdiag eq_refl eq_refl) as (m & ty & h & answers & rest & Heq).
  discriminate Heq.
Qed.

(** The run behind it. *)
Example SeqID_silent_run :
  SMSDODBC_SeqID "id" (world [] [] [] [] ∅) =
    ([EvCall (CAllocHandle SQL_HANDLE_STMT 0) SQL_ERROR], Ret 0 (world [] [] [] [] ∅)).
Proof. reflexivity. Qed.

(** C6 fails on the code: of the timestamp 2011-01-15 10:30:00, fetched
    with success in a process that keeps UTC, GetDate returns the time of
    3911-02-15 10:30:00, not 1295087400, because it stores the year and
    the month in [tm_year] and [tm_mon] without the offsets of
    [struct tm]. *)
Theorem GetDate_misreads_year_and_month :
  SMSDODBC_GetDate false {| odbc := 7 |} 0
      (world [time (timestamp 2011 1 15 10 30 0)] [] [] [] ∅) =
    ([EvCall (CGetData 7 1 SQL_C_TYPE_TIMESTAMP true 0) SQL_SUCCESS],
     Ret 61255909800 (world [] [] [] [] ∅)) /\
  local_time_of false (timestamp 2011 1 15 10 30 0) {| allocs := [] |} = 1295087400 /\
  mktime_utc {| tm_sec := 0; tm_min := 30; tm_hour := 10; tm_mday := 15;
                tm_mon := 1; tm_year := 3911 - 1900; tm_isdst := -1 |} = 61255909800 /\
  ~ GetDate_converts false {| odbc := 7 |} 0
      (world [time (timestamp 2011 1 15 10 30 0)] [] [] [] ∅).
Proof.
  split; [reflexivity |]. split; [reflexivity |]. split; [reflexivity |].
  intros (t & r & w' & Hrun & Hok & _).
  vm_compute in Hrun. injection Hrun as _ <- _.
  specialize (Hok eq_refl). vm_compute in Hok. discriminate Hok.
Qed.

(** C9 with the bound 3 on an array of four slots: GetString fetches the
    string Alice for field 3, which its bound test admits, and the slot
    still holds the block after Free and after Connect. *)
Lemma Connect_and_Free_miss_the_slot_at_the_bound_witness :
  exists t0 p w,
    SMSDODBC_GetString 3 {| odbc := 7 |} 3
      (world [chars SQL_SUCCESS [] 5; chars SQL_SUCCESS [65; 108; 105; 99; 101; 0] 5]
             [] [Some []] (replicate 4 None) ∅) = (t0, Ret (Some p) w) /\
    (exists t w',
       SMSDODBC_Free 3 w = (t, Ret tt w') /\
       retstr (config w') !! 3%nat = Some (Some p) /\
       deref w' (Some p) = Some [65; 108; 105; 99; 101]) /\
    ~ leaves_every_slot_empty (SMSDODBC_Free 3) w /\
    ~ leaves_every_slot_empty (SMSDODBC_Connect 3) w.
Proof.
  eexists _, _, _. split; [vm_compute; reflexivity |].
  match goal with
  | |- context [leaves_every_slot_empty (SMSDODBC_Free 3) ?w] =>
      destruct (Connect_and_Free_miss_the_slot_at_the_bound 3 w 3%nat 1%positive)
        as (_ & (t & w' & Hfree & _ & _ & Hslot & Hheap & _) & Hconnect & Hnot)
  end.
  - simpl. lia.
  - reflexivity.
  - split.
    + simpl. apply NoDup_singleton.
    + intros q Hq. simpl in Hq.
      apply elem_of_cons in Hq as [[=] | Hq].
      apply elem_of_cons in Hq as [[=] | Hq].
      apply elem_of_cons in Hq as [[=] | Hq].
      apply list_elem_of_singleton in Hq as [= ->]. by eexists.
  - split; [| by split].
    exists t, w'. split; [exact Hfree |]. split; [exact Hslot |].
    unfold deref. simpl. rewrite Hheap. reflexivity.
Defined.

(** C10 after a fetch of the string Alice into slot 1. *)
Lemma FreeResult_keeps_returned_strings_witness :
  exists t0 w,
    SMSDODBC_GetString 30 {| odbc := 7 |} 1
      (world [chars SQL_SUCCESS [] 5; chars SQL_SUCCESS [65; 108; 105; 99; 101; 0] 5;
              status SQL_SUCCESS]
             [] [Some []] (replicate 30 None) ∅) = (t0, Ret (Some 1%positive) w) /\
    exists rc w',
      SMSDODBC_FreeResult {| odbc := 7 |} w =
        ([EvCall (CFreeHandle SQL_HANDLE_STMT 7) rc], Ret tt w') /\
      config w' = config w /\ heap w' = heap w /\ libc w' = libc w /\
      retstr (config w') !! Z.to_nat 1 = Some (Some 1%positive) /\
      is_Some (heap w' !! 1%positive) /\
      deref w' (Some 1%positive) = deref w (Some 1%positive).
Proof.
  eexists _, _. split; [vm_compute; reflexivity |].
  eapply (FreeResult_keeps_returned_strings 30 {| odbc := 7 |} {| odbc := 7 |} 1
            (world [chars SQL_SUCCESS [] 5;
                    chars SQL_SUCCESS [65; 108; 105; 99; 101; 0] 5;
                    status SQL_SUCCESS]
                   [] [Some []] (replicate 30 None) ∅)).
  vm_compute. reflexivity.
Defined.


(** The index equal to SMSD_ODBC_MAX_RETURN_STRINGS passes the test of
    GetString: on an array of that many slots the operation goes on to
    read the element one past the end. *)
Example GetString_at_the_bound :
  SMSDODBC_GetString 30 {| odbc := 7 |} 30
      (world [chars SQL_SUCCESS [] 5] [] [Some []] (replicate 30 None) ∅) =
    ([EvCall (CGetData 7 31 SQL_C_CHAR false 0) SQL_SUCCESS; EvLoad 30], Undefined).
Proof. vm_compute. reflexivity. Qed.

(** The scenario of the specification: Connect and Query succeed, the
    first NextRow gives a row whose fields are 42 and Alice, the second
    NextRow reports the end without a log line, then FreeResult and Free.
    The only line logged is the trace of the returned string, and Free
    leaves no slot and no block behind. *)
Example session_example :
  exists t w',
    session 30 "SELECT id,name FROM t"
      (world [handle 1; status SQL_SUCCESS; handle 2; status SQL_SUCCESS;
              handle 3; status SQL_SUCCESS; status SQL_SUCCESS; long 42;
              chars SQL_SUCCESS [] 5;
              chars SQL_SUCCESS [65; 108; 105; 99; 101; 0] 5;
              status SQL_NO_DATA; status SQL_SUCCESS; status SQL_SUCCESS;
              status SQL_SUCCESS]
             [] [Some []] (replicate 30 None) ∅) =
      (t, Ret (42, [65; 108; 105; 99; 101], 0) w') /\
    log_of t =
      [EvLog DEBUG_INFO fmt_returning_string
         [ArgInt 1; ArgBytes [65; 108; 105; 99; 101]]] /\
    retstr (config w') = replicate 30 None /\
    heap w' = ∅.
Proof.
  eexists _, _. split; [vm_compute; reflexivity |].
  split; [vm_compute; reflexivity |].
  split; vm_compute; reflexivity.
Qed.

(** Two more failures that go unreported: the allocation of the statement
    handle in Query, and, as far as records go, any failure for which the
    driver has no diagnostic record, where the only line logged is the
    one that opens the diagnostics. *)
Example Query_allocation_fails_silently :
  SMSDODBC_Query "SELECT 1" (world [] [] [] [] ∅) =
    ([EvCall (CAllocHandle SQL_HANDLE_STMT 0) SQL_ERROR],
     Ret (SQL_FAIL, {| odbc := 0 |}) (world [] [] [] [] ∅)).
Proof. reflexivity. Qed.

Example NextRow_error_without_records :
  SMSDODBC_NextRow {| odbc := 7 |} (world [] [] [] [] ∅) =
    ([EvCall (CFetch 7) SQL_ERROR;
      EvLog DEBUG_ERROR "%s, ODBC diagnostics:" [ArgStr "SQLFetch failed"];
      EvCall (CGetDiagRec SQL_HANDLE_STMT 7 1) SQL_NO_DATA],
     Ret 0 (world [] [] [] [] ∅)).
Proof. reflexivity. Qed.

(** ** Runs of the further properties *)

(** X1 on a fetch into an adapter of 30 empty slots. *)
Lemma slots_stay_live_witness :
  exists t r w',
    SMSDODBC_GetString 30 {| odbc := 7 |} 1
      (world [chars SQL_SUCCESS [] 5; chars SQL_SUCCESS [65; 108; 105; 99; 101; 0] 5]
             [] [Some []] (replicate 30 None) ∅) = (t, Ret r w') /\
    slots_live w' /\
    length (retstr (config w')) = 30%nat.
Proof.
  eexists _, _, _. split; [vm_compute; reflexivity |].
  eapply (proj1 (slots_stay_live 30 false one_or_true {| odbc := 7 |} 1 "" "" []))
    with (w := world [chars SQL_SUCCESS [] 5;
                      chars SQL_SUCCESS [65; 108; 105; 99; 101; 0] 5]
                     [] [Some []] (replicate 30 None) ∅).
  - apply slots_live_replicate with (n := 30%nat). reflexivity.
  - vm_compute. reflexivity.
Defined.

(** X2 on the strings Alice and Bob, fetched into the slots of fields 1
    and 2. *)
Lemma strings_of_distinct_fields_coexist_witness :
  exists t1 p1 w1 t2 r2 w2,
    SMSDODBC_GetString 30 {| odbc := 7 |} 1
      (world [chars SQL_SUCCESS [] 5; chars SQL_SUCCESS [65; 108; 105; 99; 101; 0] 5;
              chars SQL_SUCCESS [] 3; chars SQL_SUCCESS [66; 111; 98; 0] 3]
             [] [Some []; Some []] (replicate 30 None) ∅) = (t1, Ret (Some p1) w1) /\
    SMSDODBC_GetString 30 {| odbc := 7 |} 2 w1 = (t2, Ret r2 w2) /\
    retstr (config w2) !! Z.to_nat 1 = Some (Some p1) /\
    is_Some (deref w2 (Some p1)) /\
    deref w2 (Some p1) = deref w1 (Some p1) /\
    r2 <> Some p1.
Proof.
  eexists _, _, _, _, _, _. split; [vm_compute; reflexivity |].
  split; [vm_compute; reflexivity |].
  eapply (strings_of_distinct_fields_coexist 30 {| odbc := 7 |} {| odbc := 7 |} 1 2
            (world [chars SQL_SUCCESS [] 5;
                    chars SQL_SUCCESS [65; 108; 105; 99; 101; 0] 5;
                    chars SQL_SUCCESS [] 3; chars SQL_SUCCESS [66; 111; 98; 0] 3]
                   [] [Some []; Some []] (replicate 30 None) ∅)).
  - apply slots_live_replicate with (n := 30%nat). reflexivity.
  - lia.
  - vm_compute. reflexivity.
  - vm_compute. reflexivity.
Defined.

(** X3 on the string Alice, fetched into the empty slot of field 1. *)
Lemma GetString_fetches_into_empty_slot_witness :
  exists t p w',
    SMSDODBC_GetString 30 {| odbc := 7 |} 1
      (world [chars SQL_SUCCESS [] 5; chars SQL_SUCCESS [65; 108; 105; 99; 101; 0] 5]
             [] [Some []] (replicate 30 None) ∅) = (t, Ret (Some p) w') /\
    deref w' (Some p) = Some [65; 108; 105; 99; 101] /\
    log_of t =
      [EvLog DEBUG_INFO fmt_returning_string
         [ArgInt 1; ArgBytes [65; 108; 105; 99; 101]]].
Proof.
  destruct (GetString_fetches_into_empty_slot 30 {| odbc := 7 |} 1
              (world [chars SQL_SUCCESS [] 5;
                      chars SQL_SUCCESS [65; 108; 105; 99; 101; 0] 5]
                     [] [Some []] (replicate 30 None) ∅)
              SQL_SUCCESS SQL_SUCCESS [] [65; 108; 105; 99; 101] [] [] 5 5
              {| script := [chars SQL_SUCCESS [65; 108; 105; 99; 101; 0] 5]; diags := [] |}
              {| script := []; diags := [] |} {| allocs := [] |})
    as (t & p & w' & Hrun & _ & Hderef & _ & _ & Hlog & _).
  - lia.
  - reflexivity.
  - reflexivity.
  - reflexivity.
  - discriminate.
  - reflexivity.
  - reflexivity.
  - reflexivity.
  - repeat constructor; discriminate.
  - simpl. lia.
  - exists t, p, w'. auto.
Defined.

(** X4 on a slot that holds a block of one byte: the C library of the
    script grows it in place. *)
Lemma GetString_refetch_replaces_block_witness :
  exists t w',
    SMSDODBC_GetString 30 {| odbc := 7 |} 1
      (world [chars SQL_SUCCESS [] 5; chars SQL_SUCCESS [65; 108; 105; 99; 101; 0] 5]
             [] [Some []] (None :: Some 1%positive :: replicate 28 None)
             {[1%positive := [0]]}) = (t, Ret (Some 1%positive) w') /\
    deref w' (Some 1%positive) = Some [65; 108; 105; 99; 101] /\
    EvRealloc 1%positive (uint64 (5 + 1)) (Some 1%positive) ∈ t.
Proof.
  destruct (GetString_refetch_replaces_block 30 {| odbc := 7 |} 1
              (world [chars SQL_SUCCESS [] 5;
                      chars SQL_SUCCESS [65; 108; 105; 99; 101; 0] 5]
                     [] [Some []] (None :: Some 1%positive :: replicate 28 None)
                     {[1%positive := [0]]})
              1%positive SQL_SUCCESS SQL_SUCCESS [] [65; 108; 105; 99; 101] [] [] [0] 5 5
              false
              {| script := [chars SQL_SUCCESS [65; 108; 105; 99; 101; 0] 5]; diags := [] |}
              {| script := []; diags := [] |} {| allocs := [] |})
    as (t & p & w' & Hrun & Hsame & Hderef & _ & _ & Hin & _).
  - lia.
  - reflexivity.
  - reflexivity.
  - reflexivity.
  - reflexivity.
  - discriminate.
  - reflexivity.
  - reflexivity.
  - reflexivity.
  - repeat constructor; discriminate.
  - simpl. lia.
  - subst p. exists t, w'. auto.
Defined.

(** X5 on an empty slot, with a C library that has no memory left. *)
Lemma GetString_allocation_failure_witness :
  exists t w',
    SMSDODBC_GetString 30 {| odbc := 7 |} 1
      (world [chars SQL_SUCCESS [] 5] [] [] (replicate 30 None) ∅) = (t, Ret None w') /\
    log_of t =
      [EvLog DEBUG_ERROR "Field %d returning NULL, failed to allocate %ld bytes of memory"
         [ArgInt 1; ArgInt (5 + 1)]] /\
    heap w' = ∅.
Proof.
  destruct (GetString_allocation_failure 30 {| odbc := 7 |} 1
              (world [chars SQL_SUCCESS [] 5] [] [] (replicate 30 None) ∅)
              None SQL_SUCCESS [] 5 {| script := []; diags := [] |} {| allocs := [] |})
    as (t & w' & Hrun & Hlog & _ & _ & Hheap & _).
  - apply slots_live_replicate with (n := 30%nat). reflexivity.
  - lia.
  - reflexivity.
  - reflexivity.
  - reflexivity.
  - discriminate.
  - reflexivity.
  - exists t, w'. auto.
Defined.

(** X6 on a field whose value is the SQL null. *)
Lemma GetString_null_without_error_is_sql_null_witness :
  exists t w',
    SMSDODBC_GetString 30 {| odbc := 7 |} 1
      (world [chars SQL_SUCCESS [] SQL_NULL_DATA] [] [] (replicate 30 None) ∅) =
      (t, Ret None w') /\
    ~ error_logged t /\
    t = [EvCall (CGetData 7 (column 1) SQL_C_CHAR false 0) SQL_SUCCESS;
         EvLog DEBUG_INFO "Field %d returning NULL" [ArgInt 1]].
Proof.
  assert (Hrun : SMSDODBC_GetString 30 {| odbc := 7 |} 1
            (world [chars SQL_SUCCESS [] SQL_NULL_DATA] [] [] (replicate 30 None) ∅) =
          ([EvCall (CGetData 7 2 SQL_C_CHAR false 0) SQL_SUCCESS;
            EvLog DEBUG_INFO "Field %d returning NULL" [ArgInt 1]],
           Ret None (world [] [] [] (replicate 30 None) ∅)))
    by (vm_compute; reflexivity).
  assert (Hquiet : ~ error_logged
            [EvCall (CGetData 7 2 SQL_C_CHAR false 0) SQL_SUCCESS;
             EvLog DEBUG_INFO "Field %d returning NULL" [ArgInt 1]]).
  { intros (e & Hin & Hlevel).
    apply elem_of_cons in Hin as [-> | Hin]; [discriminate |].
    apply list_elem_of_singleton in Hin as ->. discriminate. }
  destruct (GetString_null_without_error_is_sql_null 30 {| odbc := 7 |} 1 _ _ _ Hrun Hquiet)
    as (_ & _ & _ & Ht & _).
  eexists _, _. split; [exact Hrun |]. split; [exact Hquiet |]. exact Ht.
Defined.

(** X7 on a driver that grants both handles and the connection. *)
Lemma Connect_outcome_witness :
  exists t w',
    SMSDODBC_Connect 3
      (world [handle 1; status SQL_SUCCESS; handle 2; status SQL_SUCCESS]
             [] [] (replicate 3 None) ∅) = (t, Ret SQL_OK w') /\
    length (api_calls t) = 4%nat /\
    log_of t = [].
Proof.
  eexists _, _. split; [vm_compute; reflexivity |].
  eapply (Connect_outcome 3
            (world [handle 1; status SQL_SUCCESS; handle 2; status SQL_SUCCESS]
                   [] [] (replicate 3 None) ∅)).
  - vm_compute. reflexivity.
  - reflexivity.
Defined.


(** X10 on the string Alice: Free releases the block GetString returned. *)
Lemma fetched_string_released_by_Free_witness :
  exists t p w1,
    SMSDODBC_GetString 30 {| odbc := 7 |} 1
      (world [chars SQL_SUCCESS [] 5; chars SQL_SUCCESS [65; 108; 105; 99; 101; 0] 5]
             [] [Some []] (replicate 30 None) ∅) = (t, Ret (Some p) w1) /\
    is_Some (deref w1 (Some p)) /\
    exists t' w2,
      SMSDODBC_Free 30 w1 = (t', Ret tt w2) /\
      EvFree p ∈ t' /\
      deref w2 (Some p) = None /\
      all_empty (retstr (config w2)).
Proof.
  eexists _, _, _. split; [vm_compute; reflexivity |].
  eapply (fetched_string_released_by_Free 30 {| odbc := 7 |} 1
            (world [chars SQL_SUCCESS [] 5;
                    chars SQL_SUCCESS [65; 108; 105; 99; 101; 0] 5]
                   [] [Some []] (replicate 30 None) ∅)).
  - reflexivity.
  - apply slots_live_replicate with (n := 30%nat). reflexivity.
  - vm_compute. reflexivity.
Defined.


(** X13 on a driver that answers the identity 42. *)
Lemma SeqID_returns_fetched_identity_witness :
  exists t w',
    SMSDODBC_SeqID "sms_id"
      (world [handle 3; status SQL_SUCCESS; status SQL_SUCCESS; long 42; status SQL_SUCCESS]
             [] [] [] ∅) = (t, Ret 42 w') /\
    log_of t = [].
Proof.
  destruct (SeqID_returns_fetched_identity "sms_id"
              (world [handle 3; status SQL_SUCCESS; status SQL_SUCCESS; long 42;
                      status SQL_SUCCESS] [] [] [] ∅))
    as (t & r & w' & Hrun & Hr & _ & _ & _ & Hlog & _).
  - reflexivity.
  - reflexivity.
  - reflexivity.
  - reflexivity.
  - exists t, w'. split; [| exact Hlog].
    rewrite Hrun, Hr. reflexivity.
Defined.

(** X14 on a C library that has no memory left. *)
Lemma QuoteString_defined_iff_block_granted_witness :
  SMSDODBC_QuoteString [97; 0] (world [] [] [] [] ∅) = ([EvMalloc 5 None], Undefined).
Proof.
  destruct (QuoteString_defined_iff_block_granted [97; 0] (world [] [] [] [] ∅))
    as (_ & _ & Hnull).
  - intros len [= <-]. reflexivity.
  - exact (Hnull 1%nat eq_refl eq_refl).
Defined.

(** X15 on an array of three slots in an adapter whose bound is 2: the
    block of the slot at the bound outlives Free. *)
Lemma Connect_and_Free_stop_before_bound_witness :
  exists t w',
    SMSDODBC_Free 2
      (world [] [] [] [None; None; Some 1%positive] {[1%positive := [66; 0]]}) =
      (t, Ret tt w') /\
    retstr (config w') !! 2%nat = Some (Some 1%positive) /\
    is_Some (heap w' !! 1%positive).
Proof.
  destruct (Connect_and_Free_stop_before_bound 2
              (world [] [] [] [None; None; Some 1%positive] {[1%positive := [66; 0]]})
              2%nat) as [_ Hfree].
  - simpl. lia.
  - destruct Hfree as (t & w' & Hrun & Hslot & Hheap).
    + split.
      * simpl. apply NoDup_singleton.
      * intros p Hp. simpl in Hp.
        apply elem_of_cons in Hp as [[=] | Hp].
        apply elem_of_cons in Hp as [[=] | Hp].
        apply list_elem_of_singleton in Hp as [= ->]. by eexists.
    + simpl. lia.
    + exists t, w'. split; [exact Hrun |]. split; [exact Hslot |].
      by apply Hheap.
Defined.

(** X17 on a driver that gives the length and then fails the fetch. *)
Lemma GetString_failed_fetch_keeps_block_witness :
  exists t p w',
    SMSDODBC_GetString 30 {| odbc := 7 |} 1
      (world [chars SQL_SUCCESS [] 5; chars SQL_ERROR [] 0]
             [] [Some []] (replicate 30 None) ∅) = (t, Ret None w') /\
    error_logged t /\
    retstr (config w') = <[Z.to_nat 1 := Some p]> (replicate 30 None) /\
    is_Some (heap w' !! p).
Proof.
  destruct (GetString_failed_fetch_keeps_block 30 {| odbc := 7 |} 1
              (world [chars SQL_SUCCESS [] 5; chars SQL_ERROR [] 0]
                     [] [Some []] (replicate 30 None) ∅)
              None SQL_SUCCESS SQL_ERROR [] [] [] 5 0 false
              {| script := [chars SQL_ERROR [] 0]; diags := [] |}
              {| script := []; diags := [] |} {| allocs := [] |})
    as (t & p & w' & Hrun & Herr & _ & Hslots & Hlive & _).
  - apply slots_live_replicate with (n := 30%nat). reflexivity.
  - lia.
  - reflexivity.
  - reflexivity.
  - reflexivity.
  - discriminate.
  - reflexivity.
  - reflexivity.
  - reflexivity.
  - exists t, p, w'. auto.
Defined.

(** X18 on a fetch of field 1 as a string: every call is on column 2 of
    statement 7. *)
Lemma accessors_address_one_column_witness :
  Forall (addresses 7 (1 + 1))
    (SMSDODBC_GetString 30 {| odbc := 7 |} 1
       (world [chars SQL_SUCCESS [] 5; chars SQL_ERROR [] 0]
              [{| diag_ret := SQL_SUCCESS; diag_state := [52]; diag_native := 1;
                  diag_text := [97] |}]
              [Some []] (replicate 30 None) ∅)).1.
Proof.
  destruct (accessors_address_one_column 30 false one_or_true {| odbc := 7 |} 1)
    as (_ & _ & Hstring & _).
  - lia.
  - apply Hstring.
Defined.

(** X19 on an array of three slots, two of which hold live blocks. *)
Lemma Free_twice_repeats_the_release_witness :
  exists t1 w1 rc1 rc2 w2,
    SMSDODBC_Free 3
      (world [] [] [] [Some 1%positive; None; Some 2%positive]
         {[1%positive := [65; 0]; 2%positive := [0]]}) = (t1, Ret tt w1) /\
    SMSDODBC_Free 3 w1 =
      (EvCall (CDisconnect 0) rc1 :: EvCall (CFreeHandle SQL_HANDLE_ENV 0) rc2 ::
       ((fun i => EvLoad (Z.of_nat i)) <$> seq 0 (Z.to_nat 3)),
       Ret tt w2) /\
    heap w2 = heap w1 /\ config w2 = config w1.
Proof.
  apply (Free_twice_repeats_the_release 3
           (world [] [] [] [Some 1%positive; None; Some 2%positive]
              {[1%positive := [65; 0]; 2%positive := [0]]})).
  - reflexivity.
  - split.
    + simpl. apply NoDup_cons. split; [by intros ?%list_elem_of_singleton |].
      apply NoDup_singleton.
    + intros p Hp. simpl in Hp.
      apply elem_of_cons in Hp as [[= ->] | Hp]; [by eexists |].
      apply elem_of_cons in Hp as [[=] | Hp].
      apply list_elem_of_singleton in Hp as [= ->]. by eexists.
Defined.
